(** * save-earth-ride: the sheet-backed record store and the banner rotation

    A shallow embedding of [lib/blogSheetHelpers.ts],
    [lib/driveSheetHelpers.ts] and of the state of the [RunningBanner]
    component, with the properties of the specification stated over it.

    Conventions of the embedding.
    - A JavaScript string is a [string]; its characters are read as code
      units below 256.
    - A JavaScript number is a [number]: [NaN] or an integer, taken exact.
      The code computes in doubles, so the embedding agrees with it as long
      as the integers met are safe integers (at most 2^53 - 1 in absolute
      value; the sum max + 1 may reach 2^53).  Within that range [parseInt]
      reads every text as the code does, and [Number] does so on blank
      texts, on signed runs of decimal digits, on literals with a radix
      prefix and on texts that are no numerals; a text with a fraction or an
      exponent and the text [Infinity] are outside the modelled fragment
      (they read as [NaN] here).  A property that depends on arithmetic
      beyond the safe integers, or on the reading of a numeral outside the
      fragment, is stated through what [Number] returns or has the
      restriction as a hypothesis.
    - Calls to the sheets client succeed: failures of the network or of the
      authentication are not modelled.
    - [new Date()] reads a clock.  The clock is an oracle [nat -> Date] held
      by the world together with the count of readings made so far, so that
      every sequence of readings is covered.
    - The spreadsheet service is a store (the grids of the two tabs) and the
      list of mutating requests received so far.  [console] output is not
      modelled. *)

From Stdlib Require Import ZArith Ascii String Bool Lia.
From Stdlib Require Import DecimalString DecimalPos.
From stdpp Require Import base option list gmap strings.

Local Open Scope Z_scope.

(** ** JavaScript primitives *)

Module JS.

(** *** Numbers *)

Inductive number := NaN | Num (z : Z).

#[global] Instance number_eq_dec : EqDecision number.
Proof. solve_decision. Defined.

(** Truthiness of a number: [NaN] and [0] are falsy. *)
Definition truthy_number (n : number) : bool :=
  match n with
  | NaN => false
  | Num z => negb (z =? 0)
  end.

(** [n.toString()], for [NaN] and for the integers below 10^21 in absolute
    value, which the code prints without an exponent. *)
Definition toString (n : number) : string :=
  match n with
  | NaN => "NaN"
  | Num Z0 => "0"
  | Num (Zpos p) => NilEmpty.string_of_uint (Pos.to_uint p)
  | Num (Zneg p) => String "-" (NilEmpty.string_of_uint (Pos.to_uint p))
  end.

(** [a === b] on numbers: [NaN] is not equal to itself. *)
Definition strict_eq_number (a b : number) : bool :=
  match a, b with
  | Num x, Num y => x =? y
  | _, _ => false
  end.

(** [Math.max(...l)] for a non-empty [l]: [NaN] if any argument is.  The
    only call has at least one argument. *)
Definition max_number (a b : number) : number :=
  match a, b with
  | Num x, Num y => Num (Z.max x y)
  | _, _ => NaN
  end.

Definition Math_max (l : list number) : number :=
  match l with
  | [] => NaN
  | x :: r => foldl max_number x r
  end.

(** [a + k].  The sum is exact here; in the code it is exact when [a] is a
    safe integer (see [isSafeInteger] below) and [k] is 1. *)
Definition add_number (a : number) (k : Z) : number :=
  match a with
  | Num x => Num (x + k)
  | NaN => NaN
  end.

(** *** Strings *)

(** White space as removed by [String.prototype.trim] and skipped by
    [Number] and [parseInt]: TAB, LF, VT, FF, CR, SP and NBSP. *)
Definition is_ws (c : ascii) : bool :=
  let n := N_of_ascii c in
  ((9 <=? n) && (n <=? 13) || (n =? 32) || (n =? 160))%N.

Definition is_digit (c : ascii) : bool :=
  let n := N_of_ascii c in ((48 <=? n) && (n <=? 57))%N.

Definition is_empty (s : string) : bool :=
  match s with
  | EmptyString => true
  | String _ _ => false
  end.

Fixpoint ltrim (s : string) : string :=
  match s with
  | EmptyString => EmptyString
  | String c r => if is_ws c then ltrim r else s
  end.

Fixpoint rtrim (s : string) : string :=
  match s with
  | EmptyString => EmptyString
  | String c r =>
      let r' := rtrim r in
      if is_ws c && is_empty r' then EmptyString else String c r'
  end.

(** [s.trim()] *)
Definition trim (s : string) : string := rtrim (ltrim s).

(** [s.split(sep)] for a one-character separator. *)
Fixpoint split (sep : ascii) (s : string) : list string :=
  match s with
  | EmptyString => [EmptyString]
  | String c r =>
      if Ascii.eqb c sep then EmptyString :: split sep r
      else match split sep r with
           | h :: t => String c h :: t
           | [] => [String c EmptyString]
           end
  end.

(** [l.join(sep)] *)
Fixpoint join (sep : string) (l : list string) : string :=
  match l with
  | [] => ""
  | [x] => x
  | x :: r => x +:+ sep +:+ join sep r
  end.

Definition lower_char (c : ascii) : ascii :=
  let n := N_of_ascii c in
  if ((65 <=? n) && (n <=? 90)
      || (192 <=? n) && (n <=? 222) && negb (n =? 215))%N
  then ascii_of_N (n + 32) else c.

(** [s.toLowerCase()]: the letters A-Z and the upper-case letters of the
    Latin-1 range go to their lower-case forms. *)
Fixpoint toLowerCase (s : string) : string :=
  match s with
  | EmptyString => EmptyString
  | String c r => String (lower_char c) (toLowerCase r)
  end.

(** *** Numeric conversions *)

(** The longest prefix of decimal digits and what follows it. *)
Fixpoint span_digits (s : string) : string * string :=
  match s with
  | EmptyString => (EmptyString, EmptyString)
  | String c r =>
      if is_digit c then
        let '(d, rest) := span_digits r in (String c d, rest)
      else (EmptyString, s)
  end.

Definition digits_value (d : string) : option Z :=
  match d with
  | EmptyString => None
  | _ => match NilEmpty.uint_of_string d with
         | Some u => Some (Z.of_N (Pos.of_uint u))
         | None => None
         end
  end.

Definition signed (s : string) : bool * string :=
  match s with
  | String "-" r => (true, r)
  | String "+" r => (false, r)
  | _ => (false, s)
  end.

Definition apply_sign (neg : bool) (z : Z) : Z := if neg then - z else z.

(** The value of [c] as a digit of the radix, if it is one. *)
Definition digit_of (radix : Z) (c : ascii) : option Z :=
  let n := Z.of_N (N_of_ascii c) in
  let v := if (48 <=? n) && (n <=? 57) then n - 48
           else if (97 <=? n) && (n <=? 102) then n - 87
           else if (65 <=? n) && (n <=? 70) then n - 55
           else radix in
  if v <? radix then Some v else None.

(** The value of the longest prefix of digits of the radix, and whether
    the whole string consists of such digits. *)
Fixpoint radix_digits (radix acc : Z) (s : string) : Z * bool :=
  match s with
  | EmptyString => (acc, true)
  | String c r =>
      match digit_of radix c with
      | Some v => radix_digits radix (acc * radix + v) r
      | None => (acc, false)
      end
  end.

(** The radix that the letter of a prefix [0x], [0o] or [0b] announces. *)
Definition radix_letter (c : ascii) : option Z :=
  if Ascii.eqb c "x" || Ascii.eqb c "X" then Some 16
  else if Ascii.eqb c "o" || Ascii.eqb c "O" then Some 8
  else if Ascii.eqb c "b" || Ascii.eqb c "B" then Some 2
  else None.

(** [Number] on a literal with a radix prefix: the digits after the prefix
    must be there and reach the end; such a literal takes no sign. *)
Definition nonDecimal (t : string) : option number :=
  match t with
  | String "0" (String x r) =>
      match radix_letter x with
      | Some radix =>
          Some (match r, radix_digits radix 0 r with
                | String _ _, (z, true) => Num z
                | _, _ => NaN
                end)
      | None => None
      end
  | _ => None
  end.

(** [Number(s)] on a string: white space is stripped, the empty string is
    [0], a literal with a radix prefix or a signed run of decimal digits is
    its value, anything else in the modelled fragment is [NaN]. *)
Definition Number (s : string) : number :=
  let t := trim s in
  if is_empty t then Num 0
  else
    match nonDecimal t with
    | Some n => n
    | None =>
        let '(neg, body) := signed t in
        match digits_value body with
        | Some z => Num (apply_sign neg z)
        | None => NaN
        end
    end.

(** [Number(row[0])]: [Number(undefined)] is [NaN]. *)
Definition Number_cell (c : option string) : number :=
  match c with
  | Some s => Number s
  | None => NaN
  end.

(** What follows the prefix [0x] or [0X], if the text has it. *)
Definition hexBody (body : string) : option string :=
  match body with
  | String "0" (String x r) =>
      if Ascii.eqb x "x" || Ascii.eqb x "X" then Some r else None
  | _ => None
  end.

(** [parseInt(s)]: leading white space is skipped, then a sign, then the
    longest prefix of hexadecimal digits after [0x], or else the longest
    prefix of decimal digits, is read; [NaN] if there is no digit. *)
Definition parseInt (s : string) : number :=
  let '(neg, body) := signed (ltrim s) in
  match hexBody body with
  | Some r =>
      match r with
      | String c _ =>
          match digit_of 16 c with
          | Some _ => Num (apply_sign neg (fst (radix_digits 16 0 r)))
          | None => NaN
          end
      | EmptyString => NaN
      end
  | None =>
      match digits_value (fst (span_digits body)) with
      | Some z => Num (apply_sign neg z)
      | None => NaN
      end
  end.

(** [c || d] on an optional string cell: absent and empty cells are falsy. *)
Definition or_default (c : option string) (d : string) : string :=
  match c with
  | Some (String a r) => String a r
  | _ => d
  end.

(** Truthiness of an optional string cell. *)
Definition truthy_cell (c : option string) : bool :=
  match c with
  | Some (String _ _) => true
  | _ => false
  end.

(** *** Dates *)

(** The two observations made of a [Date]: [getTime()] (which is what
    [Date.now()] returns) and [toISOString()]. *)
Record Date := { getTime : Z; toISOString : string }.

(** [d.toISOString().split('T')[0]] *)
Definition iso_date (d : Date) : string :=
  match split "T" (toISOString d) with
  | h :: _ => h
  | [] => ""
  end.

End JS.

Import JS.

(** ** Values, the spreadsheet service and the effect monad *)

(** The JavaScript values that occur in records and in request bodies. *)
Inductive value :=
  | VUndef
  | VBool (b : bool)
  | VNum (n : number)
  | VStr (s : string)
  | VArr (l : list string).

#[global] Instance value_eq_dec : EqDecision value.
Proof. solve_decision. Defined.

Definition truthy (v : value) : bool :=
  match v with
  | VUndef => false
  | VBool b => b
  | VNum n => truthy_number n
  | VStr s => negb (is_empty s)
  | VArr _ => true
  end.

(** [a === b].  Two arrays are equal only when they are the same object,
    which the embedding does not track: no comparison of arrays is reached
    by the code below. *)
Definition strict_eq (a b : value) : bool :=
  match a, b with
  | VUndef, VUndef => true
  | VBool x, VBool y => Bool.eqb x y
  | VNum x, VNum y => strict_eq_number x y
  | VStr x, VStr y => String.eqb x y
  | _, _ => false
  end.

(** [v.toString()] for a defined primitive value. *)
Definition value_toString (v : value) : string :=
  match v with
  | VUndef => ""
  | VBool true => "true"
  | VBool false => "false"
  | VNum n => toString n
  | VStr s => s
  | VArr l => join "," l
  end.

Inductive Tab := BlogTab | DriveTab.

#[global] Instance Tab_eq_dec : EqDecision Tab.
Proof. solve_decision. Defined.

(** The mutating requests of the sheets client.  [ValuesUpdate tab r vs] is
    [values.update] on the range [tab!A<r>:Q<r>] (blog) or [tab!A<r>:R<r>]
    (drives); [ValuesAppend] is [values.append]; [DeleteDimension] is the
    [deleteDimension] request of [batchUpdate] on rows. *)
Inductive Request :=
  | ValuesUpdate (tab : Tab) (rowNumber : nat) (values : list (list value))
  | ValuesAppend (tab : Tab) (values : list (list value))
  | DeleteDimension (sheetId : Z) (startIndex endIndex : Z).

(** The grids of the two tabs, each from row 1 on. *)
Record Store := {
  blogGrid : list (list string);
  driveGrid : list (list string)
}.

(** The world the helpers run in.  [service] is what the remote service
    does to the store on a mutating request: it is left to the world, as
    the clock is. *)
Record World := {
  store : Store;
  service : Request -> Store -> Store;
  clock : nat -> Date;
  reads : nat;
  requests : list Request
}.

Inductive Outcome (A : Type) :=
  | Return (a : A)
  | Throw (message : string).
Arguments Return {A} a.
Arguments Throw {A} message.

Definition M (A : Type) : Type := World -> Outcome A * World.

Definition ret {A} (a : A) : M A := fun w => (Return a, w).

Definition throw {A} (message : string) : M A := fun w => (Throw message, w).

Definition bind {A B} (m : M A) (k : A -> M B) : M B :=
  fun w =>
    match m w with
    | (Return a, w') => k a w'
    | (Throw e, w') => (Throw e, w')
    end.

Notation "x <~ m ;; k" := (bind m (fun x => k))
  (at level 100, m at next level, right associativity).

(** [new Date()] *)
Definition newDate : M Date :=
  fun w =>
    (Return (clock w (reads w)),
     {| store := store w; service := service w; clock := clock w;
        reads := S (reads w); requests := requests w |}).

(** A mutating request: recorded, and applied to the store by the service. *)
Definition send (r : Request) : M unit :=
  fun w =>
    (Return tt,
     {| store := service w r (store w); service := service w;
        clock := clock w; reads := reads w;
        requests := requests w ++ [r] |}).

(** [values.get] on [tab!A<firstRow>:<column number cols>]: the rows from
    [firstRow] on, cut to [cols] columns ([response.data.values || []]). *)
Definition valuesGet (tab : Tab) (firstRow cols : nat) : M (list (list string)) :=
  fun w =>
    let grid := match tab with
                | BlogTab => blogGrid (store w)
                | DriveTab => driveGrid (store w)
                end in
    (Return (map (take cols) (drop (firstRow - 1) grid)), w).

(** [l.map((x, index) => ...)] with an effectful body. *)
Fixpoint mapM_from {A B} (f : A -> nat -> M B) (index : nat) (l : list A) : M (list B) :=
  match l with
  | [] => ret []
  | x :: r =>
      y <~ f x index ;;
      ys <~ mapM_from f (S index) r ;;
      ret (y :: ys)
  end.

(** [for (const x of l) { await ... }] *)
Fixpoint forM_ {A} (f : A -> M unit) (l : list A) : M unit :=
  match l with
  | [] => ret tt
  | x :: r => _ <~ f x ;; forM_ f r
  end.

(** [c || f(new Date())]: the clock is read only when the cell is falsy. *)
Definition cell_or_now (c : option string) (f : Date -> string) : M string :=
  if truthy_cell c then ret (or_default c "")
  else d <~ newDate ;; ret (f d).

(** ** lib/blogSheetHelpers.ts *)

Module Blog.

Record BlogPost := {
  id : number;
  title : string;
  excerpt : string;
  content : string;
  blogURL : string;
  authorName : string;
  authorBio : string;
  authorAvatar : string;
  tags : list string;
  image : string;
  readTime : string;
  featured : bool;
  status : string;
  category : string;
  date : string;
  createdAt : string;
  updatedAt : string
}.

(** [{ ...blog, updatedAt: u }] *)
Definition with_updatedAt (blog : BlogPost) (u : string) : BlogPost :=
  {| id := id blog; title := title blog; excerpt := excerpt blog;
     content := content blog; blogURL := blogURL blog;
     authorName := authorName blog; authorBio := authorBio blog;
     authorAvatar := authorAvatar blog; tags := tags blog;
     image := image blog; readTime := readTime blog;
     featured := featured blog; status := status blog;
     category := category blog; date := date blog;
     createdAt := createdAt blog; updatedAt := u |}.

(** [{ ...blog, createdAt: c, updatedAt: u }] *)
Definition with_stamps (blog : BlogPost) (c u : string) : BlogPost :=
  {| id := id blog; title := title blog; excerpt := excerpt blog;
     content := content blog; blogURL := blogURL blog;
     authorName := authorName blog; authorBio := authorBio blog;
     authorAvatar := authorAvatar blog; tags := tags blog;
     image := image blog; readTime := readTime blog;
     featured := featured blog; status := status blog;
     category := category blog; date := date blog;
     createdAt := c; updatedAt := u |}.

(** The body of the [rows.map] of [readBlogFromSheet]: one sheet row, at
    position [index] among the data rows, to a record. *)
Definition rowToBlog (row : list string) (index : nat) : M BlogPost :=
  let n := Number_cell (row !! 0%nat) in
  let id_ := if truthy_number n then n else Num (Z.of_nat index + 1) in
  date_ <~ cell_or_now (row !! 14%nat) iso_date ;;
  createdAt_ <~ cell_or_now (row !! 15%nat) toISOString ;;
  updatedAt_ <~ cell_or_now (row !! 16%nat) toISOString ;;
  ret {| id := id_;
         title := or_default (row !! 1%nat) "";
         excerpt := or_default (row !! 2%nat) "";
         content := or_default (row !! 3%nat) "";
         blogURL := or_default (row !! 4%nat) "";
         authorName := or_default (row !! 5%nat) "";
         authorBio := or_default (row !! 6%nat) "";
         authorAvatar := or_default (row !! 7%nat) "";
         tags := if truthy_cell (row !! 8%nat)
                 then map trim (split "," (or_default (row !! 8%nat) ""))
                 else [];
         image := or_default (row !! 9%nat) "";
         readTime := or_default (row !! 10%nat) "";
         featured := bool_decide (row !! 11%nat = Some "true");
         status := or_default (row !! 12%nat) "draft";
         category := or_default (row !! 13%nat) "";
         date := date_;
         createdAt := createdAt_;
         updatedAt := updatedAt_ |}.

Definition readBlogFromSheet : M (list BlogPost) :=
  rows <~ valuesGet BlogTab 2 17 ;;
  mapM_from rowToBlog 0 rows.

(** The [values] array written for a record (the same expression in the
    update loop and in the append). *)
Definition blogToRow (blog : BlogPost) : list value :=
  [ VNum (id blog);
    VStr (title blog);
    VStr (excerpt blog);
    VStr (content blog);
    VStr (blogURL blog);
    VStr (authorName blog);
    VStr (authorBio blog);
    VStr (authorAvatar blog);
    VStr (join ", " (tags blog));
    VStr (image blog);
    VStr (readTime blog);
    VStr (if featured blog then "true" else "false");
    VStr (status blog);
    VStr (category blog);
    VStr (date blog);
    VStr (createdAt blog);
    VStr (updatedAt blog) ].

(** [blog[field]] *)
Definition get_field (blog : BlogPost) (field : string) : value :=
  if String.eqb field "id" then VNum (id blog)
  else if String.eqb field "title" then VStr (title blog)
  else if String.eqb field "excerpt" then VStr (excerpt blog)
  else if String.eqb field "content" then VStr (content blog)
  else if String.eqb field "blogURL" then VStr (blogURL blog)
  else if String.eqb field "authorName" then VStr (authorName blog)
  else if String.eqb field "authorBio" then VStr (authorBio blog)
  else if String.eqb field "authorAvatar" then VStr (authorAvatar blog)
  else if String.eqb field "tags" then VArr (tags blog)
  else if String.eqb field "image" then VStr (image blog)
  else if String.eqb field "readTime" then VStr (readTime blog)
  else if String.eqb field "featured" then VBool (featured blog)
  else if String.eqb field "status" then VStr (status blog)
  else if String.eqb field "category" then VStr (category blog)
  else if String.eqb field "date" then VStr (date blog)
  else if String.eqb field "createdAt" then VStr (createdAt blog)
  else if String.eqb field "updatedAt" then VStr (updatedAt blog)
  else VUndef.

(** [v || ''] *)
Definition or_empty (v : value) : value := if truthy v then v else VStr "".

Definition fieldsToCompare : list string :=
  [ "title"; "excerpt"; "content"; "blogURL"; "authorName"; "authorBio";
    "authorAvatar"; "image"; "readTime"; "featured"; "status"; "category";
    "date" ].

Definition hasBlogChanged (existing incoming : BlogPost) : bool :=
  existsb
    (fun field =>
       if String.eqb field "tags" then
         negb (String.eqb (join ", " (tags existing)) (join ", " (tags incoming)))
       else
         let existingValue := or_empty (get_field existing field) in
         let incomingValue := or_empty (get_field incoming field) in
         negb (strict_eq existingValue incomingValue))
    fieldsToCompare.

(** [new Set(existingBlogs.map(blog => blog.id.toString()))] *)
Definition existingIds (existingBlogs : list BlogPost) : gset string :=
  list_to_set (map (fun blog => toString (id blog)) existingBlogs).

(** [new Map(existingBlogs.map((blog, index) => [blog.id.toString(),
    { blog, rowIndex: index + 2 }]))]: a later entry replaces an earlier
    one with the same key. *)
Fixpoint existingBlogMap_from (index : nat) (existingBlogs : list BlogPost)
    (m : gmap string (BlogPost * nat)) : gmap string (BlogPost * nat) :=
  match existingBlogs with
  | [] => m
  | blog :: r =>
      existingBlogMap_from (S index) r
        (<[ toString (id blog) := (blog, (index + 2)%nat) ]> m)
  end.

Definition existingBlogMap (existingBlogs : list BlogPost) : gmap string (BlogPost * nat) :=
  existingBlogMap_from 0 existingBlogs ∅.

(** The [blogs.forEach] that separates new records from changed ones; the
    two accumulators are [newBlogs] and [updatedBlogs]. *)
Fixpoint separate (ids : gset string) (m : gmap string (BlogPost * nat))
    (blogs : list BlogPost) (newBlogs : list BlogPost)
    (updatedBlogs : list (BlogPost * nat)) : M (list BlogPost * list (BlogPost * nat)) :=
  match blogs with
  | [] => ret (newBlogs, updatedBlogs)
  | blog :: r =>
      let blogId := toString (id blog) in
      if bool_decide (blogId ∈ ids) then
        match m !! blogId with
        | Some (existing, rowIndex) =>
            if hasBlogChanged existing blog then
              d <~ newDate ;;
              separate ids m r newBlogs
                (updatedBlogs ++ [(with_updatedAt blog (toISOString d), rowIndex)])
            else separate ids m r newBlogs updatedBlogs
        | None => separate ids m r newBlogs updatedBlogs
        end
      else
        c <~ cell_or_now (Some (createdAt blog)) toISOString ;;
        d <~ newDate ;;
        separate ids m r (newBlogs ++ [with_stamps blog c (toISOString d)]) updatedBlogs
  end.

Record WriteResult := { success : bool; updated : nat; added : nat }.

Definition writeBlogToSheet (blogs : list BlogPost) : M WriteResult :=
  existingBlogs <~ readBlogFromSheet ;;
  let ids := existingIds existingBlogs in
  let m := existingBlogMap existingBlogs in
  sep <~ separate ids m blogs [] [] ;;
  let newBlogs := fst sep in
  let updatedBlogs := snd sep in
  _ <~ forM_ (fun u => send (ValuesUpdate BlogTab (snd u) [blogToRow (fst u)])) updatedBlogs ;;
  _ <~ (if (0 <? length newBlogs)%nat
        then send (ValuesAppend BlogTab (map blogToRow newBlogs))
        else ret tt) ;;
  ret {| success := true; updated := length updatedBlogs; added := length newBlogs |}.

(** The [existingRows.forEach] of [deleteBlogFromSheet]: the last matching
    row wins. *)
Fixpoint findRowToDelete (blogId : number) (existingRows : list (list string))
    (index : nat) (rowToDelete : Z) : Z :=
  match existingRows with
  | [] => rowToDelete
  | row :: r =>
      findRowToDelete blogId r (S index)
        (if strict_eq_number (Number_cell (row !! 0%nat)) blogId
         then Z.of_nat index + 2 else rowToDelete)
  end.

Definition deleteBlogFromSheet (blogId : number) : M bool :=
  existingRows <~ valuesGet BlogTab 2 17 ;;
  let rowToDelete := findRowToDelete blogId existingRows 0 (-1) in
  if rowToDelete =? -1 then throw "Blog not found"
  else
    _ <~ send (DeleteDimension 0 (rowToDelete - 1) rowToDelete) ;;
    ret true.

(** The argument of [addSingleBlog]: a [BlogPost] without [id],
    [createdAt] and [updatedAt]. *)
Record BlogInput := {
  in_title : string;
  in_excerpt : string;
  in_content : string;
  in_blogURL : string;
  in_authorName : string;
  in_authorBio : string;
  in_authorAvatar : string;
  in_tags : list string;
  in_image : string;
  in_readTime : string;
  in_featured : bool;
  in_status : string;
  in_category : string;
  in_date : string
}.

Record AddResult := {
  add_success : bool;
  add_id : option number;
  add_message : option string
}.

Definition newBlogOf (blog : BlogInput) (newId : number) (c u : string) : BlogPost :=
  {| id := newId; title := in_title blog; excerpt := in_excerpt blog;
     content := in_content blog; blogURL := in_blogURL blog;
     authorName := in_authorName blog; authorBio := in_authorBio blog;
     authorAvatar := in_authorAvatar blog; tags := in_tags blog;
     image := in_image blog; readTime := in_readTime blog;
     featured := in_featured blog; status := in_status blog;
     category := in_category blog; date := in_date blog;
     createdAt := c; updatedAt := u |}.

Definition addSingleBlog (blog : BlogInput) : M AddResult :=
  existingBlogs <~ readBlogFromSheet ;;
  let newId := if (0 <? length existingBlogs)%nat
               then add_number (Math_max (map id existingBlogs)) 1
               else Num 1 in
  let existingBlog :=
    find (fun b => String.eqb (toLowerCase (title b)) (toLowerCase (in_title blog)))
         existingBlogs in
  match existingBlog with
  | Some _ =>
      ret {| add_success := false; add_id := None;
             add_message := Some "A blog with this title already exists" |}
  | None =>
      c <~ newDate ;;
      u <~ newDate ;;
      _ <~ writeBlogToSheet [newBlogOf blog newId (toISOString c) (toISOString u)] ;;
      ret {| add_success := true; add_id := Some newId; add_message := None |}
  end.

End Blog.

(** ** lib/driveSheetHelpers.ts *)

Module Drive.

(** A drive is handled as a plain object: [getAllDrives] builds it from
    whatever header row the sheet has, and the writers read it by header
    name.  A property bound to [VUndef] is present with value [undefined]. *)
Abbreviation DriveData := (gmap string value).

(** [o[k]] *)
Definition prop (o : DriveData) (k : string) : value :=
  match o !! k with
  | Some v => v
  | None => VUndef
  end.

(** [v || d] *)
Definition or_value (v d : value) : value := if truthy v then v else d.

(** [v ?? d] *)
Definition nullish (v d : value) : value :=
  match v with
  | VUndef => d
  | _ => v
  end.

(** The [switch (header)] of [getAllDrives], on [cell = row[index] || '']. *)
Definition convertCell (header : string) (cell : string) : M value :=
  if String.eqb header "participants" || String.eqb header "treesTarget" then
    ret (VNum (if is_empty cell then Num 0 else parseInt cell))
  else if String.eqb header "registrationOpen" then
    ret (VBool (String.eqb cell "true"))
  else if String.eqb header "id" then
    if is_empty cell then d <~ newDate ;; ret (VNum (Num (getTime d)))
    else ret (VNum (parseInt cell))
  else ret (VStr cell).

(** [drive[header] = v] on the object literal, for a primitive [v].  The
    key [__proto__] names the accessor of [Object.prototype], whose setter
    ignores a primitive: the assignment creates no property.  Every other
    key becomes, or stays, an own property. *)
Definition assign (drive : DriveData) (header : string) (v : value) : DriveData :=
  if String.eqb header "__proto__" then drive else <[ header := v ]> drive.

(** The [headers.forEach] that fills one drive object. *)
Fixpoint fillDrive (row : list string) (headers : list string) (index : nat)
    (drive : DriveData) : M DriveData :=
  match headers with
  | [] => ret drive
  | header :: r =>
      v <~ convertCell header (or_default (row !! index) "") ;;
      fillDrive row r (S index) (assign drive header v)
  end.

Definition getAllDrives : M (list DriveData) :=
  rows <~ valuesGet DriveTab 1 18 ;;
  if (length rows <=? 1)%nat then ret []
  else
    match rows with
    | headers :: dataRows =>
        mapM_from (fun row _ => fillDrive row headers 0 ∅) 0 dataRows
    | [] => ret []
    end.

(** [drive.id?.toString()] *)
Definition idString (drive : DriveData) : option string :=
  match prop drive "id" with
  | VUndef => None
  | v => Some (value_toString v)
  end.

(** [l.findIndex(p)], [-1] when no element satisfies [p]. *)
Fixpoint findIndex_from {A} (p : A -> bool) (l : list A) (index : Z) : Z :=
  match l with
  | [] => -1
  | x :: r => if p x then index else findIndex_from p r (index + 1)
  end.

Definition findIndex {A} (p : A -> bool) (l : list A) : Z := findIndex_from p l 0.

Definition hasId (id : string) (drive : DriveData) : bool :=
  bool_decide (idString drive = Some id).

Section Helpers.

(** [DRIVE_SHEET_HEADERS] and [validateDriveSheetData] come from
    [lib/driveSheetHeaders.ts]; they are parameters here.  The headers are
    read as names of fields of [DriveData], none of them a property that
    every object inherits.  The validation either passes ([None]) or throws
    the given message. *)
Variable DRIVE_SHEET_HEADERS : list string.
Variable validateDriveSheetData : DriveData -> option string.

Definition validate (driveData : DriveData) : M unit :=
  match validateDriveSheetData driveData with
  | None => ret tt
  | Some message => throw message
  end.

(** [DRIVE_SHEET_HEADERS.map(header => value !== undefined ?
    value.toString() : '')] *)
Definition driveToRow (drive : DriveData) : list value :=
  map (fun header =>
         match prop drive header with
         | VUndef => VStr ""
         | v => VStr (value_toString v)
         end)
      DRIVE_SHEET_HEADERS.

Definition addDrive (driveData : DriveData) : M DriveData :=
  _ <~ validate driveData ;;
  d <~ newDate ;;
  let now := toISOString d in
  id_ <~ (if truthy (prop driveData "id") then ret (prop driveData "id")
          else t <~ newDate ;; ret (VStr (toString (Num (getTime t))))) ;;
  let newDrive : DriveData :=
    <[ "difficulty" := or_value (prop driveData "difficulty") (VStr "Easy") ]>
    (<[ "registrationOpen" := nullish (prop driveData "registrationOpen") (VBool true) ]>
    (<[ "status" := or_value (prop driveData "status") (VStr "upcoming") ]>
    (<[ "treesTarget" := or_value (prop driveData "treesTarget") (VNum (Num 0)) ]>
    (<[ "participants" := or_value (prop driveData "participants") (VNum (Num 0)) ]>
    (<[ "updatedAt" := VStr now ]>
    (<[ "createdAt" := VStr now ]>
    (<[ "id" := id_ ]> driveData))))))) in
  _ <~ send (ValuesAppend DriveTab [driveToRow newDrive]) ;;
  ret newDrive.

Definition updateDrive (id : string) (driveData : DriveData) : M DriveData :=
  _ <~ validate (<[ "id" := VStr id ]> driveData) ;;
  allDrives <~ getAllDrives ;;
  let driveIndex := findIndex (hasId id) allDrives in
  if driveIndex =? -1 then throw "Drive not found"
  else
    d <~ newDate ;;
    let stored : DriveData :=
      match allDrives !! Z.to_nat driveIndex with
      | Some drive => drive
      | None => ∅
      end in
    let updatedDrive : DriveData :=
      <[ "updatedAt" := VStr (toISOString d) ]> (driveData ∪ stored) in
    let rowNumber := (Z.to_nat driveIndex + 2)%nat in
    _ <~ send (ValuesUpdate DriveTab rowNumber [driveToRow updatedDrive]) ;;
    ret updatedDrive.

End Helpers.

Definition deleteDrive (id : string) : M bool :=
  allDrives <~ getAllDrives ;;
  let driveIndex := findIndex (hasId id) allDrives in
  if driveIndex =? -1 then throw "Drive not found"
  else
    let rowNumber := driveIndex + 2 in
    _ <~ send (DeleteDimension 0 (rowNumber - 1) rowNumber) ;;
    ret true.

Definition getDriveById (id : string) : M (option DriveData) :=
  allDrives <~ getAllDrives ;;
  ret (find (hasId id) allDrives).

Definition getDrivesByStatus (status : string) : M (list DriveData) :=
  allDrives <~ getAllDrives ;;
  ret (List.filter (fun drive => strict_eq (prop drive "status") (VStr status)) allDrives).

End Drive.

(** ** The [RunningBanner] component *)

Module Banner.

Import Drive.

(** The filter of [getCurrentDrives]. *)
Definition loadable (drive : DriveData) : bool :=
  truthy (prop drive "title") && truthy (prop drive "location")
  && truthy (prop drive "date")
  && strict_eq (prop drive "status") (VStr "upcoming")
  && truthy (prop drive "registrationOpen").

(** The filter of [handleUpdate]. *)
Definition shown (drive : DriveData) : bool :=
  strict_eq (prop drive "status") (VStr "upcoming")
  && truthy (prop drive "registrationOpen").

Definition fallbackDrives : list DriveData :=
  [ list_to_map
      [ ("id", VNum (Num 1));
        ("title", VStr "New Year Green Resolution Ride");
        ("location", VStr "Mumbai, India");
        ("date", VStr "2025-01-01");
        ("participants", VNum (Num 150));
        ("treesTarget", VNum (Num 500));
        ("status", VStr "upcoming");
        ("registrationOpen", VBool true);
        ("description", VStr "Start the new year with a green resolution! Join us for a massive tree planting drive.");
        ("organizer", VStr "Mumbai Riders Club");
        ("logo", VStr "/Save-earth-ride-logo.jpg") ] ].

(** [getCurrentDrives()].  [saved] is the array parsed from the
    [currentDrives] item of [localStorage], or [None] when the item is
    missing, empty or does not parse to an array. *)
Definition getCurrentDrives (saved : option (list DriveData)) : list DriveData :=
  match saved with
  | Some drives => List.filter loadable drives
  | None => fallbackDrives
  end.

(** The state of the component, with the [localStorage] item it reads. *)
Record State := {
  currentDrives : list DriveData;
  currentIndex : nat;
  isLoading : bool;
  saved : option (list DriveData)
}.

(** [loadData()] *)
Definition loadData (st : State) : State :=
  {| currentDrives := getCurrentDrives (saved st);
     currentIndex := currentIndex st;
     isLoading := false;
     saved := saved st |}.

(** The first render and the first run of the effects. *)
Definition mount (saved_ : option (list DriveData)) : State :=
  loadData {| currentDrives := []; currentIndex := 0; isLoading := true;
              saved := saved_ |}.

(** A render after which [currentIndex] is [index]: the first effect has
    [currentIndex] as its dependency, so it runs again, [loadData]
    included, whenever the index has changed. *)
Definition commit (st : State) (drives : list DriveData) (index : nat) : State :=
  let st' := {| currentDrives := drives; currentIndex := index;
                isLoading := isLoading st; saved := saved st |} in
  if (index =? currentIndex st)%nat then st' else loadData st'.

Inductive Event :=
  | Tick
  | AdminDataUpdate (section : string) (data : list DriveData)
  | Click (index : nat)
  | StorageWrite (saved_ : option (list DriveData)).

Definition step (st : State) (e : Event) : State :=
  match e with
  | Tick =>
      (* the interval exists only while [currentDrives.length > 1] *)
      if (1 <? length (currentDrives st))%nat then
        commit st (currentDrives st)
          ((currentIndex st + 1) mod length (currentDrives st))%nat
      else st
  | AdminDataUpdate section data =>
      if String.eqb section "currentDrives" then
        let updatedDrives := List.filter shown data in
        if (length updatedDrives <=? currentIndex st)%nat
        then commit st updatedDrives 0
        else commit st updatedDrives (currentIndex st)
      else st
  | Click index =>
      (* the buttons are rendered for the indices of a list of two or more *)
      if (1 <? length (currentDrives st))%nat
         && (index <? length (currentDrives st))%nat
      then commit st (currentDrives st) index
      else st
  | StorageWrite saved_ =>
      {| currentDrives := currentDrives st; currentIndex := currentIndex st;
         isLoading := isLoading st; saved := saved_ |}
  end.

Definition run (st : State) (es : list Event) : State := foldl step st es.

(** What the render shows: nothing while loading or when the list is empty,
    [currentDrives[currentIndex]] otherwise ([None] inside stands for
    [undefined]). *)
Definition displayed (st : State) : option (option DriveData) :=
  if isLoading st || (length (currentDrives st) =? 0)%nat then None
  else Some (currentDrives st !! currentIndex st).

End Banner.

(** ** app/api/blog/route.ts *)

Module BlogRoute.

Import Drive.

(** An element of the [blogs] array of a request: a plain object. *)
Abbreviation BlogJson := (gmap string value).

(** The JSON bodies of the responses. *)
Inductive Payload :=
  | BlogData (data : list Blog.BlogPost)
  | Saved (updated added : nat)
  | Deleted
  | Failure (error : string).

(** [NextResponse.json(body, { status })], 200 when no status is given. *)
Record Response := { status : nat; payload : Payload }.

(** [try { ... } catch (error) { ... }] *)
Definition try_catch {A} (m : M A) (handler : string -> M A) : M A :=
  fun w =>
    match m w with
    | (Return a, w') => (Return a, w')
    | (Throw e, w') => handler e w'
    end.

(** The [rows.map] of the handler is the one of [readBlogFromSheet]. *)
Definition GET : M Response :=
  try_catch
    (rows <~ valuesGet BlogTab 2 17 ;;
     blogData <~ mapM_from Blog.rowToBlog 0 rows ;;
     ret {| status := 200; payload := BlogData blogData |})
    (fun _ => ret {| status := 500; payload := Failure "Failed to fetch blog data" |}).

(** What [await request.json()] and the destructuring of [blogs] give:
    [NotJson] when either throws, [Json None] when [blogs] is missing or
    not an array. *)
Inductive Body :=
  | NotJson
  | Json (blogs : option (list BlogJson)).

(** The [existingRows.forEach] that fills [idToRowIndex]: rows with a falsy
    id cell are skipped, a later row replaces an earlier one with the same
    id cell. *)
Fixpoint idToRowIndex_from (index : nat) (existingRows : list (list string))
    (m : gmap string nat) : gmap string nat :=
  match existingRows with
  | [] => m
  | row :: r =>
      idToRowIndex_from (S index) r
        (if truthy_cell (row !! 0%nat)
         then <[ or_default (row !! 0%nat) "" := (index + 2)%nat ]> m
         else m)
  end.

Definition idToRowIndex (existingRows : list (list string)) : gmap string nat :=
  idToRowIndex_from 0 existingRows ∅.

(** [v || f(new Date())] on a property of the request. *)
Definition value_or_now (v : value) (f : Date -> string) : M value :=
  if truthy v then ret v else d <~ newDate ;; ret (VStr (f d)).

(** The [values] array the handler builds for one element of [blogs]. *)
Definition blogValues (blog : BlogJson) : M (list value) :=
  date_ <~ value_or_now (prop blog "date") iso_date ;;
  createdAt_ <~ value_or_now (prop blog "createdAt") toISOString ;;
  updatedAt_ <~ newDate ;;
  ret [ or_value (prop blog "id") (VStr "");
        or_value (prop blog "title") (VStr "");
        or_value (prop blog "excerpt") (VStr "");
        or_value (prop blog "content") (VStr "");
        or_value (prop blog "blogURL") (VStr "");
        or_value (prop blog "authorName") (VStr "");
        or_value (prop blog "authorBio") (VStr "");
        or_value (prop blog "authorAvatar") (VStr "");
        match prop blog "tags" with
        | VArr l => VStr (join ", " l)
        | v => or_value v (VStr "")
        end;
        or_value (prop blog "image") (VStr "");
        or_value (prop blog "readTime") (VStr "");
        VStr (if truthy (prop blog "featured") then "true" else "false");
        or_value (prop blog "status") (VStr "draft");
        or_value (prop blog "category") (VStr "");
        date_;
        createdAt_;
        VStr (toISOString updatedAt_) ].

(** [idToRowIndex.get(blog.id?.toString())] *)
Definition rowIndexOf (m : gmap string nat) (blog : BlogJson) : option nat :=
  match idString blog with
  | Some key => m !! key
  | None => None
  end.

(** The [blogs.forEach] that fills [updates] and [appends]. *)
Fixpoint prepare (m : gmap string nat) (blogs : list BlogJson)
    (updates : list (nat * list value)) (appends : list (list value))
    : M (list (nat * list value) * list (list value)) :=
  match blogs with
  | [] => ret (updates, appends)
  | blog :: r =>
      values <~ blogValues blog ;;
      match rowIndexOf m blog with
      | Some rowIndex => prepare m r (updates ++ [(rowIndex, values)]) appends
      | None => prepare m r updates (appends ++ [values])
      end
  end.

Definition POST (body : Body) : M Response :=
  try_catch
    (match body with
     | NotJson => throw "Unexpected token"
     | Json None => ret {| status := 400; payload := Failure "Invalid blog data" |}
     | Json (Some blogs) =>
         existingRows <~ valuesGet BlogTab 2 17 ;;
         let m := idToRowIndex existingRows in
         prepared <~ prepare m blogs [] [] ;;
         let updates := fst prepared in
         let appends := snd prepared in
         _ <~ forM_ (fun u => send (ValuesUpdate BlogTab (fst u) [snd u])) updates ;;
         _ <~ (if (0 <? length appends)%nat
               then send (ValuesAppend BlogTab appends)
               else ret tt) ;;
         ret {| status := 200; payload := Saved (length updates) (length appends) |}
     end)
    (fun _ => ret {| status := 500; payload := Failure "Failed to save blog data" |}).

(** The [existingRows.forEach] of [DELETE]: the id cell is compared as
    text, the last matching row wins. *)
Fixpoint findRowToDelete (blogId : string) (existingRows : list (list string))
    (index : nat) (rowToDelete : Z) : Z :=
  match existingRows with
  | [] => rowToDelete
  | row :: r =>
      findRowToDelete blogId r (S index)
        (if bool_decide (row !! 0%nat = Some blogId)
         then Z.of_nat index + 2 else rowToDelete)
  end.

(** [blogId] is [searchParams.get('id')]: [None] when the parameter is
    missing. *)
Definition DELETE (blogId : option string) : M Response :=
  try_catch
    (if negb (truthy_cell blogId)
     then ret {| status := 400; payload := Failure "Blog ID is required" |}
     else
       existingRows <~ valuesGet BlogTab 2 17 ;;
       let rowToDelete := findRowToDelete (or_default blogId "") existingRows 0 (-1) in
       if rowToDelete =? -1
       then ret {| status := 404; payload := Failure "Blog not found" |}
       else
         _ <~ send (DeleteDimension 0 (rowToDelete - 1) rowToDelete) ;;
         ret {| status := 200; payload := Deleted |})
    (fun _ => ret {| status := 500; payload := Failure "Failed to delete blog" |}).

End BlogRoute.

(** ** Vocabulary of the properties *)

Fixpoint string_forall (p : ascii -> bool) (s : string) : bool :=
  match s with
  | EmptyString => true
  | String c r => p c && string_forall p r
  end.

Definition starts_nonws (s : string) : bool :=
  match s with
  | EmptyString => true
  | String c _ => negb (is_ws c)
  end.

Definition no_comma (s : string) : bool :=
  string_forall (fun c => negb (Ascii.eqb c ",")) s.

(** The tags cell written for the tags read from a cell. *)
Definition tagsCell (c : option string) : string :=
  join ", " (if truthy_cell c then map trim (split "," (or_default c "")) else []).

(** [w'] is [w] after some readings of the clock: same store, same service,
    same clock, same requests. *)
Definition later (w w' : World) : Prop :=
  store w' = store w /\ service w' = service w /\ clock w' = clock w
  /\ requests w' = requests w /\ (reads w <= reads w')%nat.

(** A computation that returns normally and at most reads the clock. *)
Definition quiet {A} (m : M A) : Prop :=
  forall w, exists a w', m w = (Return a, w') /\ later w w'.

(** Every reading of the clock prints as a non-empty ISO string with a
    non-empty date part. *)
Definition clock_wf (w : World) : Prop :=
  forall n, toISOString (clock w n) <> "" /\ iso_date (clock w n) <> "".

(** [s] is what [cell || f(new Date())] gives from world [w] on: the cell
    when it is truthy, a reading of the clock otherwise. *)
Definition stamped (w : World) (c : option string) (f : Date -> string) (s : string) : Prop :=
  (truthy_cell c = true /\ c = Some s)
  \/ (truthy_cell c = false /\ exists n, (reads w <= n)%nat /\ s = f (clock w n)).

(** The id [readBlogFromSheet] gives the row at position [index]. *)
Definition rowId (row : list string) (index : nat) : number :=
  let n := Number_cell (row !! 0%nat) in
  if truthy_number n then n else Num (Z.of_nat index + 1).

(** The cells the service returns for written values: every value comes
    back as its text. *)
Definition cellsOf (values : list value) : list string := map value_toString values.

(** Row to record and back to a row ([rowToBlog] then the [values] array
    of [writeBlogToSheet]). *)
Definition roundTrip (row : list string) (index : nat) : M (list string) :=
  blog <~ Blog.rowToBlog row index ;;
  ret (cellsOf (Blog.blogToRow blog)).

(** The record [rowToBlog] builds from a row, given the three strings the
    clock-dependent cells come to. *)
Definition blogOfRow (row : list string) (index : nat) (d c u : string) : Blog.BlogPost :=
  {| Blog.id := rowId row index;
     Blog.title := or_default (row !! 1%nat) "";
     Blog.excerpt := or_default (row !! 2%nat) "";
     Blog.content := or_default (row !! 3%nat) "";
     Blog.blogURL := or_default (row !! 4%nat) "";
     Blog.authorName := or_default (row !! 5%nat) "";
     Blog.authorBio := or_default (row !! 6%nat) "";
     Blog.authorAvatar := or_default (row !! 7%nat) "";
     Blog.tags := if truthy_cell (row !! 8%nat)
                  then map trim (split "," (or_default (row !! 8%nat) ""))
                  else [];
     Blog.image := or_default (row !! 9%nat) "";
     Blog.readTime := or_default (row !! 10%nat) "";
     Blog.featured := bool_decide (row !! 11%nat = Some "true");
     Blog.status := or_default (row !! 12%nat) "draft";
     Blog.category := or_default (row !! 13%nat) "";
     Blog.date := d;
     Blog.createdAt := c;
     Blog.updatedAt := u |}.

(** [v] is the [id] property [getAllDrives] gives for the id cell [c], in a
    run that starts in world [w]: the time of a clock reading for an absent
    or empty cell, [parseInt] of the cell otherwise. *)
Definition idFromCell (w : World) (c : option string) (v : option value) : Prop :=
  (truthy_cell c = false
   /\ exists n, (reads w <= n)%nat /\ v = Some (VNum (Num (getTime (clock w n)))))
  \/ (exists s, truthy_cell c = true /\ c = Some s /\ v = Some (VNum (parseInt s))).

(** The world after one reading of the clock. *)
Definition tick (w : World) : World :=
  {| store := store w; service := service w; clock := clock w;
     reads := S (reads w); requests := requests w |}.

(** The world after a mutating request. *)
Definition sent (r : Request) (w : World) : World :=
  {| store := service w r (store w); service := service w; clock := clock w;
     reads := reads w; requests := requests w ++ [r] |}.

(** The current time as [new Date().toISOString()] gives it in [w]. *)
Definition nowISO (w : World) : string := toISOString (clock w (reads w)).

(** The fields the diff of the upsert compares are equal in both records. *)
Definition same_compared_fields (e b : Blog.BlogPost) : Prop :=
  Blog.title e = Blog.title b /\ Blog.excerpt e = Blog.excerpt b
  /\ Blog.content e = Blog.content b /\ Blog.blogURL e = Blog.blogURL b
  /\ Blog.authorName e = Blog.authorName b /\ Blog.authorBio e = Blog.authorBio b
  /\ Blog.authorAvatar e = Blog.authorAvatar b /\ Blog.image e = Blog.image b
  /\ Blog.readTime e = Blog.readTime b /\ Blog.featured e = Blog.featured b
  /\ Blog.status e = Blog.status b /\ Blog.category e = Blog.category b
  /\ Blog.date e = Blog.date b.

(** [b] has the id of [e] and differs from it in the tags only. *)
Definition differs_only_in_tags (e b : Blog.BlogPost) : Prop :=
  Blog.id e = Blog.id b /\ same_compared_fields e b
  /\ Blog.createdAt e = Blog.createdAt b /\ Blog.updatedAt e = Blog.updatedAt b
  /\ Blog.tags e <> Blog.tags b.

(** [b] is [e] with the title changed to [t]. *)
Definition differs_only_in_title (e b : Blog.BlogPost) (t : string) : Prop :=
  Blog.id b = Blog.id e /\ Blog.title b = t /\ Blog.title e <> t
  /\ Blog.excerpt e = Blog.excerpt b
  /\ Blog.content e = Blog.content b /\ Blog.blogURL e = Blog.blogURL b
  /\ Blog.authorName e = Blog.authorName b /\ Blog.authorBio e = Blog.authorBio b
  /\ Blog.authorAvatar e = Blog.authorAvatar b /\ Blog.tags e = Blog.tags b
  /\ Blog.image e = Blog.image b
  /\ Blog.readTime e = Blog.readTime b /\ Blog.featured e = Blog.featured b
  /\ Blog.status e = Blog.status b /\ Blog.category e = Blog.category b
  /\ Blog.date e = Blog.date b /\ Blog.createdAt e = Blog.createdAt b
  /\ Blog.updatedAt e = Blog.updatedAt b.

(** Some data row of the blog sheet has an id cell that reads as [blogId]. *)
Definition blog_id_in_sheet (w : World) (blogId : number) : Prop :=
  exists row, row ∈ drop 1 (blogGrid (store w)) /\ Number_cell (row !! 0%nat) = blogId.

(** Some listed drive has the id [id]. *)
Definition drive_id_listed (allDrives : list Drive.DriveData) (id : string) : Prop :=
  exists drive, drive ∈ allDrives /\ Drive.idString drive = Some id.

(** The titles are equal up to case. *)
Definition same_title_up_to_case (s t : string) : Prop :=
  toLowerCase s = toLowerCase t.

(** The incoming record is new to the upsert: its id is not in the sheet. *)
Definition isNew (ids : gset string) (blog : Blog.BlogPost) : bool :=
  negb (bool_decide (toString (Blog.id blog) ∈ ids)).

(** The incoming record is in the sheet and the diff finds a change. *)
Definition needsUpdate (ids : gset string) (m : gmap string (Blog.BlogPost * nat))
    (blog : Blog.BlogPost) : bool :=
  bool_decide (toString (Blog.id blog) ∈ ids)
  && match m !! toString (Blog.id blog) with
     | Some (existing, _) => Blog.hasBlogChanged existing blog
     | None => false
     end.

(** The request the upsert issues for a changed record. *)
Definition updateRequest (u : Blog.BlogPost * nat) : Request :=
  ValuesUpdate BlogTab (snd u) [Blog.blogToRow (fst u)].

(** The append the upsert issues for the new records, if there are any. *)
Definition appendRequest (newBlogs : list Blog.BlogPost) : list Request :=
  if (0 <? length newBlogs)%nat
  then [ValuesAppend BlogTab (map Blog.blogToRow newBlogs)]
  else [].

(** The readings of the clock that the separating loop of the upsert makes
    for one incoming record: for a new record one for updatedAt, and one
    more before it when the record comes without createdAt; one for a
    changed record; none for an unchanged one. *)
Definition readingsFor (ids : gset string) (m : gmap string (Blog.BlogPost * nat))
    (blog : Blog.BlogPost) : nat :=
  if isNew ids blog then
    if truthy_cell (Some (Blog.createdAt blog)) then 1%nat else 2%nat
  else if needsUpdate ids m blog then 1%nat else 0%nat.

(** The readings made for the records that precede a record in the batch. *)
Fixpoint readingsBefore (ids : gset string) (m : gmap string (Blog.BlogPost * nat))
    (pre : list Blog.BlogPost) : nat :=
  match pre with
  | [] => 0%nat
  | blog :: r => (readingsFor ids m blog + readingsBefore ids m r)%nat
  end.

(** [Number.isSafeInteger(n)]: an integer up to 2^53 - 1 in absolute value.
    A double holds such an integer and its successor exactly, so that on
    safe integers [Math.max(...ids) + 1] is in the code the sum it is
    here. *)
Definition isSafeInteger (n : number) : bool :=
  match n with
  | Num z => (- 9007199254740991 <=? z) && (z <=? 9007199254740991)
  | NaN => false
  end.

(** *** Vocabulary of the further properties *)

(** A header that becomes a property of the drive object: any name but
    [__proto__]. *)
Definition ownKey (header : string) : bool := negb (String.eqb header "__proto__").

(** A record that reads back as itself: truthy id, tags trimmed and free
    of commas and not the single empty tag, non-empty status, date and
    timestamps. *)
Definition readable (blog : Blog.BlogPost) : Prop :=
  truthy_number (Blog.id blog) = true
  /\ Forall (fun t => trim t = t /\ no_comma t = true) (Blog.tags blog)
  /\ Blog.tags blog <> [""]
  /\ Blog.status blog <> "" /\ Blog.date blog <> ""
  /\ Blog.createdAt blog <> "" /\ Blog.updatedAt blog <> "".

(** The events of a session in which the admin panel stores the list it
    announces: a timer tick, a click on a dot, a save of the drives. *)
Inductive SessionEvent :=
  | TimerTick
  | DotClick (index : nat)
  | AdminSave (data : list Drive.DriveData).

Definition sessionEvents (e : SessionEvent) : list Banner.Event :=
  match e with
  | TimerTick => [Banner.Tick]
  | DotClick index => [Banner.Click index]
  | AdminSave data =>
      [Banner.StorageWrite (Some data); Banner.AdminDataUpdate "currentDrives" data]
  end.

(** Every saved drive that the update handler shows has the title,
    location and date that the loader asks for. *)
Definition complete (e : SessionEvent) : bool :=
  match e with
  | AdminSave data => forallb (fun d => implb (Banner.shown d) (Banner.loadable d)) data
  | _ => true
  end.

(** The index points into the list, or the list is empty and the index 0. *)
Definition in_range (st : Banner.State) : Prop :=
  (Banner.currentIndex st < length (Banner.currentDrives st))%nat
  \/ (Banner.currentDrives st = [] /\ Banner.currentIndex st = 0%nat).

(** The list on display is the one the loader gives, and the index is in
    range. *)
Definition settled (st : Banner.State) : Prop :=
  Banner.currentDrives st = Banner.getCurrentDrives (Banner.saved st) /\ in_range st.

(** The object a client has for a listed blog after the JSON round trip of
    the GET response. *)
Definition toJson (blog : Blog.BlogPost) : BlogRoute.BlogJson :=
  list_to_map
    [ ("id", VNum (Blog.id blog)); ("title", VStr (Blog.title blog));
      ("excerpt", VStr (Blog.excerpt blog)); ("content", VStr (Blog.content blog));
      ("blogURL", VStr (Blog.blogURL blog));
      ("authorName", VStr (Blog.authorName blog));
      ("authorBio", VStr (Blog.authorBio blog));
      ("authorAvatar", VStr (Blog.authorAvatar blog));
      ("tags", VArr (Blog.tags blog)); ("image", VStr (Blog.image blog));
      ("readTime", VStr (Blog.readTime blog));
      ("featured", VBool (Blog.featured blog));
      ("status", VStr (Blog.status blog)); ("category", VStr (Blog.category blog));
      ("date", VStr (Blog.date blog)); ("createdAt", VStr (Blog.createdAt blog));
      ("updatedAt", VStr (Blog.updatedAt blog)) ].



(** ** Sample worlds *)

Module Sample.

Definition sampleClock (n : nat) : Date :=
  {| getTime := 1700000000000 + Z.of_nat n;
     toISOString := "2023-11-14T22:13:2" +:+ toString (Num (Z.of_nat n mod 10)) +:+ ".000Z" |}.

(** A service that stores what it is sent: an update replaces the row, an
    append adds rows at the end, a row deletion on sheet 0 removes rows of
    the blog tab. *)
Definition sampleService (r : Request) (s : Store) : Store :=
  match r with
  | ValuesUpdate BlogTab n [values] =>
      {| blogGrid := <[ (n - 1)%nat := cellsOf values ]> (blogGrid s);
         driveGrid := driveGrid s |}
  | ValuesUpdate DriveTab n [values] =>
      {| blogGrid := blogGrid s;
         driveGrid := <[ (n - 1)%nat := cellsOf values ]> (driveGrid s) |}
  | ValuesAppend BlogTab rows =>
      {| blogGrid := blogGrid s ++ map cellsOf rows; driveGrid := driveGrid s |}
  | ValuesAppend DriveTab rows =>
      {| blogGrid := blogGrid s; driveGrid := driveGrid s ++ map cellsOf rows |}
  | DeleteDimension 0 a b =>
      {| blogGrid := take (Z.to_nat a) (blogGrid s) ++ drop (Z.to_nat b) (blogGrid s);
         driveGrid := driveGrid s |}
  | _ => s
  end.

Definition blogHeader : list string :=
  [ "id"; "title"; "excerpt"; "content"; "blogURL"; "authorName"; "authorBio";
    "authorAvatar"; "tags"; "image"; "readTime"; "featured"; "status";
    "category"; "date"; "createdAt"; "updatedAt" ].

Definition driveHeader : list string :=
  [ "id"; "title"; "location"; "date"; "participants"; "treesTarget";
    "status"; "registrationOpen"; "description"; "organizer"; "contactEmail";
    "registrationDeadline"; "meetingPoint"; "duration"; "difficulty"; "logo";
    "createdAt"; "updatedAt" ].

Definition blogRow1 : list string :=
  [ "1"; "A"; "x"; "body"; "https://example.org/a"; "Asha"; "rider"; "a.png";
    "trees,rides"; "cover.png"; "4 min"; "true"; "published"; "news";
    "2024-01-05"; "2024-01-05T10:00:00.000Z"; "2024-01-06T11:30:00.000Z" ].

Definition blogRow2 : list string := [ ""; "Second"; "y" ].

Definition driveRow1 : list string :=
  [ "41"; "Coast ride"; "Goa"; "2025-02-01"; "30"; "200"; "upcoming"; "true";
    "Along the coast"; "Goa Riders"; "goa@example.org"; ""; "Beach gate";
    "2 days"; "Easy"; "logo.png"; "2024-12-01T08:00:00.000Z";
    "2024-12-02T09:00:00.000Z" ].

Definition driveRow2 : list string := [ ""; "Hill ride"; "Pune"; "2025-03-01" ].

Definition world : World :=
  {| store := {| blogGrid := [blogHeader; blogRow1; blogRow2];
                 driveGrid := [driveHeader; driveRow1; driveRow2] |};
     service := sampleService;
     clock := sampleClock;
     reads := 0;
     requests := [] |}.

(** The record stored in row 2, as the list operation reads it. *)
Definition stored1 : Blog.BlogPost :=
  {| Blog.id := Num 1; Blog.title := "A"; Blog.excerpt := "x";
     Blog.content := "body"; Blog.blogURL := "https://example.org/a";
     Blog.authorName := "Asha"; Blog.authorBio := "rider";
     Blog.authorAvatar := "a.png"; Blog.tags := ["trees"; "rides"];
     Blog.image := "cover.png"; Blog.readTime := "4 min";
     Blog.featured := true; Blog.status := "published";
     Blog.category := "news"; Blog.date := "2024-01-05";
     Blog.createdAt := "2024-01-05T10:00:00.000Z";
     Blog.updatedAt := "2024-01-06T11:30:00.000Z" |}.

(** The record read from row 3, whose id and timestamp cells are empty. *)
Definition stored2 : Blog.BlogPost :=
  {| Blog.id := Num 2; Blog.title := "Second"; Blog.excerpt := "y";
     Blog.content := ""; Blog.blogURL := ""; Blog.authorName := "";
     Blog.authorBio := ""; Blog.authorAvatar := ""; Blog.tags := [];
     Blog.image := ""; Blog.readTime := ""; Blog.featured := false;
     Blog.status := "draft"; Blog.category := ""; Blog.date := "2023-11-14";
     Blog.createdAt := "2023-11-14T22:13:21.000Z";
     Blog.updatedAt := "2023-11-14T22:13:22.000Z" |}.

(** Row 3 as the round trip writes it. *)
Definition row2Written : list string :=
  [ "2"; "Second"; "y"; ""; ""; ""; ""; ""; ""; ""; ""; "false"; "draft"; "";
    "2023-11-14"; "2023-11-14T22:13:21.000Z"; "2023-11-14T22:13:22.000Z" ].

(** The same record with other tags. *)
Definition retagged1 : Blog.BlogPost :=
  {| Blog.id := Num 1; Blog.title := "A"; Blog.excerpt := "x";
     Blog.content := "body"; Blog.blogURL := "https://example.org/a";
     Blog.authorName := "Asha"; Blog.authorBio := "rider";
     Blog.authorAvatar := "a.png"; Blog.tags := ["forest"];
     Blog.image := "cover.png"; Blog.readTime := "4 min";
     Blog.featured := true; Blog.status := "published";
     Blog.category := "news"; Blog.date := "2024-01-05";
     Blog.createdAt := "2024-01-05T10:00:00.000Z";
     Blog.updatedAt := "2024-01-06T11:30:00.000Z" |}.

(** The same record with the title changed to "B". *)
Definition retitled1 : Blog.BlogPost :=
  {| Blog.id := Num 1; Blog.title := "B"; Blog.excerpt := "x";
     Blog.content := "body"; Blog.blogURL := "https://example.org/a";
     Blog.authorName := "Asha"; Blog.authorBio := "rider";
     Blog.authorAvatar := "a.png"; Blog.tags := ["trees"; "rides"];
     Blog.image := "cover.png"; Blog.readTime := "4 min";
     Blog.featured := true; Blog.status := "published";
     Blog.category := "news"; Blog.date := "2024-01-05";
     Blog.createdAt := "2024-01-05T10:00:00.000Z";
     Blog.updatedAt := "2024-01-06T11:30:00.000Z" |}.

(** A record whose id is not in the sheet. *)
Definition fresh7 : Blog.BlogPost :=
  {| Blog.id := Num 7; Blog.title := "River clean-up"; Blog.excerpt := "z";
     Blog.content := ""; Blog.blogURL := ""; Blog.authorName := "Ravi";
     Blog.authorBio := ""; Blog.authorAvatar := ""; Blog.tags := ["river"];
     Blog.image := ""; Blog.readTime := "2 min"; Blog.featured := false;
     Blog.status := "draft"; Blog.category := ""; Blog.date := "2020-01-01";
     Blog.createdAt := "2020-01-01T00:00:00.000Z";
     Blog.updatedAt := "2020-01-02T00:00:00.000Z" |}.

(** An argument of [addSingleBlog]. *)
Definition input : Blog.BlogInput :=
  {| Blog.in_title := "River clean-up"; Blog.in_excerpt := "z";
     Blog.in_content := ""; Blog.in_blogURL := ""; Blog.in_authorName := "Ravi";
     Blog.in_authorBio := ""; Blog.in_authorAvatar := ""; Blog.in_tags := ["river"];
     Blog.in_image := ""; Blog.in_readTime := "2 min"; Blog.in_featured := false;
     Blog.in_status := "draft"; Blog.in_category := ""; Blog.in_date := "2020-01-01" |}.

(** The same with the title of the stored record, in upper case. *)
Definition inputSameTitle : Blog.BlogInput :=
  {| Blog.in_title := "SECOND"; Blog.in_excerpt := "z";
     Blog.in_content := ""; Blog.in_blogURL := ""; Blog.in_authorName := "Ravi";
     Blog.in_authorBio := ""; Blog.in_authorAvatar := ""; Blog.in_tags := ["river"];
     Blog.in_image := ""; Blog.in_readTime := "2 min"; Blog.in_featured := false;
     Blog.in_status := "draft"; Blog.in_category := ""; Blog.in_date := "2020-01-01" |}.

(** The sample world with the one data row of the title scenario. *)
Definition oneRowWorld : World :=
  {| store := {| blogGrid := [blogHeader; blogRow1]; driveGrid := [driveHeader] |};
     service := sampleService;
     clock := sampleClock;
     reads := 0;
     requests := [] |}.

(** Modelled from the spec: [lib/driveSheetHeaders.ts] is not among the
    sources; the specification describes its validation as presence checks
    for title, location, date, organizer and contact email. *)
Definition validateRequired (driveData : Drive.DriveData) : option string :=
  if forallb (fun k => truthy (Drive.prop driveData k))
       ["title"; "location"; "date"; "organizer"; "contactEmail"]
  then None
  else Some "Missing required fields".

(** A validation that accepts every object. *)
Definition validateAny (driveData : Drive.DriveData) : option string := None.

(** An argument of [addDrive]: no id, no timestamps. *)
Definition driveInput : Drive.DriveData :=
  list_to_map
    [ ("title", VStr "Lake ride"); ("location", VStr "Udaipur");
      ("date", VStr "2025-04-01"); ("organizer", VStr "Lake Riders");
      ("contactEmail", VStr "lake@example.org") ].


(** Three drives the banner shows, and the third one with its location
    cleared. *)
Definition ride (title location : string) : Drive.DriveData :=
  list_to_map
    [ ("title", VStr title); ("location", VStr location);
      ("date", VStr "2025-05-01"); ("status", VStr "upcoming");
      ("registrationOpen", VBool true) ].

Definition ride1 : Drive.DriveData := ride "Coast ride" "Goa".
Definition ride2 : Drive.DriveData := ride "Hill ride" "Pune".
Definition ride3 : Drive.DriveData := ride "Lake ride" "Udaipur".
Definition ride3NoLocation : Drive.DriveData := ride "Lake ride" "".

(** The banner mounted on three cached drives; a tick; the admin panel
    stores and announces the list with the location of the third drive
    cleared; a tick. *)
Definition bannerTrace : list Banner.Event :=
  [ Banner.Tick;
    Banner.StorageWrite (Some [ride1; ride2; ride3NoLocation]);
    Banner.AdminDataUpdate "currentDrives" [ride1; ride2; ride3NoLocation];
    Banner.Tick ].

(** The world after [n] readings of the clock. *)
Definition after (w : World) (n : nat) : World :=
  {| store := store w; service := service w; clock := clock w;
     reads := (reads w + n)%nat; requests := requests w |}.

(** What the two list operations return in the sample world. *)
Definition blogs : list Blog.BlogPost :=
  match fst (Blog.readBlogFromSheet world) with
  | Return l => l
  | Throw _ => []
  end.

Definition drives : list Drive.DriveData :=
  match fst (Drive.getAllDrives world) with
  | Return l => l
  | Throw _ => []
  end.

(** A partial update without the required fields. *)
Definition partialPatch : Drive.DriveData :=
  list_to_map [ ("participants", VNum (Num 35)) ].



(** A session of the banner: a tick, a save of two drives, a tick, a click
    on the second dot. *)
Definition session : list SessionEvent :=
  [ TimerTick; AdminSave [ride1; ride2]; TimerTick; DotClick 1 ].

End Sample.


(** The reading of "every new record of the upsert gets the id max existing
    + 1 and a fresh creation timestamp": the row appended for an incoming
    record whose id is not in a non-empty sheet starts with that id and
    carries the time of the call as createdAt. *)
Definition upsert_assigns_fresh_id : Prop :=
  forall w existing w1 blog,
    Blog.readBlogFromSheet w = (Return existing, w1) ->
    existing <> [] ->
    toString (Blog.id blog) ∉ Blog.existingIds existing ->
    exists row,
      requests (snd (Blog.writeBlogToSheet [blog] w))
      = requests w ++ [ValuesAppend BlogTab [row]]
      /\ row !! 0%nat = Some (VNum (add_number (Math_max (map Blog.id existing)) 1))
      /\ exists n, (reads w <= n)%nat
                   /\ row !! 15%nat = Some (VStr (toISOString (clock w n))).

(** * Properties *)

(** ** Facts about the primitives *)

Example Number_ex1 : Number " 42 " = Num 42.
Proof. reflexivity. Qed.
Example Number_ex2 : Number "" = Num 0 /\ Number "abc" = NaN /\ Number "-7" = Num (-7) /\ Number "-" = NaN.
Proof. repeat split; reflexivity. Qed.
Example Number_ex3 :
  Number "0x1f" = Num 31 /\ Number " 0B11 " = Num 3 /\ Number "0o17" = Num 15
  /\ Number "0x" = NaN /\ Number "-0x1f" = NaN /\ Number "0x1g" = NaN
  /\ Number "0" = Num 0 /\ Number "007" = Num 7.
Proof. repeat split; reflexivity. Qed.
Example parseInt_ex : parseInt "12abc" = Num 12 /\ parseInt "abc" = NaN /\ parseInt "007" = Num 7.
Proof. repeat split; reflexivity. Qed.
Example parseInt_ex2 :
  parseInt "0x1f" = Num 31 /\ parseInt " -0X1Fz" = Num (-31) /\ parseInt "0x" = NaN
  /\ parseInt "0b11" = Num 0 /\ parseInt "1.5" = Num 1 /\ parseInt "-" = NaN.
Proof. repeat split; reflexivity. Qed.
Example toString_ex : toString (Num 1205) = "1205" /\ toString (Num (-3)) = "-3".
Proof. repeat split; reflexivity. Qed.
Example split_ex : split "," "a, b,,c" = ["a"; " b"; ""; "c"] /\ split "," "" = [""].
Proof. repeat split; reflexivity. Qed.
Example trim_ex : trim "  a b  " = "a b" /\ trim "   " = "".
Proof. repeat split; reflexivity. Qed.
Example join_ex : join ", " ["a"; "b"; "c"] = "a, b, c" /\ join ", " [] = "".
Proof. repeat split; reflexivity. Qed.

Section StringFacts.

Lemma ltrim_starts_nonws s : starts_nonws (ltrim s) = true.
Proof.
  induction s as [|c r IH]; simpl; [done|].
  destruct (is_ws c) eqn:E; [done|]. simpl. by rewrite E.
Qed.

Lemma ltrim_fixed s : starts_nonws s = true -> ltrim s = s.
Proof.
  destruct s as [|c r]; simpl; [done|].
  by destruct (is_ws c).
Qed.

Lemma rtrim_idem s : rtrim (rtrim s) = rtrim s.
Proof.
  induction s as [|c r IH]; simpl; [done|].
  destruct (is_ws c && is_empty (rtrim r)) eqn:E; simpl; [done|].
  by rewrite IH, E.
Qed.

Lemma rtrim_starts_nonws s : starts_nonws s = true -> starts_nonws (rtrim s) = true.
Proof.
  destruct s as [|c r]; simpl; [done|].
  intros Hc. destruct (is_ws c) eqn:E; simpl in *; [done|]. by rewrite E.
Qed.

Lemma trim_starts_nonws s : starts_nonws (trim s) = true.
Proof. apply rtrim_starts_nonws, ltrim_starts_nonws. Qed.

Lemma trim_idem s : trim (trim s) = trim s.
Proof.
  unfold trim at 1.
  rewrite (ltrim_fixed (trim s)) by apply trim_starts_nonws.
  apply rtrim_idem.
Qed.

Lemma trim_after_space s : trim (String " " (trim s)) = trim s.
Proof.
  unfold trim at 1. change (ltrim (String " " (trim s))) with (ltrim (trim s)).
  apply trim_idem.
Qed.

Lemma ltrim_forall p s : string_forall p s = true -> string_forall p (ltrim s) = true.
Proof.
  induction s as [|c r IH]; simpl; [done|].
  intros [Hc Hr]%andb_true_iff.
  destruct (is_ws c); [auto|]. simpl. by rewrite Hc, Hr.
Qed.

Lemma rtrim_forall p s : string_forall p s = true -> string_forall p (rtrim s) = true.
Proof.
  induction s as [|c r IH]; simpl; [done|].
  intros [Hc Hr]%andb_true_iff.
  destruct (is_ws c && is_empty (rtrim r)); [done|].
  simpl. by rewrite Hc, IH.
Qed.

Lemma trim_forall p s : string_forall p s = true -> string_forall p (trim s) = true.
Proof. intros. by apply rtrim_forall, ltrim_forall. Qed.

Lemma rtrim_no_ws s :
  string_forall (fun c => negb (is_ws c)) s = true -> rtrim s = s.
Proof.
  induction s as [|c r IH]; simpl; [done|].
  intros [Hc Hr]%andb_true_iff.
  rewrite IH by done. apply negb_true_iff in Hc. by rewrite Hc.
Qed.

Lemma trim_no_ws s :
  string_forall (fun c => negb (is_ws c)) s = true -> trim s = s.
Proof.
  intros H. unfold trim. rewrite ltrim_fixed.
  - by apply rtrim_no_ws.
  - destruct s; simpl in *; [done|]. by apply andb_true_iff in H as [? _].
Qed.

(** *** [split] and [join] *)

Lemma split_nonempty sep s : split sep s <> [].
Proof.
  destruct s as [|c r]; simpl; [done|].
  destruct (Ascii.eqb c sep); [done|]. by destruct (split sep r).
Qed.

Lemma split_no_comma s : Forall (fun t => no_comma t = true) (split "," s).
Proof.
  induction s as [|c r IH]; simpl.
  - by repeat constructor.
  - destruct (Ascii.eqb c ",") eqn:E.
    + by constructor.
    + destruct (split "," r) as [|h t].
      * constructor; [|done]. unfold no_comma. simpl. by rewrite E.
      * inversion IH; subst. constructor; [|done].
        unfold no_comma in *. simpl. by rewrite E.
Qed.

Lemma split_whole s : no_comma s = true -> split "," s = [s].
Proof.
  induction s as [|c r IH]; simpl; [done|].
  unfold no_comma. simpl. intros [Hc Hr]%andb_true_iff.
  apply negb_true_iff in Hc. rewrite Hc.
  unfold no_comma in IH. by rewrite IH.
Qed.

Lemma split_at_comma t u :
  no_comma t = true -> split "," (t +:+ String "," u) = t :: split "," u.
Proof.
  induction t as [|c r IH]; simpl; [done|].
  unfold no_comma. simpl. intros [Hc Hr]%andb_true_iff.
  apply negb_true_iff in Hc. rewrite Hc.
  unfold no_comma in IH. by rewrite IH.
Qed.

Lemma split_join ts :
  Forall (fun t => no_comma t = true) ts ->
  split "," (join ", " ts) =
    match ts with
    | [] => [""]
    | t :: r => t :: map (String " ") r
    end.
Proof.
  induction ts as [|t r IH]; [done|].
  intros Hts. inversion Hts as [|? ? Ht Hr]; subst.
  destruct r as [|t2 r2].
  - simpl. by apply split_whole.
  - change (join ", " (t :: t2 :: r2))
      with (t +:+ String "," (String " " (join ", " (t2 :: r2)))).
    rewrite split_at_comma by done.
    change (split "," (String " " (join ", " (t2 :: r2))))
      with (match split "," (join ", " (t2 :: r2)) with
            | h :: tl => String " " h :: tl
            | [] => [String " " EmptyString]
            end).
    rewrite IH by done. done.
Qed.

Lemma tagsCell_idem c : tagsCell (Some (tagsCell c)) = tagsCell c.
Proof.
  unfold tagsCell at 1.
  destruct (tagsCell c) as [|a s] eqn:E; [done|].
  simpl truthy_cell. simpl or_default. cbv iota. rewrite <- E. clear a s E.
  unfold tagsCell. destruct (truthy_cell c); [|done].
  set (ts := map trim (split "," (or_default c ""))).
  assert (Hnc : Forall (fun t => no_comma t = true) ts).
  { unfold ts. apply Forall_map. eapply Forall_impl; [apply split_no_comma|].
    intros t Ht. by apply trim_forall. }
  assert (Hfix : Forall (fun t => trim t = t /\ trim (String " " t) = t) ts).
  { unfold ts. apply Forall_map, Forall_forall. intros t _. simpl.
    split; [apply trim_idem | apply trim_after_space]. }
  rewrite split_join by done.
  destruct ts as [|t r] eqn:Ets.
  { exfalso. apply map_eq_nil in Ets. by apply split_nonempty in Ets. }
  f_equal. simpl. inversion Hfix as [|? ? [Ht _] Hr]; subst. rewrite Ht. f_equal.
  clear -Hr. induction Hr as [|x l [_ Hx] _ IH]; simpl; [done|]. by rewrite Hx, IH.
Qed.

End StringFacts.

Section NumberFacts.

Lemma string_forall_impl (p q : ascii -> bool) s :
  (forall c, p c = true -> q c = true) ->
  string_forall p s = true -> string_forall q s = true.
Proof.
  intros Hpq. induction s as [|c r IH]; simpl; [done|].
  intros [Hc Hr]%andb_true_iff. by rewrite (Hpq c Hc), IH.
Qed.

Lemma digit_not_ws c : is_digit c = true -> negb (is_ws c) = true.
Proof. destruct c as [[] [] [] [] [] [] [] []]; vm_compute; congruence. Qed.

Lemma digit_unsigned c r : is_digit c = true -> signed (String c r) = (false, String c r).
Proof. destruct c as [[] [] [] [] [] [] [] []]; vm_compute; congruence. Qed.

Lemma string_of_uint_digits d :
  string_forall is_digit (NilEmpty.string_of_uint d) = true.
Proof. induction d; simpl; by rewrite ?IHd. Qed.

Lemma digits_value_of_uint d :
  d <> Decimal.Nil ->
  digits_value (NilEmpty.string_of_uint d) = Some (Z.of_N (Pos.of_uint d)).
Proof.
  intros Hd. unfold digits_value. rewrite NilEmpty.usu.
  by destruct d.
Qed.

Lemma digits_of_pos p :
  exists c r, NilEmpty.string_of_uint (Pos.to_uint p) = String c r
              /\ is_digit c = true
              /\ string_forall (fun c => negb (is_ws c)) (String c r) = true
              /\ digits_value (String c r) = Some (Zpos p)
              /\ string_forall is_digit (String c r) = true.
Proof.
  pose proof (DecimalPos.Unsigned.to_uint_nonnil p) as Hnil.
  pose proof (string_of_uint_digits (Pos.to_uint p)) as Hdig.
  pose proof (digits_value_of_uint _ Hnil) as Hval.
  rewrite DecimalPos.Unsigned.of_to in Hval.
  destruct (NilEmpty.string_of_uint (Pos.to_uint p)) as [|c r] eqn:E.
  { by destruct (Pos.to_uint p). }
  exists c, r. repeat split; [|by eapply string_forall_impl; [apply digit_not_ws|]|done|done].
  simpl in Hdig. by apply andb_true_iff in Hdig as [? _].
Qed.

Lemma digit_no_letter x : is_digit x = true -> radix_letter x = None.
Proof. destruct x as [[] [] [] [] [] [] [] []]; vm_compute; congruence. Qed.

(** A run of decimal digits has no radix prefix. *)
Lemma nonDecimal_digits s : string_forall is_digit s = true -> nonDecimal s = None.
Proof.
  destruct s as [|c [|x r]]; [done| |].
  - by destruct c as [[] [] [] [] [] [] [] []].
  - intros H. cbn [string_forall] in H.
    apply andb_true_iff in H as [_ H]. apply andb_true_iff in H as [Hx _].
    unfold nonDecimal. rewrite (digit_no_letter x Hx).
    by destruct c as [[] [] [] [] [] [] [] []].
Qed.

Lemma hexBody_digits s : string_forall is_digit s = true -> hexBody s = None.
Proof.
  destruct s as [|c [|x r]]; [done| |].
  - by destruct c as [[] [] [] [] [] [] [] []].
  - intros H. cbn [string_forall] in H.
    apply andb_true_iff in H as [_ H]. apply andb_true_iff in H as [Hx _].
    unfold hexBody.
    assert (Ascii.eqb x "x" || Ascii.eqb x "X" = false) as ->
      by (destruct x as [[] [] [] [] [] [] [] []]; vm_compute in Hx |- *; congruence).
    by destruct c as [[] [] [] [] [] [] [] []].
Qed.

(** [Number] reads back what [toString] prints. *)
Lemma Number_toString n : Number (toString n) = n.
Proof.
  destruct n as [|[|p|p]]; [done|done| |].
  - simpl. destruct (digits_of_pos p) as (c & r & -> & Hc & Hws & Hval & Hdig).
    unfold Number. rewrite trim_no_ws by done. simpl is_empty. cbv iota.
    rewrite nonDecimal_digits by done.
    rewrite digit_unsigned by done. cbv beta iota. by rewrite Hval.
  - simpl. destruct (digits_of_pos p) as (c & r & -> & Hc & Hws & Hval & _).
    unfold Number. rewrite trim_no_ws by (simpl in *; done).
    simpl is_empty. cbv iota. change (nonDecimal (String "-" (String c r))) with (@None number).
    simpl signed. cbv beta iota. by rewrite Hval.
Qed.

Lemma span_digits_all s :
  string_forall is_digit s = true -> span_digits s = (s, EmptyString).
Proof.
  induction s as [|c r IH]; simpl; [done|].
  intros [Hc Hr]%andb_true_iff. by rewrite Hc, IH.
Qed.

(** [parseInt] reads back what [toString] prints for an integer. *)
Lemma parseInt_toString z : parseInt (toString (Num z)) = Num z.
Proof.
  destruct z as [|p|p]; [done| |].
  - simpl. destruct (digits_of_pos p) as (c & r & -> & Hc & Hws & Hval & Hdig).
    unfold parseInt. rewrite ltrim_fixed.
    + rewrite digit_unsigned by done. cbv beta iota.
      rewrite hexBody_digits by done.
      rewrite span_digits_all by done. cbn [fst]. by rewrite Hval.
    + simpl in *. by apply andb_true_iff in Hws as [? _].
  - simpl. destruct (digits_of_pos p) as (c & r & -> & Hc & Hws & Hval & Hdig).
    unfold parseInt. cbn [ltrim is_ws]. simpl signed. cbv beta iota.
    rewrite hexBody_digits by done.
    rewrite span_digits_all by done. cbn [fst]. by rewrite Hval.
Qed.

Lemma toString_nonempty n : truthy_cell (Some (toString n)) = true.
Proof.
  destruct n as [|[|p|p]]; try done.
  simpl. by destruct (digits_of_pos p) as (c & r & -> & _).
Qed.

Lemma toString_inj a b : toString a = toString b -> a = b.
Proof. intros H. by rewrite <- (Number_toString a), <- (Number_toString b), H. Qed.

Lemma isSafeInteger_bounds z :
  isSafeInteger (Num z) = true <-> - 9007199254740991 <= z <= 9007199254740991.
Proof.
  unfold isSafeInteger. rewrite andb_true_iff, !Z.leb_le. tauto.
Qed.

Lemma max_number_safe l x :
  isSafeInteger (Num x) = true ->
  Forall (fun n => isSafeInteger n = true) l ->
  exists m, foldl max_number (Num x) l = Num m /\ x <= m
            /\ isSafeInteger (Num m) = true
            /\ Forall (fun n => exists z, n = Num z /\ z <= m) l.
Proof.
  revert x. induction l as [|n l IH]; intros x Hx Hl; simpl.
  - exists x. split; [done|]. split; [lia|]. split; [done|constructor].
  - inversion Hl as [|? ? Hn Hl']; subst. destruct n as [|z]; [discriminate Hn|].
    cbn [max_number].
    destruct (IH (Z.max x z)) as (m & Hm & Hle & Hs & Hall); [|done|].
    { apply isSafeInteger_bounds. apply isSafeInteger_bounds in Hx, Hn. lia. }
    exists m. split; [done|]. split; [lia|]. split; [done|].
    constructor; [exists z; split; [done|lia]|done].
Qed.

(** [Math.max(...l) + 1] on safe integers is above every element of [l] and
    at most 2^53, which a double holds exactly. *)
Lemma Math_max_succ_safe l :
  l <> [] ->
  Forall (fun n => isSafeInteger n = true) l ->
  exists m, add_number (Math_max l) 1 = Num (m + 1)
            /\ m + 1 <= 9007199254740992
            /\ Forall (fun n => exists z, n = Num z /\ z <= m) l.
Proof.
  destruct l as [|n l]; [done|]. intros _ Hl.
  inversion Hl as [|? ? Hn Hl']; subst. destruct n as [|x]; [discriminate Hn|].
  cbn [Math_max].
  destruct (max_number_safe l x Hn Hl') as (m & Hm & Hle & Hs & Hall).
  exists m. rewrite Hm. split; [done|].
  apply isSafeInteger_bounds in Hs. split; [lia|].
  constructor; [by exists x|done].
Qed.

End NumberFacts.

(** ** Reads leave the sheet alone *)

Lemma later_refl w : later w w.
Proof. by repeat split. Qed.

Lemma later_trans w1 w2 w3 : later w1 w2 -> later w2 w3 -> later w1 w3.
Proof.
  intros (?&?&?&?&?) (?&?&?&?&?). repeat split; try congruence. lia.
Qed.

Lemma quiet_ret {A} (a : A) : quiet (ret a).
Proof. intros w. exists a, w. split; [done|apply later_refl]. Qed.

Lemma quiet_bind {A B} (m : M A) (k : A -> M B) :
  quiet m -> (forall a, quiet (k a)) -> quiet (bind m k).
Proof.
  intros Hm Hk w. destruct (Hm w) as (a & w1 & E1 & L1).
  destruct (Hk a w1) as (b & w2 & E2 & L2).
  exists b, w2. unfold bind. rewrite E1. split; [done|by eapply later_trans].
Qed.

Lemma quiet_newDate : quiet newDate.
Proof.
  intros w. eexists _, _. split; [reflexivity|].
  repeat split; simpl. lia.
Qed.

Lemma newDate_run w :
  exists w', newDate w = (Return (clock w (reads w)), w') /\ later w w'
             /\ reads w' = S (reads w).
Proof. eexists. split; [reflexivity|]. split; [|done]. repeat split; simpl; lia. Qed.

Lemma quiet_cell_or_now c f : quiet (cell_or_now c f).
Proof.
  unfold cell_or_now. destruct (truthy_cell c); [apply quiet_ret|].
  apply quiet_bind; [apply quiet_newDate|]. intros; apply quiet_ret.
Qed.

Lemma quiet_valuesGet tab firstRow cols : quiet (valuesGet tab firstRow cols).
Proof. intros w. eexists _, _. split; [reflexivity|apply later_refl]. Qed.

Lemma quiet_mapM_from {A B} (f : A -> nat -> M B) index l :
  (forall x i, quiet (f x i)) -> quiet (mapM_from f index l).
Proof.
  intros Hf. revert index. induction l as [|x r IH]; intros index; simpl.
  - apply quiet_ret.
  - apply quiet_bind; [apply Hf|]. intros y.
    apply quiet_bind; [apply IH|]. intros; apply quiet_ret.
Qed.

(** The [k]-th result of an indexed map is the body run on the [k]-th
    element at index [index + k], in a world that differs from the first
    one by clock readings. *)
Lemma mapM_from_lookup {A B} (f : A -> nat -> M B) index l w ys w' k x :
  (forall x i, quiet (f x i)) ->
  mapM_from f index l w = (Return ys, w') ->
  l !! k = Some x ->
  exists wk y wk', later w wk /\ f x (index + k)%nat wk = (Return y, wk')
                   /\ later wk wk' /\ later wk' w' /\ ys !! k = Some y.
Proof.
  intros Hf. revert index w ys k.
  induction l as [|a r IH]; intros index w ys k Hrun Hk; [done|].
  simpl in Hrun. unfold bind in Hrun.
  destruct (Hf a index w) as (y & w1 & E1 & L1). rewrite E1 in Hrun.
  destruct (quiet_mapM_from f (S index) r Hf w1) as (ys' & w2 & E2 & L2).
  rewrite E2 in Hrun. unfold ret in Hrun. inversion Hrun; subst.
  destruct k as [|k]; simpl in Hk.
  - inversion Hk; subst. exists w, y, w1.
    rewrite Nat.add_0_r. split; [apply later_refl|].
    exact (conj E1 (conj L1 (conj L2 eq_refl))).
  - destruct (IH (S index) w1 ys' k E2 Hk) as (wk & y' & wk' & La & Hrun' & Lb & Lc & Hy).
    exists wk, y', wk'. replace (index + S k)%nat with (S index + k)%nat by lia.
    split; [by eapply later_trans|]. done.
Qed.

Lemma mapM_from_length {A B} (f : A -> nat -> M B) index l w ys w' :
  mapM_from f index l w = (Return ys, w') -> length ys = length l.
Proof.
  revert index w ys. induction l as [|a r IH]; intros index w ys; simpl.
  - unfold ret. intros H. by inversion H.
  - unfold bind. destruct (f a index w) as [[y|e] w1]; [|done].
    destruct (mapM_from f (S index) r w1) as [[ys'|e] w2] eqn:E; [|done].
    unfold ret. intros H. inversion H; subst. simpl. f_equal. by eapply IH.
Qed.

(** ** Reading the blog sheet *)

Section BlogReadFacts.

Import Blog.

Lemma stamped_later w w1 c f s : later w w1 -> stamped w1 c f s -> stamped w c f s.
Proof.
  intros (_ & _ & Hc & _ & Hr) [H|[H (n & Hn & Hs)]]; [by left|right].
  split; [done|]. exists n. split; [lia|]. by rewrite <- Hc.
Qed.

Lemma cell_or_now_run c f w :
  exists s w', cell_or_now c f w = (Return s, w') /\ later w w'
               /\ stamped w c f s /\ (truthy_cell c = true -> w' = w).
Proof.
  unfold cell_or_now. destruct (truthy_cell c) eqn:E.
  - exists (or_default c ""), w. split; [done|]. split; [apply later_refl|].
    split; [|done]. left. split; [done|].
    by destruct c as [[|a r]|].
  - destruct (newDate_run w) as (w' & Hrun & L & _).
    exists (f (clock w (reads w))), w'. unfold bind. rewrite Hrun.
    split; [done|]. split; [done|]. split; [|done].
    right. split; [done|]. by exists (reads w).
Qed.

Lemma rowToBlog_run row index w :
  exists d c u w',
    rowToBlog row index w = (Return (blogOfRow row index d c u), w')
    /\ later w w'
    /\ stamped w (row !! 14%nat) iso_date d
    /\ stamped w (row !! 15%nat) toISOString c
    /\ stamped w (row !! 16%nat) toISOString u
    /\ (truthy_cell (row !! 14%nat) = true -> truthy_cell (row !! 15%nat) = true ->
        truthy_cell (row !! 16%nat) = true -> w' = w).
Proof.
  destruct (cell_or_now_run (row !! 14%nat) iso_date w) as (d & w1 & E1 & L1 & S1 & K1).
  destruct (cell_or_now_run (row !! 15%nat) toISOString w1) as (c & w2 & E2 & L2 & S2 & K2).
  destruct (cell_or_now_run (row !! 16%nat) toISOString w2) as (u & w3 & E3 & L3 & S3 & K3).
  exists d, c, u, w3. unfold rowToBlog, bind. rewrite E1, E2, E3.
  split; [done|].
  split; [eauto using later_trans|].
  split; [done|].
  split; [by eapply stamped_later|].
  split; [eapply stamped_later; [|done]; eauto using later_trans|].
  intros H14 H15 H16. rewrite (K3 H16), (K2 H15), (K1 H14). done.
Qed.

Lemma quiet_rowToBlog row index : quiet (rowToBlog row index).
Proof.
  intros w. destruct (rowToBlog_run row index w) as (d & c & u & w' & E & L & _).
  by eexists _, _.
Qed.

Lemma quiet_readBlogFromSheet : quiet readBlogFromSheet.
Proof.
  apply quiet_bind; [apply quiet_valuesGet|].
  intros rows. apply quiet_mapM_from, quiet_rowToBlog.
Qed.

Lemma rowId_truthy row index : truthy_number (rowId row index) = true.
Proof.
  unfold rowId. destruct (truthy_number (Number_cell (row !! 0%nat))) eqn:E; [done|].
  simpl. apply negb_true_iff, Z.eqb_neq. lia.
Qed.

(** The ids of the records read depend on the rows only. *)
Lemma mapM_rowToBlog_ids rows index w existing w' :
  mapM_from rowToBlog index rows w = (Return existing, w') ->
  map id existing = imap (fun k row => rowId row (index + k)) rows.
Proof.
  revert index w existing. induction rows as [|row r IH]; intros index w existing; simpl.
  - unfold ret. intros H. by inversion H.
  - unfold bind.
    destruct (rowToBlog_run row index w) as (d & c & u & w1 & E & _). rewrite E.
    destruct (mapM_from rowToBlog (S index) r w1) as [[l|e] w2] eqn:E2; [|done].
    unfold ret. intros H. inversion H; subst. simpl.
    rewrite Nat.add_0_r. f_equal. rewrite (IH _ _ _ E2).
    apply imap_ext. intros k x _. simpl. f_equal. lia.
Qed.

Lemma readBlog_ids w existing w' :
  readBlogFromSheet w = (Return existing, w') ->
  exists rows, valuesGet BlogTab 2 17 w = (Return rows, w)
               /\ map id existing = imap (fun k row => rowId row k) rows
               /\ later w w'.
Proof.
  intros H. destruct (quiet_readBlogFromSheet w) as (a & w2 & E & L).
  rewrite E in H. inversion H; subst.
  unfold readBlogFromSheet, bind in E.
  destruct (valuesGet BlogTab 2 17 w) as [[rows|e] w1] eqn:Eg; [|done].
  assert (w1 = w) as -> by (unfold valuesGet in Eg; by inversion Eg).
  exists rows. split; [done|]. split; [|done].
  by rewrite (mapM_rowToBlog_ids _ _ _ _ _ E).
Qed.

End BlogReadFacts.

(** ** The record mapper *)

Section Mapper.

Import Blog.

Lemma or_default_idem c d : or_default (Some (or_default c d)) d = or_default c d.
Proof. destruct c as [[|a r]|]; simpl; by destruct d. Qed.

Lemma stamped_nonempty w c f s :
  (forall n, f (clock w n) <> "") -> stamped w c f s -> truthy_cell (Some s) = true.
Proof.
  intros Hf [[Ht ->]|[_ (n & _ & ->)]]; [done|].
  specialize (Hf n). by destruct (f (clock w n)).
Qed.

Lemma featured_cell_idem (c : option string) :
  bool_decide (Some (if bool_decide (c = Some "true") then "true" else "false") = Some "true")
  = bool_decide (c = Some "true").
Proof. by destruct (bool_decide (c = Some "true")). Qed.

Lemma rowId_written row index rest :
  rowId (toString (rowId row index) :: rest) index = rowId row index.
Proof.
  unfold rowId at 1. simpl. rewrite Number_toString.
  by rewrite rowId_truthy.
Qed.

#[local] Arguments or_default : simpl never.
#[local] Arguments truthy_cell : simpl never.
#[local] Arguments join : simpl never.
#[local] Arguments rowId : simpl never.

(** The cells written for a record read from a written row: the first
    fourteen are those of the written row. *)
Lemma written_cells row index d c u d' c' u' :
  cellsOf (blogToRow
             (blogOfRow (cellsOf (blogToRow (blogOfRow row index d c u))) index d' c' u'))
  = take 14 (cellsOf (blogToRow (blogOfRow row index d c u))) ++ [d'; c'; u'].
Proof.
  set (r1 := cellsOf (blogToRow (blogOfRow row index d c u))).
  unfold r1 at 2.
  unfold cellsOf, blogToRow, blogOfRow. simpl.
  fold (tagsCell (row !! 8%nat)).
  change (rowId r1 index) with
    (rowId (toString (rowId row index) :: tail r1) index).
  rewrite rowId_written.
  rewrite !or_default_idem, featured_cell_idem.
  fold (tagsCell (Some (tagsCell (row !! 8%nat)))).
  by rewrite tagsCell_idem.
Qed.

Lemma stamped_same w s f s' :
  truthy_cell (Some s) = true -> stamped w (Some s) f s' -> s' = s.
Proof. intros Hs [[_ H]|[H _]]; congruence. Qed.

(** C2. Mapping a row to a record and back to a row is idempotent.  A second
    application returns the first fourteen cells (id, the string cells, the
    comma-joined tags cell, the "true"/"false" cell, status, category)
    unchanged; each of the date, createdAt and updatedAt cells is unchanged
    when it is non-empty and is otherwise a reading of the clock made during
    the second application, so that with a clock that prints non-empty
    strings the whole row is unchanged and no clock is read.  The first
    application keeps every string cell (an absent one becomes empty),
    writes the tags cell comma-and-space joined and the featured cell as
    "true" or "false", and replaces a timestamp cell only when it is empty,
    by a reading of the clock made during the call. *)
Theorem roundTrip_idempotent row index w r1 w1 :
  roundTrip row index w = (Return r1, w1) ->
  (exists d c u d' c' u' w2,
     r1 = take 14 r1 ++ [d; c; u]
     /\ roundTrip r1 index w1 = (Return (take 14 r1 ++ [d'; c'; u']), w2)
     /\ stamped w1 (Some d) iso_date d'
     /\ stamped w1 (Some c) toISOString c'
     /\ stamped w1 (Some u) toISOString u')
  /\ (clock_wf w -> roundTrip r1 index w1 = (Return r1, w1))
  /\ r1 !! 8%nat = Some (tagsCell (row !! 8%nat))
  /\ tagsCell (Some (tagsCell (row !! 8%nat))) = tagsCell (row !! 8%nat)
  /\ r1 !! 11%nat = Some (if bool_decide (row !! 11%nat = Some "true") then "true" else "false")
  /\ (forall i : nat, i ∈ [1; 2; 3; 4; 5; 6; 7; 9; 10; 13]%nat ->
      r1 !! i = Some (or_default (row !! i) ""))
  /\ r1 !! 12%nat = Some (or_default (row !! 12%nat) "draft")
  /\ (exists c u, r1 !! 15%nat = Some c /\ r1 !! 16%nat = Some u
                  /\ stamped w (row !! 15%nat) toISOString c
                  /\ stamped w (row !! 16%nat) toISOString u).
Proof.
  intros Hrun. unfold roundTrip, bind in Hrun.
  destruct (rowToBlog_run row index w) as (d & c & u & w' & E & L & Sd & Sc & Su & _).
  rewrite E in Hrun. unfold ret in Hrun.
  assert (Hr1 : r1 = cellsOf (blogToRow (blogOfRow row index d c u))) by congruence.
  assert (Hw1 : w1 = w') by congruence.
  clear Hrun. subst w1. rewrite Hr1. clear Hr1 r1.
  set (r1 := cellsOf (blogToRow (blogOfRow row index d c u))).
  destruct (rowToBlog_run r1 index w')
    as (d' & c' & u' & w2 & E2 & _ & Sd' & Sc' & Su' & K).
  change (r1 !! 14%nat) with (Some d) in Sd', K.
  change (r1 !! 15%nat) with (Some c) in Sc', K.
  change (r1 !! 16%nat) with (Some u) in Su', K.
  assert (Hsecond : roundTrip r1 index w'
                    = (Return (take 14 r1 ++ [d'; c'; u']), w2)).
  { unfold roundTrip, bind. rewrite E2. unfold ret. f_equal. f_equal.
    apply written_cells. }
  split.
  { exists d, c, u, d', c', u', w2. by repeat split. }
  split.
  { intros Hwf.
    assert (Hd : truthy_cell (Some d) = true)
      by (eapply stamped_nonempty; [|exact Sd]; intros n; apply Hwf).
    assert (Hc : truthy_cell (Some c) = true)
      by (eapply stamped_nonempty; [|exact Sc]; intros n; apply Hwf).
    assert (Hu : truthy_cell (Some u) = true)
      by (eapply stamped_nonempty; [|exact Su]; intros n; apply Hwf).
    rewrite Hsecond.
    rewrite (stamped_same _ _ _ _ Hd Sd'), (stamped_same _ _ _ _ Hc Sc'),
      (stamped_same _ _ _ _ Hu Su').
    by rewrite (K Hd Hc Hu). }
  split; [done|]. split; [apply tagsCell_idem|]. split; [done|].
  split.
  { intros i Hi. repeat (apply elem_of_cons in Hi as [->|Hi]; [done|]).
    by apply elem_of_nil in Hi. }
  split; [done|]. by exists c, u.
Qed.

End Mapper.

(** ** Reading the drives sheet *)

Section DriveReadFacts.

Import Drive.

Lemma quiet_convertCell header cell : quiet (convertCell header cell).
Proof.
  unfold convertCell.
  destruct (String.eqb header "participants" || String.eqb header "treesTarget");
    [apply quiet_ret|].
  destruct (String.eqb header "registrationOpen"); [apply quiet_ret|].
  destruct (String.eqb header "id"); [|apply quiet_ret].
  destruct (is_empty cell); [|apply quiet_ret].
  apply quiet_bind; [apply quiet_newDate|]. intros; apply quiet_ret.
Qed.

Lemma convertCell_id c w :
  exists v w', convertCell "id" (or_default c "") w = (Return v, w')
               /\ later w w' /\ idFromCell w c (Some v).
Proof.
  unfold convertCell. simpl.
  destruct c as [[|a r]|]; simpl.
  - destruct (newDate_run w) as (w' & E & L & _). unfold bind. rewrite E.
    eexists _, _. split; [done|]. split; [done|]. left. split; [done|].
    exists (reads w). by split.
  - eexists _, _. split; [done|]. split; [apply later_refl|]. right.
    by exists (String a r).
  - destruct (newDate_run w) as (w' & E & L & _). unfold bind. rewrite E.
    eexists _, _. split; [done|]. split; [done|]. left. split; [done|].
    exists (reads w). by split.
Qed.

Lemma idFromCell_later w w1 c v : later w w1 -> idFromCell w1 c v -> idFromCell w c v.
Proof.
  intros (_ & _ & Hc & _ & Hr) [[Ht (n & Hn & ->)]|H]; [left|by right].
  split; [done|]. exists n. split; [lia|]. by rewrite Hc.
Qed.

Lemma assign_other (drive : DriveData) header v key :
  key <> header -> assign drive header v !! key = drive !! key.
Proof.
  intros Hne. unfold assign. destruct (String.eqb header "__proto__"); [done|].
  by apply lookup_insert_ne.
Qed.

Lemma assign_named (drive : DriveData) header v :
  header <> "__proto__" -> assign drive header v !! header = Some v.
Proof.
  intros Hne. unfold assign. apply String.eqb_neq in Hne as ->.
  apply lookup_insert_eq.
Qed.

Lemma fillDrive_run row headers :
  forall index acc w,
  exists drive w',
    fillDrive row headers index acc w = (Return drive, w')
    /\ later w w'
    /\ (forall key, key ∉ headers -> drive !! key = acc !! key)
    /\ (forall k, headers !! k = Some "id" -> "id" ∉ drop (S k) headers ->
        idFromCell w (row !! (index + k)%nat) (drive !! "id")).
Proof.
  induction headers as [|h r IH]; intros index acc w.
  - exists acc, w. split; [done|]. split; [apply later_refl|]. by split.
  - simpl. unfold bind.
    destruct (quiet_convertCell h (or_default (row !! index) "") w) as (v & w1 & E1 & L1).
    rewrite E1.
    destruct (IH (S index) (assign acc h v) w1) as (drive & w2 & E2 & L2 & Hother & Hid).
    exists drive, w2. split; [done|]. split; [by eapply later_trans|]. split.
    + intros key Hkey. apply not_elem_of_cons in Hkey as [Hne Hr].
      rewrite (Hother key Hr). by apply assign_other.
    + intros [|k] Hk Hlast; simpl in Hk, Hlast.
      * inversion Hk; subst h. rewrite drop_0 in Hlast.
        rewrite (Hother "id" Hlast), assign_named, Nat.add_0_r by done.
        destruct (convertCell_id (row !! index) w) as (v' & w' & E' & _ & Hv).
        rewrite E1 in E'. inversion E'; subst. done.
      * replace (index + S k)%nat with (S index + k)%nat by lia.
        eapply idFromCell_later; [exact L1|]. by apply Hid.
Qed.

Lemma quiet_fillDrive row headers index acc : quiet (fillDrive row headers index acc).
Proof.
  intros w. destruct (fillDrive_run row headers index acc w) as (d & w' & E & L & _).
  by eexists _, _.
Qed.

Lemma getAllDrives_run w headers dataRows w0 :
  valuesGet DriveTab 1 18 w = (Return (headers :: dataRows), w0) ->
  dataRows <> [] ->
  getAllDrives w = mapM_from (fun row _ => fillDrive row headers 0 ∅) 0 dataRows w.
Proof.
  intros Hget Hne. unfold getAllDrives, bind. rewrite Hget.
  assert (w0 = w) as -> by (unfold valuesGet in Hget; by inversion Hget).
  destruct dataRows; [done|]. done.
Qed.

Lemma quiet_getAllDrives : quiet getAllDrives.
Proof.
  apply quiet_bind; [apply quiet_valuesGet|]. intros rows.
  destruct (length rows <=? 1)%nat; [apply quiet_ret|].
  destruct rows; [apply quiet_ret|].
  apply quiet_mapM_from. intros; apply quiet_fillDrive.
Qed.

End DriveReadFacts.

(** ** The list operation *)

Section Listing.

Import Blog Drive.

Lemma falsy_cell_number c : truthy_cell c = false -> truthy_number (Number_cell c) = false.
Proof. by destruct c as [[|a r]|]. Qed.




End Listing.

(** ** The upsert *)

Section Upsert.

Import Blog.

Lemma newDate_tick w : newDate w = (Return (clock w (reads w)), tick w).
Proof. reflexivity. Qed.

Lemma send_sent r w : send r w = (Return tt, sent r w).
Proof. reflexivity. Qed.

Lemma later_tick w : later w (tick w).
Proof. repeat split; simpl; lia. Qed.

Lemma or_empty_string_eq s t :
  strict_eq (or_empty (VStr s)) (or_empty (VStr t)) = String.eqb s t.
Proof. by destruct s, t. Qed.

Lemma or_empty_bool_eq a b :
  strict_eq (or_empty (VBool a)) (or_empty (VBool b)) = Bool.eqb a b.
Proof. by destruct a, b. Qed.

Lemma hasBlogChanged_eq e b :
  hasBlogChanged e b =
    negb (String.eqb (title e) (title b)) || negb (String.eqb (excerpt e) (excerpt b))
    || negb (String.eqb (content e) (content b)) || negb (String.eqb (blogURL e) (blogURL b))
    || negb (String.eqb (authorName e) (authorName b))
    || negb (String.eqb (authorBio e) (authorBio b))
    || negb (String.eqb (authorAvatar e) (authorAvatar b))
    || negb (String.eqb (image e) (image b)) || negb (String.eqb (readTime e) (readTime b))
    || negb (Bool.eqb (featured e) (featured b))
    || negb (String.eqb (status e) (status b)) || negb (String.eqb (category e) (category b))
    || negb (String.eqb (date e) (date b)).
Proof.
  unfold hasBlogChanged, fieldsToCompare. cbn [existsb].
  change (get_field ?x "title") with (VStr (title x)).
  change (get_field ?x "excerpt") with (VStr (excerpt x)).
  change (get_field ?x "content") with (VStr (content x)).
  change (get_field ?x "blogURL") with (VStr (blogURL x)).
  change (get_field ?x "authorName") with (VStr (authorName x)).
  change (get_field ?x "authorBio") with (VStr (authorBio x)).
  change (get_field ?x "authorAvatar") with (VStr (authorAvatar x)).
  change (get_field ?x "image") with (VStr (image x)).
  change (get_field ?x "readTime") with (VStr (readTime x)).
  change (get_field ?x "featured") with (VBool (featured x)).
  change (get_field ?x "status") with (VStr (status x)).
  change (get_field ?x "category") with (VStr (category x)).
  change (get_field ?x "date") with (VStr (date x)).
  cbn [String.eqb Ascii.eqb Bool.eqb].
  rewrite !or_empty_string_eq, or_empty_bool_eq.
  by rewrite !orb_assoc, orb_false_r.
Qed.

Lemma hasBlogChanged_same e b : same_compared_fields e b -> hasBlogChanged e b = false.
Proof.
  intros (H1&H2&H3&H4&H5&H6&H7&H8&H9&H10&H11&H12&H13).
  rewrite hasBlogChanged_eq, H1, H2, H3, H4, H5, H6, H7, H8, H9, H10, H11, H12, H13.
  rewrite !String.eqb_refl, eqb_reflx. done.
Qed.

Lemma hasBlogChanged_title e b : title e <> title b -> hasBlogChanged e b = true.
Proof.
  intros H. rewrite hasBlogChanged_eq.
  apply String.eqb_neq in H. rewrite H. done.
Qed.

Lemma existingBlogMap_from_dom l : forall index m k x,
  existingBlogMap_from index l m !! k = Some x ->
  m !! k = Some x \/ k ∈ map (fun blog => toString (id blog)) l.
Proof.
  induction l as [|b r IH]; intros index m k x H; simpl in H; [by left|].
  apply IH in H as [H|H].
  - destruct (decide (toString (id b) = k)) as [<-|Hne].
    + right. simpl. apply elem_of_cons. by left.
    + left. by rewrite lookup_insert_ne in H.
  - right. simpl. apply elem_of_cons. by right.
Qed.

Lemma existingBlogMap_dom l k x :
  existingBlogMap l !! k = Some x -> k ∈ existingIds l.
Proof.
  intros H. apply existingBlogMap_from_dom in H as [H|H]; [done|].
  unfold existingIds. by apply elem_of_list_to_set.
Qed.

Lemma separate_unchanged ids m b r nb ub w e ri :
  toString (id b) ∈ ids ->
  m !! toString (id b) = Some (e, ri) ->
  hasBlogChanged e b = false ->
  separate ids m (b :: r) nb ub w = separate ids m r nb ub w.
Proof.
  intros Hin Hm Hc. simpl. rewrite (bool_decide_eq_true_2 _ Hin), Hm, Hc. done.
Qed.

Lemma separate_changed ids m b r nb ub w e ri :
  toString (id b) ∈ ids ->
  m !! toString (id b) = Some (e, ri) ->
  hasBlogChanged e b = true ->
  separate ids m (b :: r) nb ub w
  = separate ids m r nb (ub ++ [(with_updatedAt b (nowISO w), ri)]) (tick w).
Proof.
  intros Hin Hm Hc. simpl. rewrite (bool_decide_eq_true_2 _ Hin), Hm, Hc. done.
Qed.

Lemma separate_new ids m b r nb ub w :
  toString (id b) ∉ ids ->
  separate ids m (b :: r) nb ub w
  = if truthy_cell (Some (createdAt b))
    then separate ids m r (nb ++ [with_stamps b (createdAt b) (nowISO w)]) ub (tick w)
    else separate ids m r
           (nb ++ [with_stamps b (nowISO w) (nowISO (tick w))]) ub (tick (tick w)).
Proof.
  intros Hin. simpl. rewrite (bool_decide_eq_false_2 _ Hin).
  unfold cell_or_now, bind. by destruct (createdAt b).
Qed.

End Upsert.

Section UpsertBatches.

Import Blog.

(** C1. A batch made of one record whose id exists in the sheet with all
    compared fields equal to the stored record's, and of one record whose id
    is not in the sheet, in either order, is answered with updated = 0 and
    added = 1; the only request issued is one append, of the one row of the
    new record. *)
Theorem upsert_unmodified_and_new w existing w1 b1 e ri b2 batch :
  readBlogFromSheet w = (Return existing, w1) ->
  existingBlogMap existing !! toString (id b1) = Some (e, ri) ->
  same_compared_fields e b1 ->
  toString (id b2) ∉ existingIds existing ->
  batch = [b1; b2] \/ batch = [b2; b1] ->
  exists c u w',
    writeBlogToSheet batch w
    = (Return {| success := true; updated := 0; added := 1 |}, w')
    /\ requests w' = requests w ++ [ValuesAppend BlogTab [blogToRow (with_stamps b2 c u)]].
Proof.
  intros Hread Hm Hsame Hnew Hbatch.
  pose proof (existingBlogMap_dom _ _ _ Hm) as Hin.
  pose proof (hasBlogChanged_same _ _ Hsame) as Hc.
  destruct (quiet_readBlogFromSheet w) as (a & w1' & E & L).
  rewrite E in Hread. inversion Hread; subst a w1'. clear Hread.
  destruct L as (_ & _ & _ & Hreq & _).
  unfold writeBlogToSheet, bind. rewrite E.
  destruct Hbatch as [-> | ->].
  - rewrite (separate_unchanged _ _ _ _ _ _ _ _ _ Hin Hm Hc).
    rewrite (separate_new _ _ _ _ _ _ _ Hnew).
    destruct (truthy_cell (Some (createdAt b2))); simpl; eexists _, _, _;
      (split; [reflexivity|]); simpl; by rewrite Hreq.
  - rewrite (separate_new _ _ _ _ _ _ _ Hnew).
    destruct (truthy_cell (Some (createdAt b2)));
      rewrite (separate_unchanged _ _ _ _ _ _ _ _ _ Hin Hm Hc);
      simpl; eexists _, _, _; (split; [reflexivity|]); simpl; by rewrite Hreq.
Qed.

Lemma separate_skip ids m b e ri post :
  toString (id b) ∈ ids ->
  m !! toString (id b) = Some (e, ri) ->
  hasBlogChanged e b = false ->
  forall pre nb ub w,
    separate ids m (pre ++ b :: post) nb ub w = separate ids m (pre ++ post) nb ub w.
Proof.
  intros Hin Hm Hc. induction pre as [|a pre IH]; intros nb ub w.
  - simpl app. by eapply separate_unchanged.
  - simpl. destruct (bool_decide (toString (id a) ∈ ids)).
    + destruct (m !! toString (id a)) as [[ea ria]|]; [|apply IH].
      destruct (hasBlogChanged ea a); [|apply IH].
      unfold bind. rewrite newDate_tick. apply IH.
    + unfold bind. destruct (cell_or_now (Some (createdAt a)) toISOString w) as [[c|err] w1];
        [|done].
      rewrite newDate_tick. apply IH.
Qed.

(** C9. An incoming record that has the id of a stored record and differs
    from it in the tags only is treated as unchanged: wherever it stands in
    the batch, the upsert does what it does on the batch without it, and on
    its own it is answered with updated = 0 and added = 0 and no request. *)
Theorem upsert_ignores_tags w existing w1 b e ri pre post :
  readBlogFromSheet w = (Return existing, w1) ->
  existingBlogMap existing !! toString (id b) = Some (e, ri) ->
  differs_only_in_tags e b ->
  writeBlogToSheet (pre ++ b :: post) w = writeBlogToSheet (pre ++ post) w
  /\ writeBlogToSheet [b] w
     = (Return {| success := true; updated := 0; added := 0 |}, w1)
  /\ requests w1 = requests w /\ store w1 = store w.
Proof.
  intros Hread Hm (_ & Hsame & _).
  pose proof (existingBlogMap_dom _ _ _ Hm) as Hin.
  pose proof (hasBlogChanged_same _ _ Hsame) as Hc.
  destruct (quiet_readBlogFromSheet w) as (a & w1' & E & L).
  rewrite E in Hread. inversion Hread; subst a w1'. clear Hread.
  destruct L as (Hst & _ & _ & Hreq & _).
  split; [|split; [|done]].
  - unfold writeBlogToSheet, bind. rewrite E.
    by rewrite (separate_skip _ _ _ _ _ post Hin Hm Hc pre).
  - unfold writeBlogToSheet, bind. rewrite E.
    by rewrite (separate_unchanged _ _ _ _ _ _ _ _ _ Hin Hm Hc).
Qed.

End UpsertBatches.

Section TitleChange.

Import Blog.

Lemma readBlog_single w row stored w1 :
  valuesGet BlogTab 2 17 w = (Return [row], w) ->
  readBlogFromSheet w = (Return [stored], w1) ->
  exists d c u, stored = blogOfRow row 0 d c u.
Proof.
  intros Hget Hread. unfold readBlogFromSheet, bind in Hread. rewrite Hget in Hread.
  simpl in Hread. unfold bind in Hread.
  destruct (rowToBlog_run row 0 w) as (d & c & u & w' & E & _).
  rewrite E in Hread. unfold ret in Hread. inversion Hread. by exists d, c, u.
Qed.

(** C6. With the single data row ["1"; "A"; "x"; ...] in the sheet and an
    incoming record that is the stored one with the title changed to "B",
    the upsert issues exactly one request, the update of row 2, and no
    append.  In the written row the title is "B", updatedAt is the current
    time, which is a change whenever the clock does not show the stored
    updatedAt, and createdAt and every other cell are those of the stored
    record. *)
Theorem title_change_single_update w rest stored w1 incoming :
  valuesGet BlogTab 2 17 w = (Return ["1" :: "A" :: "x" :: rest], w) ->
  readBlogFromSheet w = (Return [stored], w1) ->
  differs_only_in_title stored incoming "B" ->
  nowISO w1 <> updatedAt stored ->
  exists w' written,
    writeBlogToSheet [incoming] w
    = (Return {| success := true; updated := 1; added := 0 |}, w')
    /\ requests w' = requests w ++ [ValuesUpdate BlogTab 2 [written]]
    /\ id stored = Num 1 /\ title stored = "A" /\ excerpt stored = "x"
    /\ written = blogToRow (with_updatedAt incoming (nowISO w1))
    /\ written !! 1%nat = Some (VStr "B")
    /\ written !! 16%nat = Some (VStr (nowISO w1))
    /\ written !! 16%nat <> blogToRow stored !! 16%nat
    /\ written !! 15%nat = Some (VStr (createdAt stored))
    /\ (forall i : nat, i <> 1%nat -> i <> 16%nat ->
        written !! i = blogToRow stored !! i).
Proof.
  intros Hget Hread Hdiff Hfresh.
  destruct (readBlog_single _ _ _ _ Hget Hread) as (d & c & u & Hstored).
  assert (Hfacts : id stored = Num 1 /\ title stored = "A" /\ excerpt stored = "x")
    by (by rewrite Hstored).
  clear Hstored Hget.
  destruct Hdiff as (Hid & Ht & Hne & H2 & H3 & H4 & H5 & H6 & H7 & H8 & H9 & H10
                     & H11 & H12 & H13 & H14 & H15 & H16).
  assert (Hin : toString (id incoming) ∈ existingIds [stored]).
  { rewrite Hid. unfold existingIds.
    apply elem_of_list_to_set. cbn [map]. apply elem_of_cons. by left. }
  assert (Hm : existingBlogMap [stored] !! toString (id incoming) = Some (stored, 2%nat)).
  { rewrite Hid. unfold existingBlogMap. simpl. apply lookup_insert_eq. }
  assert (Hc : hasBlogChanged stored incoming = true).
  { apply hasBlogChanged_title. by rewrite Ht. }
  destruct (quiet_readBlogFromSheet w) as (a & w1' & E & L).
  rewrite E in Hread. inversion Hread; subst a w1'. clear Hread.
  destruct L as (_ & _ & _ & Hreq & _).
  eexists _, _. split.
  { unfold writeBlogToSheet, bind. rewrite E.
    rewrite (separate_changed _ _ _ _ _ _ _ _ _ Hin Hm Hc). simpl. reflexivity. }
  split; [simpl; by rewrite Hreq|].
  split; [apply Hfacts|]. split; [apply Hfacts|]. split; [apply Hfacts|].
  split; [done|].
  split; [simpl; by rewrite Ht|].
  split; [done|].
  split; [simpl; congruence|].
  split; [simpl; by rewrite H15|].
  intros i Hi1 Hi16. unfold blogToRow, with_updatedAt. simpl.
  rewrite Hid, H2, H3, H4, H5, H6, H7, H8, H9, H10, H11, H12, H13, H14, H15.
  do 17 (destruct i as [|i]; [done|]). done.
Qed.

End TitleChange.

(** ** Failures: delete of an absent id, insert of a duplicate title *)

Section Failures.

Import Blog Drive.

Lemma strict_eq_number_true a b : strict_eq_number a b = true -> a = b.
Proof.
  destruct a as [|x], b as [|y]; simpl; try done.
  intros H. apply Z.eqb_eq in H. by subst.
Qed.

Lemma findRowToDelete_none blogId rows : forall index acc,
  Forall (fun row => strict_eq_number (Number_cell (row !! 0%nat)) blogId = false) rows ->
  findRowToDelete blogId rows index acc = acc.
Proof.
  induction rows as [|row r IH]; intros index acc H; simpl; [done|].
  inversion H as [|? ? Hrow Hr]; subst. rewrite Hrow. by apply IH.
Qed.

Lemma findIndex_from_none {A} (p : A -> bool) l : forall index,
  Forall (fun x => p x = false) l -> findIndex_from p l index = -1.
Proof.
  induction l as [|x r IH]; intros index H; simpl; [done|].
  inversion H as [|? ? Hx Hr]; subst. rewrite Hx. by apply IH.
Qed.

Lemma take_head (row : list string) : take 17 row !! 0%nat = row !! 0%nat.
Proof. by destruct row. Qed.

(** When no id cell of the blog sheet reads as the id (an empty cell reads
    as 0), [deleteBlogFromSheet] throws "Blog not found" and leaves the
    world as it was; when no listed drive has the id, [deleteDrive] throws
    "Drive not found" with the store and the requests as they were. *)
Lemma delete_absent_id w blogId id allDrives w1 :
  ~ blog_id_in_sheet w blogId ->
  getAllDrives w = (Return allDrives, w1) ->
  ~ drive_id_listed allDrives id ->
  deleteBlogFromSheet blogId w = (Throw "Blog not found", w)
  /\ exists w', deleteDrive id w = (Throw "Drive not found", w')
                /\ store w' = store w /\ requests w' = requests w.
Proof.
  intros Hblog Hall Hdrive. split.
  - unfold deleteBlogFromSheet, bind. cbn [valuesGet].
    rewrite findRowToDelete_none; [done|].
    apply Forall_forall. intros row' Hrow'.
    apply list_elem_of_fmap in Hrow' as (row & -> & Hrow).
    rewrite take_head.
    destruct (strict_eq_number (Number_cell (row !! 0%nat)) blogId) eqn:E; [|done].
    exfalso. apply Hblog. exists row. split; [done|].
    by apply strict_eq_number_true.
  - destruct (quiet_getAllDrives w) as (a & w1' & E & L).
    rewrite E in Hall. inversion Hall; subst a w1'. clear Hall.
    destruct L as (Hst & _ & _ & Hreq & _).
    exists w1. unfold deleteDrive, bind. rewrite E.
    unfold findIndex. rewrite findIndex_from_none; [done|].
    apply Forall_forall. intros drive Hd. unfold hasId.
    apply bool_decide_eq_false_2. intros Hid. apply Hdrive. by exists drive.
Qed.

(** C4. Id 0 is the id of no blog of the sample sheet (the list operation
    gives ids 1 and 2), yet [deleteBlogFromSheet] does not fail on it: the
    empty id cell of row 3 reads as 0, the scan takes that row, and the row
    is deleted. *)
Theorem delete_zero_removes_blank_row :
  (Num 0 ∉ map Blog.id Sample.blogs)
  /\ exists w',
       deleteBlogFromSheet (Num 0) Sample.world = (Return true, w')
       /\ requests w' = [DeleteDimension 0 2 3]
       /\ blogGrid (store w') = [Sample.blogHeader; Sample.blogRow1].
Proof.
  split.
  - vm_compute. intros H.
    repeat (apply elem_of_cons in H as [H|H]; [discriminate H|]).
    by apply elem_of_nil in H.
  - exists (sent (DeleteDimension 0 2 3) Sample.world). by repeat split.
Qed.

Lemma find_elem {A} (p : A -> bool) l x :
  x ∈ l -> p x = true -> exists y, find p l = Some y.
Proof.
  induction l as [|a r IH]; intros Hin Hp; [by apply elem_of_nil in Hin|].
  simpl. destruct (p a) eqn:E; [by exists a|].
  apply elem_of_cons in Hin as [->|Hin]; [congruence|]. by apply IH.
Qed.

(** C5. An insert whose title equals, up to case, the title of a blog in
    the sheet returns the failure result (success false, with the message,
    no exception) and issues no request: the store and the requests are as
    they were. *)
Theorem add_duplicate_title w existing w1 blog e :
  readBlogFromSheet w = (Return existing, w1) ->
  e ∈ existing ->
  same_title_up_to_case (title e) (in_title blog) ->
  addSingleBlog blog w
  = (Return {| add_success := false; add_id := None;
               add_message := Some "A blog with this title already exists" |}, w1)
  /\ requests w1 = requests w /\ store w1 = store w.
Proof.
  intros Hread He Hcase.
  destruct (quiet_readBlogFromSheet w) as (a & w1' & E & L).
  rewrite E in Hread. inversion Hread; subst a w1'. clear Hread.
  destruct L as (Hst & _ & _ & Hreq & _).
  split; [|done].
  unfold addSingleBlog, bind. rewrite E.
  destruct (find_elem
              (fun b => String.eqb (toLowerCase (title b)) (toLowerCase (in_title blog)))
              existing e He) as (y & ->); [|done].
  apply String.eqb_eq, Hcase.
Qed.

End Failures.

(** ** Ids and timestamps of written records *)

Section Stamps.

Import Blog Drive.

Lemma hasBlogChanged_differs e b : ~ same_compared_fields e b -> hasBlogChanged e b = true.
Proof.
  intros H. destruct (hasBlogChanged e b) eqn:E; [done|]. exfalso. apply H.
  rewrite hasBlogChanged_eq in E.
  repeat (apply orb_false_iff in E as [E ?]).
  repeat match goal with
         | H : negb _ = false |- _ => apply negb_false_iff in H
         end.
  unfold same_compared_fields.
  repeat match goal with
         | H : String.eqb _ _ = true |- _ => apply String.eqb_eq in H
         | H : Bool.eqb _ _ = true |- _ => apply eqb_prop in H
         end.
  by repeat split.
Qed.

Lemma forM_send {A} (f : A -> Request) l w :
  exists w', forM_ (fun x => send (f x)) l w = (Return tt, w')
             /\ requests w' = requests w ++ map f l
             /\ reads w' = reads w /\ clock w' = clock w.
Proof.
  revert w. induction l as [|x r IH]; intros w; simpl.
  - exists w. by rewrite app_nil_r.
  - unfold bind. rewrite send_sent.
    destruct (IH (sent (f x) w)) as (w' & E & Hreq & Hrd & Hclk).
    exists w'. rewrite E. split; [done|]. rewrite Hreq. simpl.
    by rewrite <- app_assoc.
Qed.

(** What the separating loop adds to its two accumulators. *)
Lemma separate_spec ids m blogs : forall nb ub w,
  exists nb' ub' w',
    separate ids m blogs nb ub w = (Return (nb ++ nb', ub ++ ub'), w')
    /\ later w w'
    /\ Forall2 (fun n b => exists c u, n = with_stamps b c u)
         nb' (List.filter (isNew ids) blogs)
    /\ Forall2 (fun u b => exists t e, fst u = with_updatedAt b t
                                     /\ m !! toString (id b) = Some (e, snd u))
         ub' (List.filter (needsUpdate ids m) blogs).
Proof.
  induction blogs as [|b r IH]; intros nb ub w.
  - exists [], [], w. simpl. rewrite !app_nil_r.
    split; [done|]. split; [apply later_refl|]. by split.
  - simpl. unfold isNew, needsUpdate.
    destruct (bool_decide (toString (id b) ∈ ids)) eqn:Hin; simpl.
    + destruct (m !! toString (id b)) as [[e ri]|] eqn:Hm.
      * destruct (hasBlogChanged e b) eqn:Hc.
        -- unfold bind. rewrite newDate_tick.
           destruct (IH nb (ub ++ [(with_updatedAt b (toISOString (clock w (reads w))), ri)])
                       (tick w)) as (nb' & ub' & w' & E & L & Hn & Hu).
           exists nb', ((with_updatedAt b (toISOString (clock w (reads w))), ri) :: ub'), w'.
           rewrite E, <- app_assoc. split; [done|].
           split; [eapply later_trans; [apply later_tick|done]|].
           split; [done|]. constructor; [|done]. simpl. eauto.
        -- apply IH.
      * apply IH.
    + unfold bind.
      destruct (cell_or_now_run (Some (createdAt b)) toISOString w)
        as (c & w1 & E1 & L1 & _). rewrite E1, newDate_tick.
      destruct (IH (nb ++ [with_stamps b c (toISOString (clock w1 (reads w1)))]) ub
                  (tick w1)) as (nb' & ub' & w' & E & L & Hn & Hu).
      exists (with_stamps b c (toISOString (clock w1 (reads w1))) :: nb'), ub', w'.
      rewrite E, <- app_assoc. split; [done|].
      split; [eapply later_trans; [exact L1|]; eapply later_trans; [apply later_tick|done]|].
      split; [|done]. constructor; [|done]. eauto.
Qed.

(** The new id of [addSingleBlog] on a sheet of safe integer ids is an
    integer up to 2^53 that is above every listed id. *)
Lemma newId_above existing :
  Forall (fun e => isSafeInteger (id e) = true) existing ->
  exists z,
    (if (0 <? length existing)%nat
     then add_number (Math_max (map id existing)) 1 else Num 1) = Num z
    /\ z <= 9007199254740992
    /\ Forall (fun e => exists y, id e = Num y /\ y < z) existing.
Proof.
  intros Hsafe. destruct existing as [|b0 r].
  { exists 1. split; [done|]. split; [lia|constructor]. }
  cbn [length Nat.ltb Nat.leb].
  destruct (Math_max_succ_safe (map id (b0 :: r))) as (m & Hm & Hle & Hall); [done| |].
  { apply Forall_forall. intros n Hn. apply list_elem_of_fmap in Hn as (e & -> & He).
    rewrite Forall_forall in Hsafe. by apply Hsafe. }
  exists (m + 1). split; [done|]. split; [done|].
  apply Forall_forall. intros e He. rewrite Forall_forall in Hall.
  destruct (Hall (id e)) as (y & Hy & Hym); [by apply list_elem_of_fmap_2|].
  exists y. split; [done|lia].
Qed.

(** So its text is not the text of an id of the sheet. *)
Lemma newId_fresh existing :
  Forall (fun e => isSafeInteger (id e) = true) existing ->
  toString (if (0 <? length existing)%nat
            then add_number (Math_max (map id existing)) 1 else Num 1)
  ∉ map (fun blog => toString (id blog)) existing.
Proof.
  intros Hsafe. destruct (newId_above existing Hsafe) as (z & -> & _ & Hall).
  intros Hin. apply list_elem_of_fmap in Hin as (b & Heq & Hb).
  apply toString_inj in Heq. rewrite Forall_forall in Hall.
  destruct (Hall b Hb) as (y & Hy & Hlt). rewrite Hy in Heq. inversion Heq. lia.
Qed.

(** The separating loop on the records that precede a record of the batch:
    what it has added to its accumulators, and how often it has read the
    clock. *)
Lemma separate_prefix ids m pre rest : forall nb ub w,
  exists nb1 ub1 w1,
    separate ids m (pre ++ rest) nb ub w
    = separate ids m rest (nb ++ nb1) (ub ++ ub1) w1
    /\ later w w1
    /\ reads w1 = (reads w + readingsBefore ids m pre)%nat
    /\ length nb1 = length (List.filter (isNew ids) pre)
    /\ length ub1 = length (List.filter (needsUpdate ids m) pre).
Proof.
  induction pre as [|b r IH]; intros nb ub w.
  - exists [], [], w. rewrite !app_nil_r. cbn [app readingsBefore List.filter length].
    split; [done|]. split; [apply later_refl|]. split; [lia|done].
  - cbn [app readingsBefore List.filter]. unfold readingsFor, isNew, needsUpdate.
    destruct (decide (toString (id b) ∈ ids)) as [Hin|Hnew].
    + rewrite (bool_decide_eq_true_2 _ Hin). cbn [negb andb].
      destruct (m !! toString (id b)) as [[e ri]|] eqn:Hm.
      * destruct (hasBlogChanged e b) eqn:Hc.
        -- rewrite (separate_changed _ _ _ _ _ _ _ _ _ Hin Hm Hc).
           destruct (IH nb (ub ++ [(with_updatedAt b (nowISO w), ri)]) (tick w))
             as (nb1 & ub1 & w1 & E & L & Hr & Hn & Hu).
           exists nb1, ((with_updatedAt b (nowISO w), ri) :: ub1), w1.
           rewrite E, <- app_assoc. split; [done|].
           split; [eapply later_trans; [apply later_tick|done]|].
           cbn [length]. simpl in Hr. split; [lia|]. split; [done|]. by rewrite Hu.
        -- rewrite (separate_unchanged _ _ _ _ _ _ _ _ _ Hin Hm Hc).
           destruct (IH nb ub w) as (nb1 & ub1 & w1 & E & L & Hr & Hn & Hu).
           exists nb1, ub1, w1. rewrite E. split; [done|]. split; [done|].
           split; [lia|done].
      * assert (Hstep : separate ids m (b :: r ++ rest) nb ub w
                        = separate ids m (r ++ rest) nb ub w)
          by (simpl; by rewrite (bool_decide_eq_true_2 _ Hin), Hm).
        rewrite Hstep.
        destruct (IH nb ub w) as (nb1 & ub1 & w1 & E & L & Hr & Hn & Hu).
        exists nb1, ub1, w1. rewrite E. split; [done|]. split; [done|].
        split; [lia|done].
    + rewrite (bool_decide_eq_false_2 _ Hnew). cbn [negb andb].
      rewrite (separate_new _ _ _ _ _ _ _ Hnew).
      destruct (truthy_cell (Some (createdAt b))).
      * destruct (IH (nb ++ [with_stamps b (createdAt b) (nowISO w)]) ub (tick w))
          as (nb1 & ub1 & w1 & E & L & Hr & Hn & Hu).
        exists (with_stamps b (createdAt b) (nowISO w) :: nb1), ub1, w1.
        rewrite E, <- app_assoc. split; [done|].
        split; [eapply later_trans; [apply later_tick|done]|].
        cbn [length]. simpl in Hr. split; [lia|]. split; [by rewrite Hn|done].
      * destruct (IH (nb ++ [with_stamps b (nowISO w) (nowISO (tick w))]) ub
                    (tick (tick w))) as (nb1 & ub1 & w1 & E & L & Hr & Hn & Hu).
        exists (with_stamps b (nowISO w) (nowISO (tick w)) :: nb1), ub1, w1.
        rewrite E, <- app_assoc. split; [done|].
        split; [eapply later_trans; [apply later_tick|];
                eapply later_trans; [apply later_tick|done]|].
        cbn [length]. simpl in Hr. split; [lia|]. split; [by rewrite Hn|done].
Qed.

(** The upsert on a batch: the read, the separating loop, one update per
    changed record, then the append. *)
Lemma writeBlogToSheet_run blogs w existing w1 nb ub w2 :
  readBlogFromSheet w = (Return existing, w1) ->
  separate (existingIds existing) (existingBlogMap existing) blogs [] [] w1
  = (Return (nb, ub), w2) ->
  later w1 w2 ->
  exists w',
    writeBlogToSheet blogs w
    = (Return {| success := true; updated := length ub; added := length nb |}, w')
    /\ requests w' = requests w ++ map updateRequest ub ++ appendRequest nb.
Proof.
  intros Hread Hsep L2.
  destruct (quiet_readBlogFromSheet w) as (a & w1' & E & L).
  rewrite E in Hread. inversion Hread; subst a w1'. clear Hread.
  destruct L as (_ & _ & _ & Hreq & _).
  destruct L2 as (_ & _ & _ & Hreq2 & _).
  destruct (forM_send updateRequest ub w2) as (w3 & Ef & Hreq3 & _).
  destruct (0 <? length nb)%nat eqn:Hnb.
  - exists (sent (ValuesAppend BlogTab (map blogToRow nb)) w3). split.
    { unfold writeBlogToSheet, bind. rewrite E, Hsep. cbn [fst snd].
      unfold updateRequest in Ef. rewrite Ef, Hnb, send_sent. reflexivity. }
    unfold appendRequest. rewrite Hnb. simpl.
    rewrite Hreq3, Hreq2, Hreq. by rewrite <- app_assoc.
  - exists w3. split.
    { unfold writeBlogToSheet, bind. rewrite E, Hsep. cbn [fst snd].
      unfold updateRequest in Ef. rewrite Ef, Hnb. reflexivity. }
    unfold appendRequest. rewrite Hnb.
    rewrite Hreq3, Hreq2, Hreq. by rewrite app_nil_r.
Qed.

(** Two reads of the same store list the same ids. *)
Lemma readBlog_ids_stable w existing w1 w2 existing2 w3 :
  readBlogFromSheet w = (Return existing, w1) ->
  store w2 = store w ->
  readBlogFromSheet w2 = (Return existing2, w3) ->
  map id existing2 = map id existing.
Proof.
  intros H1 Hst H2.
  destruct (readBlog_ids _ _ _ H1) as (rows & Hg & -> & _).
  destruct (readBlog_ids _ _ _ H2) as (rows2 & Hg2 & -> & _).
  unfold valuesGet in Hg, Hg2. rewrite Hst in Hg2.
  inversion Hg. inversion Hg2. done.
Qed.

Lemma existingIds_map l l' : map id l = map id l' -> existingIds l = existingIds l'.
Proof.
  intros H. unfold existingIds.
  rewrite <- (map_map id toString l), <- (map_map id toString l'). by rewrite H.
Qed.

Lemma later_after w w' : later w w' -> exists n, reads w' = (reads w + n)%nat.
Proof. intros (_ & _ & _ & _ & H). exists (reads w' - reads w)%nat. lia. Qed.

(** What the upsert does with one record whose id is not in the sheet. *)
Lemma upsert_new_run w existing w1 blog :
  readBlogFromSheet w = (Return existing, w1) ->
  toString (id blog) ∉ existingIds existing ->
  exists w',
    writeBlogToSheet [blog] w
    = (Return {| success := true; updated := 0; added := 1 |}, w')
    /\ requests w'
       = requests w
         ++ [ValuesAppend BlogTab
               [blogToRow
                  (if truthy_cell (Some (createdAt blog))
                   then with_stamps blog (createdAt blog) (nowISO w1)
                   else with_stamps blog (nowISO w1) (nowISO (tick w1)))]].
Proof.
  intros Hread Hnew.
  destruct (quiet_readBlogFromSheet w) as (a & w1' & E & L).
  rewrite E in Hread. inversion Hread; subst a w1'. clear Hread.
  destruct L as (_ & _ & _ & Hreq & _).
  unfold writeBlogToSheet, bind. rewrite E.
  rewrite (separate_new _ _ _ _ _ _ _ Hnew).
  destruct (truthy_cell (Some (createdAt blog))); simpl; eexists;
    (split; [reflexivity|]); simpl; by rewrite Hreq.
Qed.

(** What the upsert does with a record of a batch whose id is not in the
    sheet. *)
Lemma upsert_new_at w existing w1 pre blog post :
  readBlogFromSheet w = (Return existing, w1) ->
  toString (id blog) ∉ existingIds existing ->
  let ids := existingIds existing in
  let m := existingBlogMap existing in
  let n := (reads w1 + readingsBefore ids m pre)%nat in
  let written :=
    if truthy_cell (Some (createdAt blog))
    then with_stamps blog (createdAt blog) (toISOString (clock w n))
    else with_stamps blog (toISOString (clock w n)) (toISOString (clock w (S n))) in
  exists w' updates before after,
    writeBlogToSheet (pre ++ blog :: post) w
    = (Return {| success := true; updated := length updates;
                 added := length before + 1 + length after |}, w')
    /\ requests w'
       = requests w ++ map updateRequest updates
         ++ [ValuesAppend BlogTab (before ++ blogToRow written :: after)]
    /\ length before = length (List.filter (isNew ids) pre).
Proof.
  intros Hread Hnew ids m n written. subst ids m.
  destruct (quiet_readBlogFromSheet w) as (a & w1' & E & L).
  rewrite E in Hread. inversion Hread; subst a w1'. clear Hread.
  destruct L as (_ & _ & Hclk & _ & _).
  destruct (separate_prefix (existingIds existing) (existingBlogMap existing) pre (blog :: post) [] [] w1)
    as (nb1 & ub1 & wp & Ep & Lp & Hr & Hn & Hu).
  cbn [app] in Ep. rewrite (separate_new _ _ _ _ _ _ _ Hnew) in Ep.
  assert (Hnow : nowISO wp = toISOString (clock w n)).
  { unfold nowISO, n. destruct Lp as (_ & _ & Hc & _ & _). by rewrite Hc, Hclk, Hr. }
  assert (Hnext : nowISO (tick wp) = toISOString (clock w (S n))).
  { unfold nowISO, n. destruct Lp as (_ & _ & Hc & _ & _). simpl.
    by rewrite Hc, Hclk, Hr. }
  assert (Hrun : exists nb2 ub2 w2,
             separate (existingIds existing) (existingBlogMap existing)
               (pre ++ blog :: post) [] [] w1
             = (Return (nb1 ++ written :: nb2, ub1 ++ ub2), w2) /\ later w1 w2).
  { rewrite Ep. unfold written. rewrite <- Hnow, <- Hnext.
    destruct (truthy_cell (Some (createdAt blog))).
    - destruct (separate_spec (existingIds existing) (existingBlogMap existing) post
                  (nb1 ++ [with_stamps blog (createdAt blog) (nowISO wp)]) ub1 (tick wp))
        as (nb2 & ub2 & w2 & E2 & L2 & _).
      exists nb2, ub2, w2. rewrite E2, <- app_assoc. split; [done|].
      eapply later_trans; [exact Lp|]. eapply later_trans; [apply later_tick|done].
    - destruct (separate_spec (existingIds existing) (existingBlogMap existing) post
                  (nb1 ++ [with_stamps blog (nowISO wp) (nowISO (tick wp))]) ub1
                  (tick (tick wp))) as (nb2 & ub2 & w2 & E2 & L2 & _).
      exists nb2, ub2, w2. rewrite E2, <- app_assoc. split; [done|].
      eapply later_trans; [exact Lp|]. eapply later_trans; [apply later_tick|].
      eapply later_trans; [apply later_tick|done]. }
  destruct Hrun as (nb2 & ub2 & w2 & Es & L2).
  destruct (writeBlogToSheet_run _ _ _ _ _ _ _ E Es L2) as (w' & Hw & Hreq).
  exists w', (ub1 ++ ub2), (map blogToRow nb1), (map blogToRow nb2).
  split; [|split].
  - rewrite Hw. do 2 f_equal. f_equal.
    rewrite length_app, !length_map. simpl. lia.
  - rewrite Hreq. unfold appendRequest.
    assert ((0 <? length (nb1 ++ written :: nb2))%nat = true) as ->
      by (apply Nat.ltb_lt; rewrite length_app; simpl; lia).
    by rewrite (map_app blogToRow).
  - by rewrite length_map.
Qed.

(** What the upsert does with a record of a batch whose id is in the sheet
    and which the diff finds changed. *)
Lemma upsert_changed_at w existing w1 pre blog post e ri :
  readBlogFromSheet w = (Return existing, w1) ->
  existingBlogMap existing !! toString (id blog) = Some (e, ri) ->
  hasBlogChanged e blog = true ->
  let ids := existingIds existing in
  let m := existingBlogMap existing in
  let n := (reads w1 + readingsBefore ids m pre)%nat in
  let written := with_updatedAt blog (toISOString (clock w n)) in
  exists w' before after appended,
    writeBlogToSheet (pre ++ blog :: post) w
    = (Return {| success := true; updated := length before + 1 + length after;
                 added := length appended |}, w')
    /\ requests w'
       = requests w ++ map updateRequest before
         ++ ValuesUpdate BlogTab ri [blogToRow written] :: map updateRequest after
         ++ appendRequest appended
    /\ length before = length (List.filter (needsUpdate ids m) pre).
Proof.
  intros Hread Hm Hc ids m n written. subst ids m.
  pose proof (existingBlogMap_dom _ _ _ Hm) as Hin.
  destruct (quiet_readBlogFromSheet w) as (a & w1' & E & L).
  rewrite E in Hread. inversion Hread; subst a w1'. clear Hread.
  destruct L as (_ & _ & Hclk & _ & _).
  destruct (separate_prefix (existingIds existing) (existingBlogMap existing) pre (blog :: post) [] [] w1)
    as (nb1 & ub1 & wp & Ep & Lp & Hr & Hn & Hu).
  cbn [app] in Ep. rewrite (separate_changed _ _ _ _ _ _ _ _ _ Hin Hm Hc) in Ep.
  assert (Hnow : nowISO wp = toISOString (clock w n)).
  { unfold nowISO, n. destruct Lp as (_ & _ & Hc' & _ & _). by rewrite Hc', Hclk, Hr. }
  rewrite Hnow in Ep. fold written in Ep.
  destruct (separate_spec (existingIds existing) (existingBlogMap existing) post nb1 (ub1 ++ [(written, ri)]) (tick wp))
    as (nb2 & ub2 & w2 & E2 & L2 & _).
  rewrite E2, <- app_assoc in Ep.
  assert (L12 : later w1 w2).
  { eapply later_trans; [exact Lp|]. eapply later_trans; [apply later_tick|done]. }
  destruct (writeBlogToSheet_run _ _ _ _ _ _ _ E Ep L12) as (w' & Hw & Hreq).
  exists w', ub1, ub2, (nb1 ++ nb2). split; [|split; [|done]].
  - rewrite Hw. do 2 f_equal. f_equal. rewrite length_app. simpl. lia.
  - rewrite Hreq, (map_app updateRequest). cbn [map]. unfold updateRequest at 2.
    cbn [fst snd]. by rewrite <- app_assoc.
Qed.

End Stamps.

Section SingleInserts.

Import Blog Drive.

Lemma find_none_all {A} (p : A -> bool) l :
  (forall x, x ∈ l -> p x = false) -> find p l = None.
Proof.
  induction l as [|a r IH]; intros H; [done|]. simpl.
  rewrite (H a) by (apply elem_of_cons; by left).
  apply IH. intros x Hx. apply H, elem_of_cons. by right.
Qed.

(** On a sheet of safe integer ids, a record the sheet does not have by
    title is appended by [addSingleBlog] with the id max existing + 1 (1 for
    an empty sheet) and with two readings of the clock as createdAt and
    updatedAt. *)
Lemma addSingleBlog_run w existing w1 blog :
  readBlogFromSheet w = (Return existing, w1) ->
  Forall (fun e => isSafeInteger (id e) = true) existing ->
  (forall e, e ∈ existing -> ~ same_title_up_to_case (title e) (in_title blog)) ->
  let newId := if (0 <? length existing)%nat
               then add_number (Math_max (map id existing)) 1 else Num 1 in
  exists w' n m,
    addSingleBlog blog w
    = (Return {| add_success := true; add_id := Some newId; add_message := None |}, w')
    /\ requests w'
       = requests w
         ++ [ValuesAppend BlogTab
               [blogToRow (newBlogOf blog newId (toISOString (clock w n))
                             (toISOString (clock w m)))]]
    /\ (reads w <= n)%nat /\ (n < m)%nat
    /\ toString newId ∉ existingIds existing.
Proof.
  intros Hread Hsafe Htitle newId.
  assert (Hfresh : toString newId ∉ existingIds existing).
  { unfold existingIds. rewrite elem_of_list_to_set. by apply newId_fresh. }
  destruct (quiet_readBlogFromSheet w) as (a & w1' & E & L).
  rewrite E in Hread. inversion Hread; subst a w1'.
  destruct L as (Hst & _ & Hclk & Hreq & Hrd).
  set (nb := newBlogOf blog newId (nowISO w1) (nowISO (tick w1))).
  destruct (quiet_readBlogFromSheet (tick (tick w1))) as (existing2 & w3 & E2 & L2).
  assert (Hids : existingIds existing2 = existingIds existing).
  { apply existingIds_map.
    by eapply (readBlog_ids_stable w existing w1 (tick (tick w1))). }
  assert (Hnew : toString (id nb) ∉ existingIds existing2) by (by rewrite Hids).
  destruct (upsert_new_run _ _ _ nb E2 Hnew) as (w' & Hrun & Hreq').
  destruct L2 as (_ & _ & Hclk3 & _ & Hrd3). simpl in Hclk3, Hrd3.
  assert (Hadd : addSingleBlog blog w
                 = (Return {| add_success := true; add_id := Some newId;
                              add_message := None |}, w')).
  { unfold addSingleBlog, bind. rewrite E.
    rewrite find_none_all.
    - rewrite !newDate_tick. fold newId. fold (nowISO w1). fold (nowISO (tick w1)).
      fold nb. rewrite Hrun. reflexivity.
    - intros x Hx. apply String.eqb_neq. intros Heq. by apply (Htitle x Hx). }
  change (requests (tick (tick w1))) with (requests w1) in Hreq'.
  rewrite Hreq in Hreq'.
  destruct (truthy_cell (Some (createdAt nb))).
  - exists w', (reads w1), (reads w3). split; [done|]. split.
    { rewrite Hreq'. unfold nb, nowISO. simpl. by rewrite Hclk3, Hclk. }
    split; [lia|]. split; [lia|done].
  - exists w', (reads w3), (S (reads w3)). split; [done|]. split.
    { rewrite Hreq'. unfold nb, nowISO. simpl. by rewrite Hclk3, Hclk. }
    split; [lia|]. split; [lia|done].
Qed.

Lemma addDrive_run HEADERS validateDriveSheetData (driveData : DriveData) w :
  validateDriveSheetData driveData = None ->
  exists (newDrive : DriveData) w',
    addDrive HEADERS validateDriveSheetData driveData w = (Return newDrive, w')
    /\ requests w' = requests w ++ [ValuesAppend DriveTab [driveToRow HEADERS newDrive]]
    /\ newDrive !! "id"
       = Some (if truthy (prop driveData "id") then prop driveData "id"
               else VStr (toString (Num (getTime (clock w (S (reads w)))))))
    /\ newDrive !! "createdAt" = Some (VStr (nowISO w))
    /\ newDrive !! "updatedAt" = Some (VStr (nowISO w)).
Proof.
  intros Hv. unfold addDrive, validate, bind. rewrite Hv. cbn [ret].
  rewrite newDate_tick.
  destruct (truthy (prop driveData "id")).
  - eexists _, _. split; [reflexivity|]. split; [reflexivity|].
    split; [|split]; rewrite !lookup_insert_ne by done; by rewrite lookup_insert_eq.
  - eexists _, _. split; [reflexivity|]. split; [reflexivity|].
    split; [|split]; rewrite !lookup_insert_ne by done; by rewrite lookup_insert_eq.
Qed.

End SingleInserts.

Section StampTheorem.

Import Blog Drive.

(** The batch upsert does not assign max existing + 1: a record that comes
    with id 7 into a sheet whose largest id is 2 is appended with id 7. *)
Lemma upsert_assigns_fresh_id_fails : ~ upsert_assigns_fresh_id.
Proof.
  intros H.
  destruct (H Sample.world Sample.blogs _ Sample.fresh7 eq_refl) as (row & Hreq & Hid & _).
  - discriminate.
  - unfold existingIds. rewrite elem_of_list_to_set. vm_compute.
    intros Hin. repeat (apply elem_of_cons in Hin as [Hin|Hin]; [discriminate Hin|]).
    by apply elem_of_nil in Hin.
  - vm_compute in Hreq. inversion Hreq; subst row. vm_compute in Hid. discriminate Hid.
Qed.

(** C3, amended. In a batch of any length the upsert appends every incoming
    record whose id is not in the sheet with the id it came with, with its
    own createdAt when that is non-empty and the current time otherwise, and
    with the current time as updatedAt; it writes every incoming record
    whose id is in the sheet and whose compared fields differ back to its
    row with only updatedAt refreshed.  The current time of a record is the
    reading of the clock that follows the readings made for the records
    before it in the batch.  The id max existing + 1 (1 for an empty sheet)
    and the fresh creation timestamp are given by [addSingleBlog], which
    then appends through the upsert: on a sheet whose ids are safe integers
    the new id is above every listed id.  [addDrive] keeps a truthy id it is
    given and otherwise takes the time of a clock reading, printed, as id;
    createdAt and updatedAt are the time of the call. *)
Theorem written_ids_and_stamps :
  (forall w existing w1 pre blog post,
     readBlogFromSheet w = (Return existing, w1) ->
     toString (id blog) ∉ existingIds existing ->
     let ids := existingIds existing in
     let m := existingBlogMap existing in
     let n := (reads w1 + readingsBefore ids m pre)%nat in
     exists w' updates before after c u,
       writeBlogToSheet (pre ++ blog :: post) w
       = (Return {| success := true; updated := length updates;
                    added := length before + 1 + length after |}, w')
       /\ requests w'
          = requests w ++ map updateRequest updates
            ++ [ValuesAppend BlogTab (before ++ blogToRow (with_stamps blog c u) :: after)]
       /\ length before = length (List.filter (isNew ids) pre)
       /\ blogToRow (with_stamps blog c u) !! 0%nat = Some (VNum (id blog))
       /\ (truthy_cell (Some (createdAt blog)) = true ->
           c = createdAt blog /\ u = toISOString (clock w n))
       /\ (truthy_cell (Some (createdAt blog)) = false ->
           c = toISOString (clock w n) /\ u = toISOString (clock w (S n))))
  /\ (forall w existing w1 pre blog post e ri,
     readBlogFromSheet w = (Return existing, w1) ->
     existingBlogMap existing !! toString (id blog) = Some (e, ri) ->
     ~ same_compared_fields e blog ->
     let ids := existingIds existing in
     let m := existingBlogMap existing in
     let n := (reads w1 + readingsBefore ids m pre)%nat in
     let written := with_updatedAt blog (toISOString (clock w n)) in
     exists w' before after appended,
       writeBlogToSheet (pre ++ blog :: post) w
       = (Return {| success := true; updated := length before + 1 + length after;
                    added := length appended |}, w')
       /\ requests w'
          = requests w ++ map updateRequest before
            ++ ValuesUpdate BlogTab ri [blogToRow written] :: map updateRequest after
            ++ appendRequest appended
       /\ length before = length (List.filter (needsUpdate ids m) pre)
       /\ blogToRow written !! 0%nat = Some (VNum (id blog))
       /\ blogToRow written !! 15%nat = Some (VStr (createdAt blog))
       /\ blogToRow written !! 16%nat = Some (VStr (toISOString (clock w n))))
  /\ (forall w existing w1 blog,
     readBlogFromSheet w = (Return existing, w1) ->
     Forall (fun e => isSafeInteger (id e) = true) existing ->
     (forall e, e ∈ existing -> ~ same_title_up_to_case (title e) (in_title blog)) ->
     let newId := if (0 <? length existing)%nat
                  then add_number (Math_max (map id existing)) 1 else Num 1 in
     exists w' n m z,
       addSingleBlog blog w
       = (Return {| add_success := true; add_id := Some newId; add_message := None |}, w')
       /\ requests w'
          = requests w
            ++ [ValuesAppend BlogTab
                  [blogToRow (newBlogOf blog newId (toISOString (clock w n))
                                (toISOString (clock w m)))]]
       /\ (reads w <= n)%nat /\ (n < m)%nat
       /\ (toString newId ∉ existingIds existing)
       /\ newId = Num z /\ z <= 9007199254740992
       /\ Forall (fun e => exists y, id e = Num y /\ y < z) existing)
  /\ (forall HEADERS validateDriveSheetData (driveData : DriveData) w,
     validateDriveSheetData driveData = None ->
     exists (newDrive : DriveData) w',
       addDrive HEADERS validateDriveSheetData driveData w = (Return newDrive, w')
       /\ requests w' = requests w ++ [ValuesAppend DriveTab [driveToRow HEADERS newDrive]]
       /\ newDrive !! "id"
          = Some (if truthy (prop driveData "id") then prop driveData "id"
                  else VStr (toString (Num (getTime (clock w (S (reads w)))))))
       /\ newDrive !! "createdAt" = Some (VStr (nowISO w))
       /\ newDrive !! "updatedAt" = Some (VStr (nowISO w))).
Proof.
  split; [|split; [|split]].
  - intros w existing w1 pre blog post Hread Hnew ids m n.
    destruct (upsert_new_at _ _ _ pre _ post Hread Hnew)
      as (w' & updates & before & after & Hrun & Hreq & Hlen).
    destruct (truthy_cell (Some (createdAt blog))) eqn:E.
    + exists w', updates, before, after, (createdAt blog), (toISOString (clock w n)).
      by repeat split.
    + exists w', updates, before, after, (toISOString (clock w n)),
        (toISOString (clock w (S n))).
      by repeat split.
  - intros w existing w1 pre blog post e ri Hread Hm Hdiff ids m n written.
    pose proof (hasBlogChanged_differs _ _ Hdiff) as Hc.
    destruct (upsert_changed_at _ _ _ pre _ post _ _ Hread Hm Hc)
      as (w' & before & after & appended & Hrun & Hreq & Hlen).
    exists w', before, after, appended. by repeat split.
  - intros w existing w1 blog Hread Hsafe Htitle newId.
    destruct (addSingleBlog_run w existing w1 blog Hread Hsafe Htitle)
      as (w' & n & m & Hrun & Hreq & Hn & Hm & Hfresh).
    destruct (newId_above existing Hsafe) as (z & Hz & Hle & Habove).
    exists w', n, m, z. by repeat split.
  - intros HEADERS validateDriveSheetData driveData w Hv. by apply addDrive_run.
Qed.

End StampTheorem.

(** ** Updating a drive *)

Section DriveUpdate.

Import Drive.



Lemma driveToRow_lookup HEADERS (drive : DriveData) (i : nat) f :
  HEADERS !! i = Some f ->
  driveToRow HEADERS drive !! i
  = Some (match prop drive f with
          | VUndef => VStr ""
          | v => VStr (value_toString v)
          end).
Proof. intros H. unfold driveToRow. by rewrite list_lookup_fmap, H. Qed.


End DriveUpdate.

(** ** The rotation of the banner *)

Section Rotation.

Import Drive Banner.

(** With the three cached drives on display, a tick moves the index to the
    next one modulo 3 and the list stays. *)
Lemma tick_three st (d1 d2 d3 : DriveData) :
  currentDrives st = [d1; d2; d3] ->
  saved st = Some [d1; d2; d3] ->
  loadable d1 = true -> loadable d2 = true -> loadable d3 = true ->
  currentIndex (step st Tick) = ((currentIndex st + 1) mod 3)%nat
  /\ currentDrives (step st Tick) = [d1; d2; d3].
Proof.
  intros Hl Hs H1 H2 H3. unfold step. rewrite Hl. cbn [length Nat.ltb Nat.leb].
  unfold commit.
  destruct (((currentIndex st + 1) mod 3)%nat =? currentIndex st)%nat; cbn.
  - done.
  - rewrite Hs. cbn. by rewrite H1, H2, H3.
Qed.

(** An update whose list is not longer than the current index puts the
    index back to 0. *)
Lemma update_resets st data :
  (length (List.filter shown data) <= currentIndex st)%nat ->
  currentIndex (step st (AdminDataUpdate "currentDrives" data)) = 0%nat.
Proof.
  intros H. unfold step. cbn [String.eqb Ascii.eqb Bool.eqb].
  apply Nat.leb_le in H. rewrite H. unfold commit.
  by destruct (0 =? currentIndex st)%nat.
Qed.

(** C8. The reload that follows every change of the index can leave the
    index at the length of the list: on the sample trace the banner ends
    with two drives, index 2, and nothing at that index to display. *)
Theorem banner_index_reaches_length :
  let st := run (mount (Some [Sample.ride1; Sample.ride2; Sample.ride3]))
                Sample.bannerTrace in
  length (currentDrives st) = 2%nat
  /\ currentIndex st = 2%nat
  /\ isLoading st = false
  /\ displayed st = Some None.
Proof. vm_compute. done. Qed.

End Rotation.

(** ** The theorems on the sample worlds *)

Section SampleRuns.

Import Blog Drive.

Lemma sample_clock_wf : clock_wf Sample.world.
Proof. intros n. split; discriminate. Qed.

Lemma sample_read :
  readBlogFromSheet Sample.world
  = (Return [Sample.stored1; Sample.stored2], Sample.after Sample.world 3).
Proof. reflexivity. Qed.

Lemma sample_fresh7 :
  toString (id Sample.fresh7) ∉ existingIds [Sample.stored1; Sample.stored2].
Proof.
  unfold existingIds. rewrite elem_of_list_to_set. vm_compute.
  intros Hin. repeat (apply elem_of_cons in Hin as [Hin|Hin]; [discriminate Hin|]).
  by apply elem_of_nil in Hin.
Qed.

Lemma sample_stored1 :
  existingBlogMap [Sample.stored1; Sample.stored2] !! "1" = Some (Sample.stored1, 2%nat).
Proof. reflexivity. Qed.

Lemma roundTrip_idempotent_witness :
  roundTrip Sample.row2Written 1 (Sample.after Sample.world 3)
  = (Return Sample.row2Written, Sample.after Sample.world 3).
Proof.
  exact (proj1 (proj2 (roundTrip_idempotent Sample.blogRow2 1 Sample.world
                         Sample.row2Written (Sample.after Sample.world 3) eq_refl))
           sample_clock_wf).
Defined.

Lemma upsert_unmodified_and_new_witness :
  exists c u w',
    writeBlogToSheet [Sample.stored1; Sample.fresh7] Sample.world
    = (Return {| success := true; updated := 0; added := 1 |}, w')
    /\ requests w'
       = requests Sample.world
         ++ [ValuesAppend BlogTab [blogToRow (with_stamps Sample.fresh7 c u)]].
Proof.
  apply (upsert_unmodified_and_new Sample.world [Sample.stored1; Sample.stored2]
           (Sample.after Sample.world 3) Sample.stored1 Sample.stored1 2%nat
           Sample.fresh7).
  - reflexivity.
  - reflexivity.
  - repeat split.
  - exact sample_fresh7.
  - left. reflexivity.
Defined.

Lemma upsert_ignores_tags_witness :
  writeBlogToSheet [Sample.fresh7; Sample.retagged1] Sample.world
  = writeBlogToSheet [Sample.fresh7] Sample.world.
Proof.
  refine (proj1 (upsert_ignores_tags Sample.world [Sample.stored1; Sample.stored2]
                   (Sample.after Sample.world 3) Sample.retagged1 Sample.stored1
                   2%nat [Sample.fresh7] [] _ _ _)).
  - reflexivity.
  - reflexivity.
  - repeat split. discriminate.
Defined.

Lemma title_change_single_update_witness :
  exists w' written,
    writeBlogToSheet [Sample.retitled1] Sample.oneRowWorld
    = (Return {| success := true; updated := 1; added := 0 |}, w')
    /\ requests w' = [ValuesUpdate BlogTab 2 [written]]
    /\ written !! 1%nat = Some (VStr "B")
    /\ written !! 15%nat = Some (VStr "2024-01-05T10:00:00.000Z")
    /\ written !! 16%nat = Some (VStr "2023-11-14T22:13:20.000Z").
Proof.
  destruct (title_change_single_update Sample.oneRowWorld (drop 3 Sample.blogRow1)
              Sample.stored1 Sample.oneRowWorld Sample.retitled1)
    as (w' & written & Hrun & Hreq & _ & _ & _ & _ & H1 & H16 & _ & H15 & _).
  - reflexivity.
  - reflexivity.
  - repeat split. discriminate.
  - discriminate.
  - exists w', written. repeat split; assumption.
Defined.

Lemma add_duplicate_title_witness :
  addSingleBlog Sample.inputSameTitle Sample.world
  = (Return {| add_success := false; add_id := None;
               add_message := Some "A blog with this title already exists" |},
     Sample.after Sample.world 3).
Proof.
  refine (proj1 (add_duplicate_title Sample.world [Sample.stored1; Sample.stored2]
                   (Sample.after Sample.world 3) Sample.inputSameTitle
                   Sample.stored2 _ _ _)).
  - reflexivity.
  - apply elem_of_cons. right. apply elem_of_cons. left. reflexivity.
  - reflexivity.
Defined.

End SampleRuns.

Section SampleRunsDrive.

Import Blog Drive.

Lemma sample_drives :
  getAllDrives Sample.world = (Return Sample.drives, Sample.after Sample.world 1).
Proof. reflexivity. Qed.

Lemma sample_no_blog_99 : ~ blog_id_in_sheet Sample.world (Num 99).
Proof.
  intros (row & Hin & Hn). simpl in Hin.
  repeat (apply elem_of_cons in Hin as [->|Hin]; [discriminate Hn|]).
  by apply elem_of_nil in Hin.
Qed.

Lemma sample_no_drive_99 : ~ drive_id_listed Sample.drives "99".
Proof.
  intros (drive & Hin & Hid). vm_compute in Hin.
  repeat (apply elem_of_cons in Hin as [->|Hin]; [vm_compute in Hid; discriminate Hid|]).
  by apply elem_of_nil in Hin.
Qed.

Lemma delete_absent_id_witness :
  deleteBlogFromSheet (Num 99) Sample.world = (Throw "Blog not found", Sample.world)
  /\ exists w', deleteDrive "99" Sample.world = (Throw "Drive not found", w')
                /\ store w' = store Sample.world
                /\ requests w' = requests Sample.world.
Proof.
  apply (delete_absent_id Sample.world (Num 99) "99" Sample.drives
           (Sample.after Sample.world 1)).
  - exact sample_no_blog_99.
  - reflexivity.
  - exact sample_no_drive_99.
Defined.

Lemma sample_titles_differ e :
  e ∈ [Sample.stored1; Sample.stored2] ->
  ~ same_title_up_to_case (title e) (in_title Sample.input).
Proof.
  intros He Hs.
  repeat (apply elem_of_cons in He as [->|He]; [discriminate Hs|]).
  by apply elem_of_nil in He.
Qed.

Lemma sample_safe_ids :
  Forall (fun e => isSafeInteger (id e) = true) [Sample.stored1; Sample.stored2].
Proof. by repeat constructor. Qed.

Lemma written_ids_and_stamps_witness :
  (exists w' (updates : list (BlogPost * nat)) (before after : list (list value)) c u,
     writeBlogToSheet [Sample.retitled1; Sample.fresh7] Sample.world
     = (Return {| success := true; updated := length updates;
                  added := length before + 1 + length after |}, w')
     /\ requests w'
        = requests Sample.world ++ map updateRequest updates
          ++ [ValuesAppend BlogTab
                (before ++ blogToRow (with_stamps Sample.fresh7 c u) :: after)]
     /\ c = "2020-01-01T00:00:00.000Z" /\ u = "2023-11-14T22:13:24.000Z")
  /\ (exists w' (before after : list (BlogPost * nat)) (appended : list BlogPost),
     writeBlogToSheet [Sample.retitled1; Sample.fresh7] Sample.world
     = (Return {| success := true; updated := length before + 1 + length after;
                  added := length appended |}, w')
     /\ requests w'
        = requests Sample.world ++ map updateRequest before
          ++ ValuesUpdate BlogTab 2
               [blogToRow (with_updatedAt Sample.retitled1 "2023-11-14T22:13:23.000Z")]
             :: map updateRequest after
          ++ appendRequest appended
     /\ before = [])
  /\ (exists w' n m,
     addSingleBlog Sample.input Sample.world
     = (Return {| add_success := true; add_id := Some (Num 3); add_message := None |}, w')
     /\ (n < m)%nat)
  /\ (exists (newDrive : DriveData) w',
     addDrive Sample.driveHeader Sample.validateRequired Sample.driveInput Sample.world
     = (Return newDrive, w')
     /\ newDrive !! "id" = Some (VStr "1700000000001")).
Proof.
  destruct written_ids_and_stamps as (Ha & Hb & Hc & Hd).
  split; [|split; [|split]].
  - destruct (Ha Sample.world _ _ [Sample.retitled1] Sample.fresh7 [] sample_read
                sample_fresh7)
      as (w' & updates & before & after & c & u & Hrun & Hreq & _ & _ & Hkeep & _).
    exists w', updates, before, after, c, u. split; [exact Hrun|]. split; [exact Hreq|].
    destruct (Hkeep eq_refl) as [Hcr Hup]. split; [exact Hcr|].
    rewrite Hup. vm_compute. reflexivity.
  - destruct (Hb Sample.world _ _ [] Sample.retitled1 [Sample.fresh7] Sample.stored1
                2%nat sample_read sample_stored1)
      as (w' & before & after & appended & Hrun & Hreq & Hlen & _).
    + intros (Ht & _). discriminate Ht.
    + exists w', before, after, appended. split; [exact Hrun|]. split; [exact Hreq|].
      by destruct before.
  - destruct (Hc Sample.world _ _ Sample.input sample_read sample_safe_ids
                sample_titles_differ)
      as (w' & n & m & z & Hrun & _ & _ & Hnm & _).
    exists w', n, m. split; [exact Hrun|exact Hnm].
  - destruct (Hd Sample.driveHeader Sample.validateRequired Sample.driveInput
                Sample.world) as (newDrive & w' & Hrun & _ & Hid & _).
    + reflexivity.
    + exists newDrive, w'. split; [exact Hrun|exact Hid].
Defined.


End SampleRunsDrive.

(** * Further properties of the helpers *)

(** ** The upsert on an arbitrary batch *)

Section UpsertAccounting.

Import Blog.

(** X1. On any batch the upsert returns normally.  The records appended
    are the incoming records whose id is not in the sheet, in order, each
    with only createdAt and updatedAt set; the rows updated are those of the
    incoming records whose id is in the sheet and which the diff finds
    changed, in order, each with only updatedAt set and at the row the id
    map gives.  The requests are one update per changed record followed by
    at most one append, and the counts returned are the numbers of these
    records. *)
Theorem upsert_accounting blogs w existing w1 :
  readBlogFromSheet w = (Return existing, w1) ->
  exists newBlogs updatedBlogs w',
    writeBlogToSheet blogs w
    = (Return {| success := true; updated := length updatedBlogs;
                 added := length newBlogs |}, w')
    /\ requests w' = requests w ++ map updateRequest updatedBlogs ++ appendRequest newBlogs
    /\ Forall2 (fun n b => exists c u, n = with_stamps b c u)
         newBlogs (List.filter (isNew (existingIds existing)) blogs)
    /\ Forall2 (fun u b => exists t e, fst u = with_updatedAt b t
                 /\ existingBlogMap existing !! toString (id b) = Some (e, snd u))
         updatedBlogs
         (List.filter (needsUpdate (existingIds existing) (existingBlogMap existing)) blogs)
    /\ (length updatedBlogs + length newBlogs <= length blogs)%nat.
Proof.
  intros Hread.
  destruct (quiet_readBlogFromSheet w) as (a & w1' & E & L).
  rewrite E in Hread. inversion Hread; subst a w1'. clear Hread.
  destruct L as (_ & _ & _ & Hreq & _).
  destruct (separate_spec (existingIds existing) (existingBlogMap existing) blogs [] [] w1)
    as (nb & ub & w2 & Es & L2 & Hn & Hu).
  destruct L2 as (_ & _ & _ & Hreq2 & _).
  destruct (forM_send updateRequest ub w2) as (w3 & Ef & Hreq3 & _).
  exists nb, ub.
  assert (Hlen : (length ub + length nb <= length blogs)%nat).
  { apply Forall2_length in Hn, Hu. rewrite Hn, Hu. clear.
    induction blogs as [|b r IH]; simpl; [lia|].
    unfold isNew, needsUpdate in *.
    destruct (bool_decide (toString (id b) ∈ existingIds existing)); simpl.
    - destruct (match existingBlogMap existing !! toString (id b) with
                | Some (e, _) => hasBlogChanged e b
                | None => false
                end); simpl; lia.
    - lia. }
  destruct (0 <? length nb)%nat eqn:Hnb.
  - exists (sent (ValuesAppend BlogTab (map blogToRow nb)) w3).
    split.
    { unfold writeBlogToSheet, bind. rewrite E, Es. cbn [fst snd app].
      unfold updateRequest in Ef. rewrite Ef, Hnb, send_sent. reflexivity. }
    split; [|done]. unfold appendRequest. rewrite Hnb. simpl.
    rewrite Hreq3, Hreq2, Hreq. by rewrite <- app_assoc.
  - exists w3. split.
    { unfold writeBlogToSheet, bind. rewrite E, Es. cbn [fst snd app].
      unfold updateRequest in Ef. rewrite Ef, Hnb. reflexivity. }
    split; [|done]. unfold appendRequest. rewrite Hnb.
    rewrite Hreq3, Hreq2, Hreq. by rewrite app_nil_r.
Qed.

End UpsertAccounting.

(** ** The id map of the upsert and the diff *)

Section IdMap.

Import Blog.

Lemma existingBlogMap_from_spec l : forall index m key x,
  existingBlogMap_from index l m !! key = Some x <->
  (exists (i : nat) e, x = (e, (index + i + 2)%nat) /\ l !! i = Some e
      /\ toString (id e) = key
      /\ forall (j : nat) b, (i < j)%nat -> l !! j = Some b -> toString (id b) <> key)
  \/ (m !! key = Some x /\ forall b, b ∈ l -> toString (id b) <> key).
Proof.
  induction l as [|b r IH]; intros index m key x; simpl.
  - split.
    + intros H. right. split; [done|]. intros b Hb. by apply elem_of_nil in Hb.
    + intros [(i & e & _ & Hi & _)|[H _]]; [by rewrite lookup_nil in Hi|done].
  - rewrite IH. split.
    + intros [(i & e & -> & Hi & Hk & Hlast)|[Hm Hnone]].
      * left. exists (S i), e. split; [f_equal; lia|]. split; [done|]. split; [done|].
        intros [|j] b' Hj Hb'; [lia|]. simpl in Hb'. apply (Hlast j); [lia|done].
      * destruct (decide (toString (id b) = key)) as [Heq|Hne].
        -- left. exists 0%nat, b. rewrite Heq, lookup_insert_eq in Hm.
           inversion Hm; subst x. split; [f_equal; lia|]. split; [done|].
           split; [done|]. intros [|j] b' Hj Hb'; [lia|]. simpl in Hb'.
           apply Hnone. by eapply list_elem_of_lookup_2.
        -- right. rewrite lookup_insert_ne in Hm by done. split; [done|].
           intros b' [->|Hb']%elem_of_cons; [done|]. by apply Hnone.
    + intros [(i & e & -> & Hi & Hk & Hlast)|[Hm Hnone]].
      * destruct i as [|i]; simpl in Hi.
        -- inversion Hi; subst e. right. split.
           ++ rewrite Hk, lookup_insert_eq. do 2 f_equal. lia.
           ++ intros b' Hb'. apply list_elem_of_lookup in Hb' as [j Hj].
              apply (Hlast (S j)); [lia|done].
        -- left. exists i, e. split; [f_equal; lia|]. split; [done|]. split; [done|].
           intros j b' Hj Hb'. apply (Hlast (S j)); [lia|done].
      * right. split.
        -- rewrite lookup_insert_ne; [done|]. apply Hnone, elem_of_cons. by left.
        -- intros b' Hb'. apply Hnone, elem_of_cons. by right.
Qed.

Lemma existingBlogMap_from_bound l : forall index m key,
  key ∈ map (fun blog => toString (id blog)) l \/ is_Some (m !! key) ->
  is_Some (existingBlogMap_from index l m !! key).
Proof.
  induction l as [|b r IH]; intros index m key H; simpl.
  - destruct H as [H|H]; [by apply elem_of_nil in H|done].
  - apply IH. destruct H as [H|H].
    + simpl in H. apply elem_of_cons in H as [->|H]; [|by left].
      right. by rewrite lookup_insert_eq.
    + right. apply lookup_insert_is_Some.
      destruct (decide (toString (id b) = key)); [by left|by right].
Qed.

(** X2. The id map of the upsert binds an id to the last record that has
    it, with the sheet row of that record (position + 2); an id is bound
    exactly when it is in the set of existing ids.  So with two rows of the
    same id an update goes to the later row. *)
Theorem existingBlogMap_last existing key :
  (forall e ri,
     existingBlogMap existing !! key = Some (e, ri) <->
     exists i : nat, ri = (i + 2)%nat /\ existing !! i = Some e
       /\ toString (id e) = key
       /\ forall (j : nat) b, (i < j)%nat -> existing !! j = Some b ->
                              toString (id b) <> key)
  /\ (key ∈ existingIds existing <-> is_Some (existingBlogMap existing !! key)).
Proof.
  split.
  - intros e ri. unfold existingBlogMap. rewrite existingBlogMap_from_spec. split.
    + intros [(i & e' & Hx & Hi & Hk & Hlast)|[Hm _]]; [|by rewrite lookup_empty in Hm].
      inversion Hx; subst. by exists i.
    + intros (i & -> & Hi & Hk & Hlast). left. by exists i, e.
  - split.
    + intros Hin. unfold existingIds in Hin. apply elem_of_list_to_set in Hin.
      apply existingBlogMap_from_bound. by left.
    + intros [x Hx]. by eapply existingBlogMap_dom.
Qed.

(** X3. The diff finds no change exactly when the thirteen compared fields
    are equal in both records; id, tags, createdAt and updatedAt never
    count. *)
Theorem hasBlogChanged_iff e b :
  hasBlogChanged e b = false <-> same_compared_fields e b.
Proof.
  split; [|apply hasBlogChanged_same].
  intros H. destruct (hasBlogChanged e b) eqn:E; [done|].
  rewrite hasBlogChanged_eq in E.
  repeat (apply orb_false_iff in E as [E ?]).
  repeat match goal with
         | H : negb _ = false |- _ => apply negb_false_iff in H
         end.
  unfold same_compared_fields.
  repeat match goal with
         | H : String.eqb _ _ = true |- _ => apply String.eqb_eq in H
         | H : Bool.eqb _ _ = true |- _ => apply eqb_prop in H
         end.
  by repeat split.
Qed.

End IdMap.

(** ** Reading back what was written *)

Section ReadBack.

Import Blog.

Lemma join_empty ts : join ", " ts = "" -> ts = [] \/ ts = [""].
Proof.
  destruct ts as [|x [|y r]]; [by left| |].
  - simpl. intros ->. by right.
  - intros H. exfalso. change (join ", " (x :: y :: r))
      with (x +:+ String "," (String " " (join ", " (y :: r)))) in H.
    by destruct x.
Qed.

Lemma trim_skips_space t : trim (String " " t) = trim t.
Proof. reflexivity. Qed.

(** The tags read from the cell written for trimmed, comma-free tags. *)
Lemma tags_read_back ts :
  Forall (fun t => trim t = t /\ no_comma t = true) ts ->
  ts <> [""] ->
  (if truthy_cell (Some (join ", " ts))
   then map trim (split "," (or_default (Some (join ", " ts)) ""))
   else []) = ts.
Proof.
  intros Hts Hne.
  destruct (join ", " ts) as [|a s] eqn:E.
  - apply join_empty in E as [->| ->].
    + reflexivity.
    + by destruct Hne.
  - cbn [truthy_cell or_default]. rewrite <- E.
    rewrite split_join by (eapply Forall_impl; [exact Hts|]; by intros t [_ ?]).
    destruct ts as [|t r]; [discriminate E|]. clear a s E.
    inversion Hts as [|? ? [Ht _] Hr]; subst. simpl. rewrite Ht. f_equal.
    clear -Hr. induction Hr as [|x l [Hx _] _ IH]; simpl; [done|].
    by rewrite trim_skips_space, Hx, IH.
Qed.

Lemma or_default_some s d : s <> "" -> or_default (Some s) d = s.
Proof. by destruct s. Qed.

Lemma or_default_some_empty s : or_default (Some s) "" = s.
Proof. by destruct s. Qed.

Lemma nonempty_truthy s : s <> "" -> truthy_cell (Some s) = true.
Proof. by destruct s. Qed.

(** X4. A record with a truthy id, trimmed comma-free tags other than the
    single empty tag, and non-empty status, date, createdAt and updatedAt
    is read back unchanged from the row written for it, at any position and
    without reading the clock. *)
Theorem write_then_read blog index w :
  readable blog ->
  rowToBlog (cellsOf (blogToRow blog)) index w = (Return blog, w).
Proof.
  intros (Hid & Htags & Hne & Hst & Hd & Hc & Hu).
  set (row := cellsOf (blogToRow blog)).
  destruct (rowToBlog_run row index w) as (d & c & u & w' & E & _ & Sd & Sc & Su & K).
  change (row !! 14%nat) with (Some (date blog)) in Sd, K.
  change (row !! 15%nat) with (Some (createdAt blog)) in Sc, K.
  change (row !! 16%nat) with (Some (updatedAt blog)) in Su, K.
  pose proof (nonempty_truthy _ Hd) as Td.
  pose proof (nonempty_truthy _ Hc) as Tc.
  pose proof (nonempty_truthy _ Hu) as Tu.
  rewrite E, (K Td Tc Tu).
  rewrite (stamped_same _ _ _ _ Td Sd), (stamped_same _ _ _ _ Tc Sc),
    (stamped_same _ _ _ _ Tu Su).
  f_equal. f_equal.
  destruct blog as [i t ex co bu an ab aa tg im rt fe st ca da cr up].
  unfold blogOfRow, row, cellsOf, blogToRow. cbn [map value_toString list_lookup lookup].
  simpl in Hid, Htags, Hne, Hst.
  f_equal.
  - unfold rowId. cbn [Number_cell list_lookup lookup]. simpl.
    by rewrite Number_toString, Hid.
  - apply or_default_some_empty.
  - apply or_default_some_empty.
  - apply or_default_some_empty.
  - apply or_default_some_empty.
  - apply or_default_some_empty.
  - apply or_default_some_empty.
  - apply or_default_some_empty.
  - simpl. by apply tags_read_back.
  - apply or_default_some_empty.
  - apply or_default_some_empty.
  - simpl. by destruct fe.
  - simpl. by apply or_default_some.
  - apply or_default_some_empty.
Qed.

(** X5. The list operation returns one record per data row of the sheet
    (the rows after the first), each with a truthy id (never 0 and never
    NaN: the number the id cell reads as, or else the position), and leaves
    the store and the requests as they were. *)
Theorem readBlog_shape w :
  exists existing w',
    readBlogFromSheet w = (Return existing, w')
    /\ length existing = (length (blogGrid (store w)) - 1)%nat
    /\ Forall (fun b => truthy_number (id b) = true) existing
    /\ store w' = store w /\ requests w' = requests w.
Proof.
  destruct (quiet_readBlogFromSheet w) as (existing & w' & E & L).
  exists existing, w'. split; [done|].
  destruct (readBlog_ids _ _ _ E) as (rows & Hg & Hids & _).
  split.
  { unfold readBlogFromSheet, bind in E. rewrite Hg in E.
    rewrite (mapM_from_length _ _ _ _ _ _ E).
    unfold valuesGet in Hg. inversion Hg.
    by rewrite length_map, length_drop. }
  split.
  { apply Forall_forall. intros b Hb.
    apply list_elem_of_lookup in Hb as [k Hk].
    assert (Hk' : map id existing !! k = Some (id b)) by (by rewrite list_lookup_fmap, Hk).
    rewrite Hids in Hk'. apply list_lookup_imap_Some in Hk' as (row & _ & ->).
    apply rowId_truthy. }
  by destruct L as (? & _ & _ & ? & _).
Qed.

End ReadBack.

(** ** Deleting a row that is there *)

Section DeleteFound.

Import Blog Drive.

Lemma findRowToDelete_last blogId rows : forall index acc (k : nat) row,
  rows !! k = Some row ->
  strict_eq_number (Number_cell (row !! 0%nat)) blogId = true ->
  (forall (j : nat) r, (k < j)%nat -> rows !! j = Some r ->
     strict_eq_number (Number_cell (r !! 0%nat)) blogId = false) ->
  Blog.findRowToDelete blogId rows index acc = Z.of_nat (index + k) + 2.
Proof.
  induction rows as [|a r IH]; intros index acc k row Hk Hrow Hlast; [done|].
  destruct k as [|k]; simpl in Hk.
  - inversion Hk; subst a. simpl. rewrite Hrow.
    rewrite findRowToDelete_none; [f_equal; lia|].
    apply Forall_forall. intros r' Hr'. apply list_elem_of_lookup in Hr' as [j Hj].
    apply (Hlast (S j)); [lia|done].
  - simpl. rewrite (IH (S index) _ k row Hk Hrow); [f_equal; lia|].
    intros j r' Hj Hr'. apply (Hlast (S j)); [lia|done].
Qed.

(** X6. When some data rows have an id cell that reads as the id,
    [deleteBlogFromSheet] returns success after exactly one request: the
    deletion, on sheet 0, of the sheet row of the last such data row (data
    row [k] is sheet row [k + 2], rows [k + 1, k + 2) from 0). *)
Theorem deleteBlog_last_match blogId w rows (k : nat) row :
  valuesGet BlogTab 2 17 w = (Return rows, w) ->
  rows !! k = Some row ->
  strict_eq_number (Number_cell (row !! 0%nat)) blogId = true ->
  (forall (j : nat) r, (k < j)%nat -> rows !! j = Some r ->
     strict_eq_number (Number_cell (r !! 0%nat)) blogId = false) ->
  deleteBlogFromSheet blogId w
  = (Return true, sent (DeleteDimension 0 (Z.of_nat k + 1) (Z.of_nat k + 2)) w).
Proof.
  intros Hget Hk Hrow Hlast. unfold deleteBlogFromSheet, bind. rewrite Hget.
  rewrite (findRowToDelete_last blogId rows 0 (-1) k row Hk Hrow Hlast).
  replace (Z.of_nat (0 + k) + 2 =? -1) with false by (symmetry; apply Z.eqb_neq; lia).
  rewrite send_sent. unfold ret. do 3 f_equal; lia.
Qed.

Lemma findIndex_from_first {A} (p : A -> bool) l : forall index (j : nat) x,
  l !! j = Some x -> p x = true ->
  (forall (i : nat) y, (i < j)%nat -> l !! i = Some y -> p y = false) ->
  findIndex_from p l index = index + Z.of_nat j.
Proof.
  induction l as [|a r IH]; intros index j x Hj Hx Hfirst; [done|].
  destruct j as [|j]; simpl in Hj.
  - inversion Hj; subst a. simpl. rewrite Hx. lia.
  - simpl. rewrite (Hfirst 0%nat a) by (done || lia).
    rewrite (IH (index + 1) j x Hj Hx); [lia|].
    intros i y Hi Hy. apply (Hfirst (S i)); [lia|done].
Qed.

Lemma findIndex_cases {A} (p : A -> bool) l :
  (findIndex p l = -1 /\ find p l = None /\ Forall (fun x => p x = false) l)
  \/ (exists (j : nat) x, findIndex p l = Z.of_nat j /\ find p l = Some x
        /\ l !! j = Some x /\ p x = true
        /\ forall (i : nat) y, (i < j)%nat -> l !! i = Some y -> p y = false).
Proof.
  induction l as [|a r IH].
  - left. by repeat split.
  - destruct (p a) eqn:Ea.
    + right. exists 0%nat, a. unfold findIndex. simpl. rewrite Ea.
      repeat split; try done. intros i y Hi. lia.
    + destruct IH as [(Hf & Hn & Hall)|(j & x & Hf & Hs & Hj & Hx & Hfirst)].
      * left. unfold findIndex. simpl. rewrite Ea.
        split; [by apply findIndex_from_none|]. split; [done|by constructor].
      * right. exists (S j), x. unfold findIndex. simpl. rewrite Ea.
        split.
        { rewrite (findIndex_from_first p r (0 + 1) j x Hj Hx Hfirst). lia. }
        split; [done|]. split; [done|]. split; [done|].
        intros [|i] y Hi Hy; simpl in Hy; [by inversion Hy; subst|].
        apply (Hfirst i); [lia|done].
Qed.

(** X7. [getDriveById] and [deleteDrive] address the same drive.  Either no
    listed drive has the id: then [getDriveById] returns null and
    [deleteDrive] throws "Drive not found" without a request.  Or
    [getDriveById] returns the first listed drive whose id prints as the
    id, and [deleteDrive] returns success after one request, the deletion
    on sheet 0 of the sheet row of that drive. *)
Theorem getDriveById_deleteDrive id w allDrives w1 :
  getAllDrives w = (Return allDrives, w1) ->
  (getDriveById id w = (Return None, w1)
   /\ deleteDrive id w = (Throw "Drive not found", w1)
   /\ ~ drive_id_listed allDrives id)
  \/ (exists (j : nat) (drive : DriveData),
        allDrives !! j = Some drive /\ idString drive = Some id
        /\ (forall (i : nat) (d : DriveData), (i < j)%nat -> allDrives !! i = Some d ->
              idString d <> Some id)
        /\ getDriveById id w = (Return (Some drive), w1)
        /\ deleteDrive id w
           = (Return true,
              sent (DeleteDimension 0 (Z.of_nat j + 1) (Z.of_nat j + 2)) w1)).
Proof.
  intros Hall.
  destruct (findIndex_cases (hasId id) allDrives)
    as [(Hf & Hn & Hnone)|(j & x & Hf & Hs & Hj & Hx & Hfirst)].
  - left. split; [|split].
    + unfold getDriveById, bind. by rewrite Hall, Hn.
    + unfold deleteDrive, bind. by rewrite Hall, Hf.
    + intros (d & Hd & Hid). rewrite Forall_forall in Hnone.
      specialize (Hnone d Hd). unfold hasId in Hnone.
      by apply bool_decide_eq_false_1 in Hnone.
  - right. exists j, x. split; [done|].
    split; [unfold hasId in Hx; by apply bool_decide_eq_true_1 in Hx|].
    split.
    { intros i d Hi Hd Hid. specialize (Hfirst i d Hi Hd). unfold hasId in Hfirst.
      by apply bool_decide_eq_false_1 in Hfirst. }
    split.
    + unfold getDriveById, bind. by rewrite Hall, Hs.
    + unfold deleteDrive, bind. rewrite Hall, Hf.
      replace (Z.of_nat j =? -1) with false by (symmetry; apply Z.eqb_neq; lia).
      rewrite send_sent. unfold ret. do 3 f_equal; lia.
Qed.

(** X8. A validation failure makes [addDrive] and [updateDrive] throw the
    message of the validation with the world untouched: no clock reading,
    no read of the sheet, no request.  [updateDrive] on an id that no
    listed drive has throws "Drive not found" without a request. *)
Theorem drive_write_failures HEADERS validateDriveSheetData id (driveData : DriveData) w :
  (forall message, validateDriveSheetData driveData = Some message ->
     addDrive HEADERS validateDriveSheetData driveData w = (Throw message, w))
  /\ (forall message,
        validateDriveSheetData (<[ "id" := VStr id ]> driveData) = Some message ->
        updateDrive HEADERS validateDriveSheetData id driveData w = (Throw message, w))
  /\ (forall allDrives w1,
        validateDriveSheetData (<[ "id" := VStr id ]> driveData) = None ->
        getAllDrives w = (Return allDrives, w1) ->
        ~ drive_id_listed allDrives id ->
        updateDrive HEADERS validateDriveSheetData id driveData w
        = (Throw "Drive not found", w1)
        /\ requests w1 = requests w /\ store w1 = store w).
Proof.
  split; [|split].
  - intros message Hv. unfold addDrive, validate, bind. by rewrite Hv.
  - intros message Hv. unfold updateDrive, validate, bind. by rewrite Hv.
  - intros allDrives w1 Hv Hall Hnone.
    destruct (quiet_getAllDrives w) as (a & w1' & E & L).
    rewrite E in Hall. inversion Hall; subst a w1'. clear Hall.
    destruct L as (Hst & _ & _ & Hreq & _). split; [|done].
    unfold updateDrive, validate, bind. rewrite Hv. cbn [ret]. rewrite E.
    unfold findIndex. rewrite findIndex_from_none; [done|].
    apply Forall_forall. intros drive Hd. unfold hasId.
    apply bool_decide_eq_false_2. intros Hid. apply Hnone. by exists drive.
Qed.

End DeleteFound.

(** ** The drives list and what is read back from it *)

Section DriveShape.

Import Drive.

Lemma fillDrive_dom row headers : forall index (acc : DriveData) w (drive : DriveData) w',
  fillDrive row headers index acc w = (Return drive, w') ->
  dom drive = dom acc ∪ (list_to_set (List.filter ownKey headers) : gset string).
Proof.
  induction headers as [|h r IH]; intros index acc w drive w' H; simpl in H.
  - unfold ret in H. inversion H; subst. cbn [List.filter].
    by rewrite list_to_set_nil, (right_id_L ∅ (∪)).
  - unfold bind in H.
    destruct (quiet_convertCell h (or_default (row !! index) "") w) as (v & w1 & E1 & _).
    rewrite E1 in H. apply IH in H. rewrite H. cbn [List.filter].
    unfold assign, ownKey. destruct (String.eqb h "__proto__"); cbn [negb]; [done|].
    rewrite dom_insert_L, list_to_set_cons.
    by rewrite (comm_L (∪) {[h]} (dom acc)), <- (assoc_L (∪)).
Qed.

(** The property bound to a header is the conversion of the cell under its
    last occurrence. *)
Lemma fillDrive_last row headers : forall index (acc : DriveData) w (k : nat) h,
  headers !! k = Some h -> h ∉ drop (S k) headers -> h <> "__proto__" ->
  exists (drive : DriveData) w' wk v wk',
    fillDrive row headers index acc w = (Return drive, w')
    /\ later w wk
    /\ convertCell h (or_default (row !! (index + k)%nat) "") wk = (Return v, wk')
    /\ drive !! h = Some v.
Proof.
  induction headers as [|a r IH]; intros index acc w k h Hk Hlast Hown; [done|].
  simpl. unfold bind.
  destruct (quiet_convertCell a (or_default (row !! index) "") w) as (v & w1 & E1 & L1).
  rewrite E1. destruct k as [|k]; simpl in Hk, Hlast.
  - inversion Hk; subst a. rewrite drop_0 in Hlast.
    destruct (fillDrive_run row r (S index) (assign acc h v) w1)
      as (drive & w2 & E2 & _ & Hother & _).
    exists drive, w2, w, v, w1. split; [done|]. split; [apply later_refl|].
    rewrite Nat.add_0_r. split; [done|].
    by rewrite (Hother h Hlast), assign_named.
  - destruct (IH (S index) (assign acc a v) w1 k h Hk Hlast Hown)
      as (drive & w2 & wk & v' & wk' & E2 & Lk & Ec & Hd).
    exists drive, w2, wk, v', wk'. split; [done|].
    split; [by eapply later_trans|].
    replace (index + S k)%nat with (S index + k)%nat by lia. done.
Qed.

(** X9. [getAllDrives] returns one drive per row after the header row
    (none for an empty or header-only sheet); the properties of every drive
    are exactly the names in the header row, read to column R, other than
    [__proto__], for which the assignment creates no property; the store and
    the requests are left as they were. *)
Theorem getAllDrives_shape w :
  exists (allDrives : list DriveData) w',
    getAllDrives w = (Return allDrives, w')
    /\ length allDrives = (length (driveGrid (store w)) - 1)%nat
    /\ (forall drive : DriveData, drive ∈ allDrives ->
          dom drive
          = (list_to_set (List.filter ownKey (take 18 (hd [] (driveGrid (store w)))))
             : gset string)
          /\ "__proto__" ∉ dom drive)
    /\ store w' = store w /\ requests w' = requests w.
Proof.
  destruct (quiet_getAllDrives w) as (allDrives & w' & E & L).
  exists allDrives, w'. split; [done|].
  assert (Hsr : store w' = store w /\ requests w' = requests w)
    by (by destruct L as (? & _ & _ & ? & _)).
  unfold getAllDrives, bind, valuesGet in E. cbn [drop Nat.sub] in E.
  rewrite drop_0 in E.
  destruct (driveGrid (store w)) as [|hrow rest] eqn:Eg.
  { simpl in E. unfold ret in E. inversion E; subst. simpl.
    split; [done|]. split; [|done]. intros d Hd. by apply elem_of_nil in Hd. }
  destruct rest as [|r1 rest].
  { simpl in E. unfold ret in E. inversion E; subst. simpl.
    split; [done|]. split; [|done]. intros d Hd. by apply elem_of_nil in Hd. }
  cbn [map length Nat.leb] in E.
  split; [|split; [|done]].
  - apply mapM_from_length in E. rewrite E. simpl. rewrite length_map. lia.
  - intros drive Hd. apply list_elem_of_lookup in Hd as [j Hj].
    assert (Hq : forall (x : list string) (i : nat),
               quiet (fillDrive x (take 18 hrow) 0 ∅))
      by (intros; apply quiet_fillDrive).
    assert (Hlen : (j < length (take 18 r1 :: map (take 18) rest))%nat).
    { apply mapM_from_length in E. rewrite <- E. by eapply lookup_lt_Some. }
    apply lookup_lt_is_Some in Hlen as [row Hrow].
    destruct (mapM_from_lookup (fun row _ => fillDrive row (take 18 hrow) 0 ∅)
                _ _ _ _ _ _ _ Hq E Hrow) as (wk & d' & wk' & _ & Hrun & _ & _ & Hd').
    rewrite Hj in Hd'. inversion Hd'; subst d'.
    apply fillDrive_dom in Hrun. rewrite Hrun, dom_empty_L, (left_id_L ∅ (∪)).
    split; [done|]. rewrite elem_of_list_to_set, list_elem_of_In, filter_In.
    by intros [_ Hown].
Qed.

(** X10. The id of a drive added and listed again.  [addDrive] writes the
    text of the id (the one supplied when truthy, the printed clock time
    otherwise) into the id column; [getAllDrives], reading that row under
    the same headers, passes the cell through [parseInt].  So a drive added
    without id is listed with the id [addDrive] returned, and a supplied id
    comes back as its [parseInt] reading. *)
Theorem addDrive_id_read_back HEADERS validateDriveSheetData (driveData : DriveData)
    w (k : nat) :
  validateDriveSheetData driveData = None ->
  HEADERS !! k = Some "id" -> "id" ∉ drop (S k) HEADERS ->
  exists (newDrive : DriveData) w',
    addDrive HEADERS validateDriveSheetData driveData w = (Return newDrive, w')
    /\ (forall w2, exists (drive : DriveData) w3,
          fillDrive (cellsOf (driveToRow HEADERS newDrive)) HEADERS 0 ∅ w2
          = (Return drive, w3)
          /\ idFromCell w2 (Some (value_toString (prop newDrive "id"))) (drive !! "id")
          /\ (truthy (prop driveData "id") = false ->
              prop newDrive "id" = VStr (toString (Num (getTime (clock w (S (reads w))))))
              /\ idString drive = Some (toString (Num (getTime (clock w (S (reads w)))))))).
Proof.
  intros Hv Hk Hlast.
  destruct (addDrive_run HEADERS validateDriveSheetData driveData w Hv)
    as (newDrive & w' & Hrun & _ & Hid & _).
  exists newDrive, w'. split; [done|]. intros w2.
  destruct (fillDrive_run (cellsOf (driveToRow HEADERS newDrive)) HEADERS 0 ∅ w2)
    as (drive & w3 & E & _ & _ & Hcell).
  exists drive, w3. split; [done|].
  specialize (Hcell k Hk Hlast). simpl in Hcell.
  assert (Hrow : cellsOf (driveToRow HEADERS newDrive) !! k
                 = Some (value_toString (prop newDrive "id"))).
  { unfold cellsOf. rewrite list_lookup_fmap, (driveToRow_lookup _ _ _ _ Hk).
    simpl. by destruct (prop newDrive "id"). }
  rewrite Hrow in Hcell. split; [done|].
  intros Hfalsy. rewrite Hfalsy in Hid.
  assert (Hp : prop newDrive "id"
               = VStr (toString (Num (getTime (clock w (S (reads w)))))))
    by (unfold prop; by rewrite Hid).
  split; [done|]. rewrite Hp in Hcell. cbn [value_toString] in Hcell.
  destruct Hcell as [[Hf _]|(s & _ & Hs & Hd)].
  - by rewrite toString_nonempty in Hf.
  - assert (s = toString (Num (getTime (clock w (S (reads w)))))) as -> by congruence.
    unfold idString, prop. rewrite Hd, parseInt_toString. done.
Qed.

(** X11. [getDrivesByStatus] selects by the text of the status cell: with a
    status column in the header row, a listed drive is returned exactly
    when the cell of its row under (the last) status header, an absent cell
    counting as empty, is the status asked for. *)
Theorem getDrivesByStatus_cells status w headers dataRows (k : nat) :
  valuesGet DriveTab 1 18 w = (Return (headers :: dataRows), w) ->
  dataRows <> [] ->
  headers !! k = Some "status" -> "status" ∉ drop (S k) headers ->
  exists (allDrives result : list DriveData) w',
    getAllDrives w = (Return allDrives, w')
    /\ getDrivesByStatus status w = (Return result, w')
    /\ (forall drive : DriveData, drive ∈ result -> drive ∈ allDrives)
    /\ (forall (j : nat) (drive : DriveData) row,
          allDrives !! j = Some drive -> dataRows !! j = Some row ->
          (drive ∈ result <-> or_default (row !! k) "" = status)).
Proof.
  intros Hget Hne Hk Hlast.
  destruct (quiet_getAllDrives w) as (allDrives & w' & E & L).
  exists allDrives,
    (List.filter (fun drive => strict_eq (prop drive "status") (VStr status)) allDrives),
    w'.
  split; [done|].
  split; [unfold getDrivesByStatus, bind; rewrite E; reflexivity|].
  split.
  { intros drive Hd. apply list_elem_of_In, filter_In in Hd as [Hd _].
    by apply list_elem_of_In. }
  intros j drive row Hj Hrow.
  rewrite (getAllDrives_run _ _ _ _ Hget Hne) in E.
  assert (Hq : forall (x : list string) (i : nat), quiet (fillDrive x headers 0 ∅))
    by (intros; apply quiet_fillDrive).
  destruct (mapM_from_lookup (fun row _ => fillDrive row headers 0 ∅)
              _ _ _ _ _ _ _ Hq E Hrow) as (wk & d' & wk' & _ & Hrun & _ & _ & Hd').
  rewrite Hj in Hd'. inversion Hd'; subst d'.
  destruct (fillDrive_last row headers 0 ∅ wk k "status" Hk Hlast ltac:(done))
    as (drive' & w2 & wc & v & wc' & E2 & _ & Ec & Hv).
  rewrite E2 in Hrun. inversion Hrun; subst drive'.
  simpl in Ec. unfold ret in Ec. inversion Ec; subst v.
  assert (Hp : prop drive "status" = VStr (or_default (row !! k) ""))
    by (unfold prop; by rewrite Hv).
  split.
  - intros Hd. apply list_elem_of_In, filter_In in Hd as [_ Hd].
    rewrite Hp in Hd. simpl in Hd. by apply String.eqb_eq in Hd.
  - intros Hs. apply list_elem_of_In, filter_In. split.
    + apply list_elem_of_In. by eapply list_elem_of_lookup_2.
    + rewrite Hp. simpl. by apply String.eqb_eq.
Qed.

End DriveShape.

(** ** The banner when the stored list is the announced list *)

Section BannerSession.

Import Drive Banner.

Lemma loadable_shown d : loadable d = true -> shown d = true.
Proof.
  unfold loadable, shown. intros H.
  repeat (apply andb_true_iff in H as [H ?]). by apply andb_true_iff.
Qed.

Lemma filters_agree data :
  forallb (fun d => implb (shown d) (loadable d)) data = true ->
  List.filter shown data = List.filter loadable data.
Proof.
  induction data as [|d r IH]; simpl; [done|].
  intros [Hd Hr]%andb_true_iff. rewrite (IH Hr).
  destruct (loadable d) eqn:El.
  - by rewrite (loadable_shown d El).
  - by destruct (shown d).
Qed.

Lemma in_range_zero drives (st : State) :
  in_range {| currentDrives := drives; currentIndex := 0;
              isLoading := isLoading st; saved := saved st |}.
Proof.
  unfold in_range. simpl. destruct drives; [by right|left; simpl; lia].
Qed.

Lemma commit_settled st drives index :
  drives = getCurrentDrives (saved st) ->
  (index < length drives)%nat \/ (drives = [] /\ index = 0%nat) ->
  settled (commit st drives index).
Proof.
  intros Hd Hi. unfold commit, settled, in_range.
  destruct (index =? currentIndex st)%nat; simpl; rewrite <- ?Hd; by split.
Qed.

Lemma session_step st e :
  settled st -> complete e = true -> settled (run st (sessionEvents e)).
Proof.
  intros [Hl Hi] Hc. destruct e as [|index|data]; cbn [sessionEvents run foldl step].
  - destruct (1 <? length (currentDrives st))%nat eqn:E; [|done].
    apply Nat.ltb_lt in E. apply commit_settled; [done|]. left.
    apply Nat.mod_upper_bound. intros H0. rewrite H0 in E. inversion E.
  - destruct ((1 <? length (currentDrives st))%nat
              && (index <? length (currentDrives st))%nat) eqn:E; [|done].
    apply andb_true_iff in E as [_ E]. apply Nat.ltb_lt in E.
    apply commit_settled; [done|]. by left.
  - simpl in Hc. pose proof (filters_agree data Hc) as Hf.
    cbn [String.eqb Ascii.eqb Bool.eqb currentIndex currentDrives saved isLoading].
    destruct (length (List.filter shown data) <=? currentIndex st)%nat eqn:E.
    + apply commit_settled; [simpl; done|].
      destruct (List.filter shown data); [by right|left; simpl; lia].
    + apply Nat.leb_gt in E. apply commit_settled; [simpl; done|]. by left.
Qed.

(** X12. When every save stores the list it announces and every shown
    drive of that list has a title, a location and a date, the index of the
    banner stays in the list: after any sequence of ticks, clicks and such
    saves the list on display is the one the loader gives, the index is
    below its length (or the list is empty and the index 0), and what is
    displayed is never [undefined]. *)
Theorem banner_session_in_range saved0 (es : list SessionEvent) :
  forallb complete es = true ->
  let st := run (mount saved0) (concat (map sessionEvents es)) in
  currentDrives st = getCurrentDrives (saved st)
  /\ in_range st
  /\ displayed st <> Some None.
Proof.
  intros Hes.
  assert (Hsettled : settled (run (mount saved0) (concat (map sessionEvents es)))).
  { assert (H0 : settled (mount saved0)).
    { split; [done|]. unfold mount, loadData. simpl.
      unfold in_range. simpl. destruct (getCurrentDrives saved0); [by right|left; simpl; lia]. }
    revert H0. generalize (mount saved0). induction es as [|e r IH]; intros st Hst; [done|].
    simpl in Hes. apply andb_true_iff in Hes as [He Hr].
    simpl. unfold run in *. rewrite foldl_app. apply IH; [done|].
    by apply session_step. }
  cbv zeta. revert Hsettled.
  generalize (run (mount saved0) (concat (map sessionEvents es))).
  intros st [Hl Hi]. split; [done|]. split; [done|].
  unfold displayed. destruct (isLoading st); [done|]. simpl.
  destruct Hi as [Hi|[He _]].
  - apply lookup_lt_is_Some in Hi as [d Hd]. rewrite Hd.
    by destruct (length (currentDrives st) =? 0)%nat.
  - by rewrite He.
Qed.

End BannerSession.

(** ** The handlers of app/api/blog/route.ts *)

Section RouteDelete.

Import BlogRoute.

Lemma route_findRow_none blogId rows : forall index acc,
  Forall (fun row => row !! 0%nat <> Some blogId) rows ->
  findRowToDelete blogId rows index acc = acc.
Proof.
  induction rows as [|row r IH]; intros index acc H; simpl; [done|].
  inversion H as [|? ? Hrow Hr]; subst.
  rewrite (bool_decide_eq_false_2 _ Hrow). by apply IH.
Qed.

Lemma route_findRow_last blogId rows : forall index acc (k : nat) row,
  rows !! k = Some row -> row !! 0%nat = Some blogId ->
  (forall (j : nat) r, (k < j)%nat -> rows !! j = Some r -> r !! 0%nat <> Some blogId) ->
  findRowToDelete blogId rows index acc = Z.of_nat (index + k) + 2.
Proof.
  induction rows as [|a r IH]; intros index acc k row Hk Hrow Hlast; [done|].
  destruct k as [|k]; simpl in Hk.
  - inversion Hk; subst a. simpl. rewrite (bool_decide_eq_true_2 _ Hrow).
    rewrite route_findRow_none; [f_equal; lia|].
    apply Forall_forall. intros r' Hr'. apply list_elem_of_lookup in Hr' as [j Hj].
    apply (Hlast (S j)); [lia|done].
  - simpl. rewrite (IH (S index) _ k row Hk Hrow); [f_equal; lia|].
    intros j r' Hj Hr'. apply (Hlast (S j)); [lia|done].
Qed.

(** X13. The DELETE handler compares the id parameter with the id cells as
    text.  Without a parameter, or with an empty one, it answers 400; with
    an id that is the text of no id cell it answers 404; in both cases the
    world is untouched.  Otherwise it answers 200 after exactly one
    request, the deletion on sheet 0 of the sheet row of the last data row
    whose id cell is the id. *)
Theorem route_delete blogId w rows :
  valuesGet BlogTab 2 17 w = (Return rows, w) ->
  (truthy_cell blogId = false ->
     DELETE blogId w
     = (Return {| status := 400; payload := Failure "Blog ID is required" |}, w))
  /\ (forall s, blogId = Some s -> s <> "" ->
        (forall row, row ∈ rows -> row !! 0%nat <> Some s) ->
        DELETE blogId w
        = (Return {| status := 404; payload := Failure "Blog not found" |}, w))
  /\ (forall s (k : nat) row, blogId = Some s -> s <> "" ->
        rows !! k = Some row -> row !! 0%nat = Some s ->
        (forall (j : nat) r, (k < j)%nat -> rows !! j = Some r -> r !! 0%nat <> Some s) ->
        DELETE blogId w
        = (Return {| status := 200; payload := Deleted |},
           sent (DeleteDimension 0 (Z.of_nat k + 1) (Z.of_nat k + 2)) w)).
Proof.
  intros Hget. split; [|split].
  - intros Hf. unfold DELETE, try_catch. by rewrite Hf.
  - intros s -> Hs Hnone. unfold DELETE, try_catch, bind.
    rewrite (nonempty_truthy s Hs). cbn [negb]. rewrite Hget.
    rewrite (or_default_some s "" Hs), route_findRow_none; [done|].
    by apply Forall_forall.
  - intros s k row -> Hs Hk Hrow Hlast. unfold DELETE, try_catch, bind.
    rewrite (nonempty_truthy s Hs). cbn [negb]. rewrite Hget.
    rewrite (or_default_some s "" Hs).
    rewrite (route_findRow_last s rows 0 (-1) k row Hk Hrow Hlast).
    replace (Z.of_nat (0 + k) + 2 =? -1) with false by (symmetry; apply Z.eqb_neq; lia).
    rewrite send_sent. unfold ret. do 3 f_equal; lia.
Qed.

End RouteDelete.

Section RoutePost.

Import Drive BlogRoute.

Lemma value_or_now_run v f w :
  exists x w', value_or_now v f w = (Return x, w') /\ later w w'.
Proof.
  unfold value_or_now. destruct (truthy v).
  - exists v, w. split; [done|apply later_refl].
  - unfold bind. rewrite newDate_tick. eexists _, _. split; [done|apply later_tick].
Qed.

Lemma blogValues_run blog w :
  exists values w',
    blogValues blog w = (Return values, w') /\ later w w'
    /\ length values = 17%nat
    /\ values !! 0%nat = Some (or_value (prop blog "id") (VStr ""))
    /\ exists n, (reads w <= n)%nat
                 /\ values !! 16%nat = Some (VStr (toISOString (clock w n))).
Proof.
  destruct (value_or_now_run (prop blog "date") iso_date w) as (d & w1 & E1 & L1).
  destruct (value_or_now_run (prop blog "createdAt") toISOString w1) as (c & w2 & E2 & L2).
  unfold blogValues, bind. rewrite E1, E2, newDate_tick.
  eexists _, _. split; [reflexivity|].
  assert (L : later w w2) by (by eapply later_trans).
  split; [eapply later_trans; [exact L|apply later_tick]|].
  split; [done|]. split; [done|].
  exists (reads w2). destruct L as (_ & _ & Hc & _ & Hr). split; [done|].
  simpl. by rewrite Hc.
Qed.






End RoutePost.

Section RoutePostBack.

Import Drive BlogRoute.

Lemma idToRowIndex_from_inv rows : forall index m key ri,
  idToRowIndex_from index rows m !! key = Some ri ->
  m !! key = Some ri \/ exists row, row ∈ rows /\ row !! 0%nat = Some key.
Proof.
  induction rows as [|row r IH]; intros index m key ri H; simpl in H; [by left|].
  apply IH in H as [H|(row' & Hin & Hrow')].
  - destruct (truthy_cell (row !! 0%nat)) eqn:Et; [|by left].
    destruct (decide (or_default (row !! 0%nat) "" = key)) as [Heq|Hne].
    + right. exists row. split; [apply elem_of_cons; by left|].
      destruct (row !! 0%nat) as [[|a s]|]; try done. simpl in Heq. by subst.
    + left. by rewrite lookup_insert_ne in H.
  - right. exists row'. split; [apply elem_of_cons; by right|done].
Qed.

Lemma toJson_id blog : idString (toJson blog) = Some (toString (Blog.id blog)).
Proof. reflexivity. Qed.

(** X15. A listed blog whose row has an empty id cell is not matched when
    it is posted back.  For a data row at position [k] with an absent or
    empty id cell GET lists a blog with id [k + 1]; when no id cell of the
    sheet is the text of [k + 1], a POST of that blog is answered
    updated = 0, added = 1 and appends one more row, with id [k + 1],
    instead of updating row [k + 2]. *)
Theorem route_post_back_blank_id w rows (k : nat) row :
  valuesGet BlogTab 2 17 w = (Return rows, w) ->
  rows !! k = Some row ->
  truthy_cell (row !! 0%nat) = false ->
  (forall r, r ∈ rows -> r !! 0%nat <> Some (toString (Num (Z.of_nat k + 1)))) ->
  exists data blog w1,
    GET w = (Return {| status := 200; payload := BlogData data |}, w1)
    /\ data !! k = Some blog
    /\ Blog.id blog = Num (Z.of_nat k + 1)
    /\ exists values w2,
         POST (Json (Some [toJson blog])) w
         = (Return {| status := 200; payload := Saved 0 1 |}, w2)
         /\ requests w2 = requests w ++ [ValuesAppend BlogTab [values]]
         /\ values !! 0%nat = Some (VNum (Num (Z.of_nat k + 1))).
Proof.
  intros Hget Hk Hblank Hnone.
  destruct (quiet_readBlogFromSheet w) as (data & w1 & E & L).
  assert (Hmap : mapM_from Blog.rowToBlog 0 rows w = (Return data, w1)).
  { unfold Blog.readBlogFromSheet, bind in E. by rewrite Hget in E. }
  destruct (mapM_from_lookup _ _ _ _ _ _ _ _ quiet_rowToBlog Hmap Hk)
    as (wk & blog & wk' & _ & Hrun & _ & _ & Hb).
  destruct (rowToBlog_run row (0 + k) wk) as (d & c & u & w' & Er & _).
  rewrite Er in Hrun. inversion Hrun; subst blog.
  assert (Hid : Blog.id (blogOfRow row (0 + k) d c u) = Num (Z.of_nat k + 1)).
  { simpl. unfold rowId. by rewrite (falsy_cell_number _ Hblank). }
  exists data, (blogOfRow row (0 + k) d c u), w1.
  split; [unfold GET, try_catch, bind; by rewrite Hget, Hmap|].
  split; [done|]. split; [done|].
  set (blog := blogOfRow row (0 + k) d c u) in *.
  assert (Hm : rowIndexOf (idToRowIndex rows) (toJson blog) = None).
  { unfold rowIndexOf. rewrite toJson_id, Hid.
    destruct (idToRowIndex rows !! toString (Num (Z.of_nat k + 1))) as [ri|] eqn:Em; [|done].
    apply idToRowIndex_from_inv in Em as [Em|(r & Hr & Hc)];
      [by rewrite lookup_empty in Em|]. by destruct (Hnone r Hr). }
  destruct (blogValues_run (toJson blog) w) as (values & w2 & Ev & Lv & _ & H0 & _).
  exists values, (sent (ValuesAppend BlogTab [values]) w2).
  split.
  { unfold POST, try_catch, bind. rewrite Hget. cbn [prepare]. unfold bind.
    rewrite Ev, Hm. cbn [ret fst snd app forM_ length Nat.ltb Nat.leb].
    rewrite send_sent. reflexivity. }
  destruct Lv as (_ & _ & _ & Hreq & _).
  split; [simpl; by rewrite Hreq|].
  rewrite H0. change (prop (toJson blog) "id") with (VNum (Blog.id blog)).
  rewrite Hid. unfold or_value. simpl.
  replace (Z.of_nat k + 1 =? 0) with false by (symmetry; apply Z.eqb_neq; lia). done.
Qed.

End RoutePostBack.

(** ** Upserting the listing *)

Section UpsertListing.

Import Blog.

Lemma separate_all_skip ids m blogs nb ub w :
  Forall (fun b => isNew ids b = false /\ needsUpdate ids m b = false) blogs ->
  separate ids m blogs nb ub w = (Return (nb, ub), w).
Proof.
  induction 1 as [|b r [Hn Hu] _ IH]; [done|].
  simpl. unfold isNew, needsUpdate in Hn, Hu.
  apply negb_false_iff in Hn. rewrite Hn in *. simpl in Hu.
  destruct (m !! toString (id b)) as [[e ri]|]; [|done]. by rewrite Hu.
Qed.

Lemma readBlog_lookup w rows existing w1 (i : nat) row :
  valuesGet BlogTab 2 17 w = (Return rows, w) ->
  readBlogFromSheet w = (Return existing, w1) ->
  rows !! i = Some row ->
  exists d c u, existing !! i = Some (blogOfRow row i d c u)
                /\ stamped w (row !! 14%nat) iso_date d.
Proof.
  intros Hget Hread Hi. unfold readBlogFromSheet, bind in Hread. rewrite Hget in Hread.
  destruct (mapM_from_lookup _ _ _ _ _ _ _ _ quiet_rowToBlog Hread Hi)
    as (wk & b & wk' & Lk & Hrun & _ & _ & Hb).
  destruct (rowToBlog_run row (0 + i) wk) as (d & c & u & w' & E & _ & Sd & _).
  rewrite E in Hrun. inversion Hrun; subst b.
  exists d, c, u. split; [done|]. by eapply stamped_later.
Qed.

Lemma stamped_cell w c f s : truthy_cell c = true -> stamped w c f s -> c = Some s.
Proof. intros Ht [[_ H]|[H _]]; congruence. Qed.

(** X16. Upserting the listing back is a no-op.  When every data row has a
    date cell and the listed ids are pairwise different, [writeBlogToSheet]
    on the list that [readBlogFromSheet] has just returned answers
    updated = 0 and added = 0 and issues no request, whatever the clock
    shows in between. *)
Theorem upsert_of_listing w rows existing w1 :
  valuesGet BlogTab 2 17 w = (Return rows, w) ->
  Forall (fun row => truthy_cell (row !! 14%nat) = true) rows ->
  readBlogFromSheet w = (Return existing, w1) ->
  NoDup (map id existing) ->
  exists w2,
    writeBlogToSheet existing w1
    = (Return {| success := true; updated := 0; added := 0 |}, w2)
    /\ requests w2 = requests w /\ store w2 = store w.
Proof.
  intros Hget Hdates Hread Hnodup.
  destruct (quiet_readBlogFromSheet w) as (a & w1' & E & L).
  rewrite E in Hread. inversion Hread; subst a w1'. clear Hread.
  destruct L as (Hst & _ & _ & Hreq & _).
  destruct (quiet_readBlogFromSheet w1) as (existing2 & w2 & E2 & L2).
  destruct L2 as (Hst2 & _ & _ & Hreq2 & _).
  assert (Hget1 : valuesGet BlogTab 2 17 w1 = (Return rows, w1)).
  { unfold valuesGet in *. rewrite Hst. by inversion Hget. }
  pose proof (readBlog_ids_stable _ _ _ _ _ _ E Hst E2) as Hids.
  exists w2. split; [|by rewrite Hreq2, Hst2].
  unfold writeBlogToSheet, bind. rewrite E2.
  rewrite separate_all_skip; [done|].
  apply Forall_forall. intros b Hb.
  apply list_elem_of_lookup in Hb as [i Hi].
  assert (Hin : toString (id b) ∈ existingIds existing2).
  { rewrite (existingIds_map _ _ Hids). unfold existingIds.
    apply elem_of_list_to_set, list_elem_of_fmap. exists b.
    split; [done|by eapply list_elem_of_lookup_2]. }
  split; [unfold isNew; by rewrite (bool_decide_eq_true_2 _ Hin)|].
  unfold needsUpdate. rewrite (bool_decide_eq_true_2 _ Hin). simpl.
  destruct (existingBlogMap existing2 !! toString (id b)) as [[e ri]|] eqn:Em; [|done].
  unfold existingBlogMap in Em. apply existingBlogMap_from_spec in Em
    as [(j & e' & Hx & Hj & Hkey & _)|[Hm _]]; [|by rewrite lookup_empty in Hm].
  inversion Hx; subst e' ri. apply toString_inj in Hkey.
  assert (Hji : j = i).
  { eapply NoDup_lookup; [exact Hnodup| |].
    - rewrite <- Hids, list_lookup_fmap, Hj. simpl. by rewrite Hkey.
    - by rewrite list_lookup_fmap, Hi. }
  subst j.
  assert (Hlen : (i < length rows)%nat).
  { unfold readBlogFromSheet, bind in E. rewrite Hget in E.
    apply mapM_from_length in E. rewrite <- E. by eapply lookup_lt_Some. }
  apply lookup_lt_is_Some in Hlen as [row Hrow].
  destruct (readBlog_lookup _ _ _ _ _ _ Hget E Hrow) as (d & c & u & Hb & Sd).
  destruct (readBlog_lookup _ _ _ _ _ _ Hget1 E2 Hrow) as (d2 & c2 & u2 & He & Sd2).
  rewrite Hi in Hb. rewrite Hj in He. inversion Hb; inversion He; subst b e.
  rewrite Forall_forall in Hdates.
  assert (Ht : truthy_cell (row !! 14%nat) = true)
    by (apply Hdates; by eapply list_elem_of_lookup_2).
  pose proof (stamped_cell _ _ _ _ Ht Sd) as H1.
  pose proof (stamped_cell _ _ _ _ Ht Sd2) as H2.
  assert (d2 = d) as -> by congruence.
  apply hasBlogChanged_same. by repeat split.
Qed.

End UpsertListing.

(** ** Adding the same title twice *)

Section AddTwice.

Import Blog.

(** X17. A second insert of a title is refused once the first is stored.
    On a sheet whose ids are safe integers, [addSingleBlog] appends one row
    for a title that is not in the sheet; if the service stores that row
    below the existing rows of a sheet that has its header row, then
    [addSingleBlog] with a title equal up to case returns the failure result
    and issues no request. *)
Theorem add_twice_conflict w existing w1 blog blog2 :
  readBlogFromSheet w = (Return existing, w1) ->
  Forall (fun e => isSafeInteger (id e) = true) existing ->
  (forall e, e ∈ existing -> ~ same_title_up_to_case (title e) (in_title blog)) ->
  same_title_up_to_case (in_title blog) (in_title blog2) ->
  exists w' row newId,
    addSingleBlog blog w
    = (Return {| add_success := true; add_id := Some newId; add_message := None |}, w')
    /\ requests w' = requests w ++ [ValuesAppend BlogTab [row]]
    /\ (blogGrid (store w) <> [] ->
        blogGrid (store w') = blogGrid (store w) ++ [cellsOf row] ->
        exists w'',
          addSingleBlog blog2 w'
          = (Return {| add_success := false; add_id := None;
                       add_message := Some "A blog with this title already exists" |},
             w'')
          /\ requests w'' = requests w').
Proof.
  intros Hread Hsafe Hfree Hsame.
  destruct (addSingleBlog_run w existing w1 blog Hread Hsafe Hfree)
    as (w' & n & m & Hrun & Hreq & _).
  eexists w', _, _. split; [exact Hrun|]. split; [exact Hreq|].
  intros Hgrid Hstore.
  destruct (quiet_readBlogFromSheet w') as (existing' & w'' & E & L).
  exists w''. destruct L as (_ & _ & _ & Hreq' & _). split; [|done].
  set (row := blogToRow _) in *.
  set (rows := map (take 17) (drop 1 (blogGrid (store w)))).
  assert (Hget : valuesGet BlogTab 2 17 w' = (Return (rows ++ [cellsOf row]), w')).
  { unfold valuesGet. cbn [Nat.sub]. rewrite Hstore.
    destruct (blogGrid (store w)) as [|h g]; [done|]. simpl. rewrite !drop_0.
    by rewrite map_app. }
  assert (Hlast : (rows ++ [cellsOf row]) !! length rows = Some (cellsOf row))
    by (by rewrite lookup_app_r, Nat.sub_diag by lia).
  destruct (readBlog_lookup _ _ _ _ _ _ Hget E Hlast) as (d & c & u & He & _).
  unfold addSingleBlog, bind. rewrite E.
  destruct (find_elem
              (fun b => String.eqb (toLowerCase (title b)) (toLowerCase (in_title blog2)))
              existing' _ (list_elem_of_lookup_2 _ _ _ He)) as (y & ->); [|done].
  apply String.eqb_eq. unfold blogOfRow. cbn [title].
  change (cellsOf row !! 1%nat) with (Some (in_title blog)).
  rewrite or_default_some_empty. exact Hsame.
Qed.

End AddTwice.

(** ** The further properties on the sample worlds *)

Section FurtherSampleRuns.

Import Blog Drive.

Lemma sample_rows :
  valuesGet BlogTab 2 17 Sample.world
  = (Return [Sample.blogRow1; Sample.blogRow2], Sample.world).
Proof. reflexivity. Qed.

Lemma upsert_accounting_witness :
  exists newBlogs updatedBlogs w',
    writeBlogToSheet [Sample.retitled1; Sample.fresh7; Sample.stored1] Sample.world
    = (Return {| success := true; updated := length updatedBlogs;
                 added := length newBlogs |}, w')
    /\ requests w'
       = requests Sample.world ++ map updateRequest updatedBlogs ++ appendRequest newBlogs
    /\ (length updatedBlogs + length newBlogs <= 3)%nat.
Proof.
  destruct (upsert_accounting [Sample.retitled1; Sample.fresh7; Sample.stored1]
              Sample.world [Sample.stored1; Sample.stored2]
              (Sample.after Sample.world 3) eq_refl)
    as (nb & ub & w' & Hrun & Hreq & _ & _ & Hlen).
  exists nb, ub, w'. split; [exact Hrun|]. split; [exact Hreq|exact Hlen].
Defined.

Lemma sample_stored1_readable : readable Sample.stored1.
Proof.
  unfold readable. simpl. split; [reflexivity|]. split.
  - repeat constructor.
  - repeat split; discriminate.
Qed.

Lemma write_then_read_witness :
  rowToBlog (cellsOf (blogToRow Sample.stored1)) 4 Sample.world
  = (Return Sample.stored1, Sample.world).
Proof. exact (write_then_read Sample.stored1 4 Sample.world sample_stored1_readable). Defined.

Lemma sample_row1_last (j : nat) r :
  (0 < j)%nat -> [Sample.blogRow1; Sample.blogRow2] !! j = Some r ->
  strict_eq_number (Number_cell (r !! 0%nat)) (Num 1) = false.
Proof.
  intros Hj Hr. destruct j as [|[|j]]; [lia| |done].
  simpl in Hr. injection Hr as <-. reflexivity.
Qed.

Lemma deleteBlog_last_match_witness :
  deleteBlogFromSheet (Num 1) Sample.world
  = (Return true, sent (DeleteDimension 0 1 2) Sample.world).
Proof.
  exact (deleteBlog_last_match (Num 1) Sample.world
           [Sample.blogRow1; Sample.blogRow2] 0 Sample.blogRow1
           eq_refl eq_refl eq_refl sample_row1_last).
Defined.

Lemma getDriveById_deleteDrive_witness :
  (getDriveById "41" Sample.world = (Return None, Sample.after Sample.world 1)
   /\ deleteDrive "41" Sample.world = (Throw "Drive not found", Sample.after Sample.world 1)
   /\ ~ drive_id_listed Sample.drives "41")
  \/ (exists (j : nat) (drive : DriveData),
        Sample.drives !! j = Some drive /\ idString drive = Some "41"
        /\ (forall (i : nat) (d : DriveData), (i < j)%nat -> Sample.drives !! i = Some d ->
              idString d <> Some "41")
        /\ getDriveById "41" Sample.world = (Return (Some drive), Sample.after Sample.world 1)
        /\ deleteDrive "41" Sample.world
           = (Return true,
              sent (DeleteDimension 0 (Z.of_nat j + 1) (Z.of_nat j + 2))
                (Sample.after Sample.world 1))).
Proof.
  exact (getDriveById_deleteDrive "41" Sample.world Sample.drives
           (Sample.after Sample.world 1) eq_refl).
Defined.

Lemma drive_write_failures_witness :
  updateDrive Sample.driveHeader Sample.validateRequired "41" Sample.partialPatch
    Sample.world
  = (Throw "Missing required fields", Sample.world)
  /\ updateDrive Sample.driveHeader Sample.validateAny "99" Sample.partialPatch
       Sample.world
     = (Throw "Drive not found", Sample.after Sample.world 1).
Proof.
  split.
  - apply (proj1 (proj2 (drive_write_failures Sample.driveHeader Sample.validateRequired
                           "41" Sample.partialPatch Sample.world))).
    reflexivity.
  - apply (proj2 (proj2 (drive_write_failures Sample.driveHeader Sample.validateAny
                           "99" Sample.partialPatch Sample.world))
             Sample.drives (Sample.after Sample.world 1)).
    + reflexivity.
    + reflexivity.
    + exact sample_no_drive_99.
Defined.

Lemma sample_id_header_last : "id" ∉ drop 1 Sample.driveHeader.
Proof.
  vm_compute. intros H.
  repeat (apply elem_of_cons in H as [H|H]; [discriminate H|]).
  by apply elem_of_nil in H.
Qed.

Lemma addDrive_id_read_back_witness :
  exists (newDrive : DriveData) w',
    addDrive Sample.driveHeader Sample.validateRequired Sample.driveInput Sample.world
    = (Return newDrive, w')
    /\ exists (drive : DriveData) w3,
         fillDrive (cellsOf (driveToRow Sample.driveHeader newDrive))
           Sample.driveHeader 0 ∅ Sample.world = (Return drive, w3)
         /\ idString drive = Some "1700000000001".
Proof.
  destruct (addDrive_id_read_back Sample.driveHeader Sample.validateRequired
              Sample.driveInput Sample.world 0 eq_refl eq_refl sample_id_header_last)
    as (newDrive & w' & Hrun & Hback).
  exists newDrive, w'. split; [exact Hrun|].
  destruct (Hback Sample.world) as (drive & w3 & Hfill & _ & Hgen).
  exists drive, w3. split; [exact Hfill|]. apply Hgen. reflexivity.
Defined.

Lemma sample_status_header_last : "status" ∉ drop 7 Sample.driveHeader.
Proof.
  vm_compute. intros H.
  repeat (apply elem_of_cons in H as [H|H]; [discriminate H|]).
  by apply elem_of_nil in H.
Qed.

Lemma getDrivesByStatus_cells_witness :
  exists (allDrives result : list DriveData) w',
    getAllDrives Sample.world = (Return allDrives, w')
    /\ getDrivesByStatus "upcoming" Sample.world = (Return result, w')
    /\ (forall drive : DriveData, drive ∈ result -> drive ∈ allDrives).
Proof.
  destruct (getDrivesByStatus_cells "upcoming" Sample.world Sample.driveHeader
              [Sample.driveRow1; Sample.driveRow2] 6)
    as (allDrives & result & w' & Hall & Hres & Hsub & _).
  - reflexivity.
  - discriminate.
  - reflexivity.
  - exact sample_status_header_last.
  - exists allDrives, result, w'. split; [exact Hall|]. split; [exact Hres|exact Hsub].
Defined.

Lemma banner_session_in_range_witness :
  let st := Banner.run (Banner.mount (Some [Sample.ride1; Sample.ride2; Sample.ride3]))
              (concat (map sessionEvents Sample.session)) in
  Banner.currentDrives st = Banner.getCurrentDrives (Banner.saved st)
  /\ in_range st
  /\ Banner.displayed st <> Some None.
Proof.
  apply (banner_session_in_range (Some [Sample.ride1; Sample.ride2; Sample.ride3])
           Sample.session).
  vm_compute. reflexivity.
Defined.

End FurtherSampleRuns.

Section FurtherSampleRunsRoute.

Import Blog BlogRoute.

Lemma sample_no_cell_zero row :
  row ∈ [Sample.blogRow1; Sample.blogRow2] -> row !! 0%nat <> Some "0".
Proof.
  intros Hin. repeat (apply elem_of_cons in Hin as [->|Hin]; [discriminate|]).
  by apply elem_of_nil in Hin.
Qed.

Lemma route_delete_witness :
  DELETE None Sample.world
  = (Return {| status := 400; payload := Failure "Blog ID is required" |}, Sample.world)
  /\ DELETE (Some "0") Sample.world
     = (Return {| status := 404; payload := Failure "Blog not found" |}, Sample.world).
Proof.
  destruct (route_delete None Sample.world [Sample.blogRow1; Sample.blogRow2] eq_refl)
    as (H400 & _).
  destruct (route_delete (Some "0") Sample.world [Sample.blogRow1; Sample.blogRow2]
              eq_refl) as (_ & H404 & _).
  split.
  - apply H400. reflexivity.
  - apply (H404 "0").
    + reflexivity.
    + discriminate.
    + exact sample_no_cell_zero.
Defined.


Lemma sample_no_cell_two r :
  r ∈ [Sample.blogRow1; Sample.blogRow2] ->
  r !! 0%nat <> Some (toString (Num (Z.of_nat 1 + 1))).
Proof.
  intros Hin. repeat (apply elem_of_cons in Hin as [->|Hin]; [discriminate|]).
  by apply elem_of_nil in Hin.
Qed.

Lemma route_post_back_blank_id_witness :
  exists data blog w1,
    GET Sample.world = (Return {| status := 200; payload := BlogData data |}, w1)
    /\ data !! 1%nat = Some blog
    /\ exists (values : list value) w2,
         POST (Json (Some [toJson blog])) Sample.world
         = (Return {| status := 200; payload := Saved 0 1 |}, w2)
         /\ values !! 0%nat = Some (VNum (Num 2)).
Proof.
  destruct (route_post_back_blank_id Sample.world [Sample.blogRow1; Sample.blogRow2]
              1 Sample.blogRow2 eq_refl eq_refl eq_refl sample_no_cell_two)
    as (data & blog & w1 & Hget & Hk & _ & values & w2 & Hpost & _ & H0).
  exists data, blog, w1. split; [exact Hget|]. split; [exact Hk|].
  exists values, w2. split; [exact Hpost|exact H0].
Defined.

Lemma sample_one_row_dates :
  Forall (fun row => truthy_cell (row !! 14%nat) = true) [Sample.blogRow1].
Proof. by repeat constructor. Qed.

Lemma sample_one_row_nodup : NoDup (map Blog.id [Sample.stored1]).
Proof. repeat constructor. intros H. by apply elem_of_nil in H. Qed.

Lemma upsert_of_listing_witness :
  exists w2,
    writeBlogToSheet [Sample.stored1] Sample.oneRowWorld
    = (Return {| success := true; updated := 0; added := 0 |}, w2)
    /\ requests w2 = requests Sample.oneRowWorld
    /\ store w2 = store Sample.oneRowWorld.
Proof.
  exact (upsert_of_listing Sample.oneRowWorld [Sample.blogRow1] [Sample.stored1]
           Sample.oneRowWorld eq_refl sample_one_row_dates eq_refl sample_one_row_nodup).
Defined.

Lemma add_twice_conflict_witness :
  exists w' w'',
    addSingleBlog Sample.input Sample.world
    = (Return {| add_success := true; add_id := Some (Num 3); add_message := None |}, w')
    /\ addSingleBlog Sample.input w'
       = (Return {| add_success := false; add_id := None;
                    add_message := Some "A blog with this title already exists" |}, w'')
    /\ requests w'' = requests w'.
Proof.
  destruct (add_twice_conflict Sample.world [Sample.stored1; Sample.stored2]
              (Sample.after Sample.world 3) Sample.input Sample.input
              sample_read sample_safe_ids sample_titles_differ eq_refl)
    as (w' & row & newId & Hrun & Hreq & Hsecond).
  assert (Hw : w' = snd (addSingleBlog Sample.input Sample.world))
    by (by rewrite Hrun).
  assert (Hid : Some newId = add_id match fst (addSingleBlog Sample.input Sample.world) with
                                    | Return r => r
                                    | Throw _ => {| add_success := false; add_id := None;
                                                    add_message := None |}
                                    end)
    by (by rewrite Hrun).
  vm_compute in Hid. injection Hid as ->.
  subst w'. vm_compute in Hreq. injection Hreq as <-.
  destruct Hsecond as (w'' & Hrun2 & Hreq2).
  - discriminate.
  - vm_compute. reflexivity.
  - eexists _, w''. split; [exact Hrun|]. split; [exact Hrun2|exact Hreq2].
Defined.

End FurtherSampleRunsRoute.
